(** * AWS resource inventory dashboard: collector, store, query and summary

    Shallow embedding of
      - [ResourceCollector] (services/ResourceCollector.ts),
      - the credential store of [AuthService] (services/AuthService.ts),
      - [AccountController] (controllers/AccountController.ts),
      - [ResourceController] (controllers/ResourceController.ts) over the
        tables of models/Account.ts and models/Resource.ts, and
      - the in-memory handlers of [simple-server.js],
    followed by the properties of the aggregation and query engine, of the
    account handlers and of the refresh.

    Conventions of the embedding.
      - A JavaScript string is the [string] of the bytes of its UTF-8
        encoding (strings are taken to be well-formed Unicode).
        [String.prototype.toLowerCase] belongs to the runtime and is a
        parameter of the embedding ([Js.Runtime]); [Js.asciiText], which
        folds the letters A-Z only, serves where a statement is evaluated on
        ASCII text.
      - A JavaScript number that the handlers compute with is NaN, an
        infinity or an integer ([JsNum]); [parseInt] rounds what it reads to
        the nearest double.  The sum of two finite numbers is kept exact:
        the handlers use it as an array index and compare it with an array
        length only, and the double sum differs from it only beyond 2^53.
      - A [Date] is its epoch value in milliseconds ([Z]).  The wall clock is
        read through a parameter [now]: the reads of one handler invocation
        are taken at one instant, where the code reads the clock again after
        each awaited call.  The properties below are not about these
        instants.
      - A JavaScript object used as a dictionary is a [gmap] over its own
        property names.  Where the code assigns or counts under a computed
        name, the properties that a plain object inherits are taken into
        account ([Js.prototypeNames]).
      - The database keys the rows of a table by the string handed over as
        primary key; a check of the syntax of UUIDs is not modelled.  The
        connection of config/database is not among the sources: it is taken
        to add no attribute to the models and to enforce the constraints
        that the models declare.
      - Fields of the type-specific attribute bag (instanceType, engine,
        cidrBlock, ...) are not read by any operation below and are left out
        of the records. *)

From stdpp Require Import gmap strings list fin_maps sorting pretty.
From Stdlib Require Import ZArith Ascii.

Local Open Scope string_scope.
Local Open Scope Z_scope.
Local Open Scope list_scope.

(** ** JavaScript helpers *)

Module Js.

(** A number as the handlers see it: the result of [parseInt] or of an
    addition of two such results. *)
Inductive JsNum : Type :=
  | NaN
  | Fin (z : Z)
  | PosInfinity
  | NegInfinity.

#[global] Instance JsNum_eq_dec : EqDecision JsNum.
Proof. solve_decision. Defined.

(** [a + b] *)
Definition add (a b : JsNum) : JsNum :=
  match a, b with
  | Fin x, Fin y => Fin (x + y)
  | NaN, _ | _, NaN => NaN
  | PosInfinity, NegInfinity | NegInfinity, PosInfinity => NaN
  | PosInfinity, _ | _, PosInfinity => PosInfinity
  | NegInfinity, _ | _, NegInfinity => NegInfinity
  end.

(** [n > b] for an array length [n]; every comparison with NaN is false. *)
Definition gt (n : Z) (b : JsNum) : bool :=
  match b with
  | Fin y => bool_decide (y < n)
  | NegInfinity => true
  | NaN | PosInfinity => false
  end.

(** A relative index of [slice] into an array of length [len]:
    ToIntegerOrInfinity reads NaN as 0, negative values count from the
    end, and the result is clamped to the array. *)
Definition relIndex (len : Z) (a : JsNum) : Z :=
  match a with
  | NaN => 0
  | Fin i => if bool_decide (i < 0) then Z.max (len + i) 0 else Z.min i len
  | PosInfinity => len
  | NegInfinity => 0
  end.

(** [l.slice(start, end)] *)
Definition slice {A : Type} (l : list A) (start stop : JsNum) : list A :=
  let len := Z.of_nat (length l) in
  let k := relIndex len start in
  let final := relIndex len stop in
  take (Z.to_nat (Z.max (final - k) 0)) (drop (Z.to_nat k) l).

(** Truthiness of an optional string: [undefined] and the empty string are
    falsy. *)
Definition nonempty (s : string) : bool := negb (String.eqb s "").

Definition truthy (o : option string) : bool :=
  match o with
  | Some s => nonempty s
  | None => false
  end.

(** [o || d] for an optional string [o]. *)
Definition orElse (o : option string) (d : string) : string :=
  match o with
  | Some s => if nonempty s then s else d
  | None => d
  end.

(** The runtime's [String.prototype.toLowerCase]. *)
Class Runtime : Type := { toLowerCase : string -> string }.

(** The fold of the letters A-Z, which is what [toLowerCase] does to ASCII
    text. *)
Definition lowerChar (c : ascii) : ascii :=
  let n := nat_of_ascii c in
  if (Nat.leb 65 n && Nat.leb n 90)%bool then ascii_of_nat (n + 32) else c.

Fixpoint lowerAscii (s : string) : string :=
  match s with
  | EmptyString => EmptyString
  | String c s' => String (lowerChar c) (lowerAscii s')
  end.

Definition asciiText : Runtime := {| toLowerCase := lowerAscii |}.

(** [s.includes(sub)] *)
Fixpoint includes (s sub : string) : bool :=
  (String.prefix sub s
   || match s with
      | EmptyString => false
      | String _ s' => includes s' sub
      end)%bool.

(** [l.join(",")] *)
Fixpoint join (l : list string) : string :=
  match l with
  | [] => ""
  | [s] => s
  | s :: l' => s +:+ "," +:+ join l'
  end.

(** The own property names of [Object.prototype], which every object
    literal inherits. *)
Definition prototypeNames : list string :=
  [ "constructor"; "__defineGetter__"; "__defineSetter__"; "hasOwnProperty";
    "__lookupGetter__"; "__lookupSetter__"; "isPrototypeOf"; "propertyIsEnumerable";
    "toString"; "valueOf"; "__proto__"; "toLocaleString" ].

(** [object[name] = value] for a string [value] on an object literal: the
    name [__proto__] is the accessor that the object inherits, whose setter
    ignores a string, so the assignment creates no property. *)
Definition assign (name value : string) (object : gmap string string) : gmap string string :=
  if String.eqb name "__proto__" then object else <[name := value]> object.

(** *** parseInt *)

(** The white space that [parseInt] skips (WhiteSpace and LineTerminator of
    the language), in UTF-8: TAB, LF, VT, FF, CR and SP in one byte, *)
Definition isWhiteSpace (c : ascii) : bool :=
  let n := nat_of_ascii c in
  (Nat.eqb n 32 || (Nat.leb 9 n && Nat.leb n 13))%bool.

(** U+00A0 in two bytes, *)
Definition isWhiteSpace2 (c1 c2 : ascii) : bool :=
  (Nat.eqb (nat_of_ascii c1) 194 && Nat.eqb (nat_of_ascii c2) 160)%bool.

(** and U+1680, U+2000 to U+200A, U+2028, U+2029, U+202F, U+205F, U+3000 and
    U+FEFF in three. *)
Definition isWhiteSpace3 (c1 c2 c3 : ascii) : bool :=
  let n1 := nat_of_ascii c1 in
  let n2 := nat_of_ascii c2 in
  let n3 := nat_of_ascii c3 in
  ((Nat.eqb n1 225 && Nat.eqb n2 154 && Nat.eqb n3 128)
   || (Nat.eqb n1 226 && Nat.eqb n2 128
       && ((Nat.leb 128 n3 && Nat.leb n3 138) || Nat.eqb n3 168 || Nat.eqb n3 169
           || Nat.eqb n3 175))
   || (Nat.eqb n1 226 && Nat.eqb n2 129 && Nat.eqb n3 159)
   || (Nat.eqb n1 227 && Nat.eqb n2 128 && Nat.eqb n3 128)
   || (Nat.eqb n1 239 && Nat.eqb n2 187 && Nat.eqb n3 191))%bool.

Fixpoint trimStart (s : string) : string :=
  match s with
  | EmptyString => EmptyString
  | String c1 s1 =>
      if isWhiteSpace c1 then trimStart s1
      else
        match s1 with
        | EmptyString => s
        | String c2 s2 =>
            if isWhiteSpace2 c1 c2 then trimStart s2
            else
              match s2 with
              | EmptyString => s
              | String c3 s3 => if isWhiteSpace3 c1 c2 c3 then trimStart s3 else s
              end
        end
  end.

(** Value of a character as a digit, if it is one in some radix up to 36. *)
Definition digitValue (c : ascii) : option Z :=
  let n := nat_of_ascii c in
  if (Nat.leb 48 n && Nat.leb n 57)%bool then Some (Z.of_nat (n - 48))
  else if (Nat.leb 97 n && Nat.leb n 122)%bool then Some (Z.of_nat (n - 87))
  else if (Nat.leb 65 n && Nat.leb n 90)%bool then Some (Z.of_nat (n - 55))
  else None.

(** The longest prefix of radix-[r] digits, read as a number; [acc] is
    [None] until a digit has been seen. *)
Fixpoint digits (r : Z) (acc : option Z) (s : string) : option Z :=
  match s with
  | EmptyString => acc
  | String c s' =>
      match digitValue c with
      | Some d =>
          if bool_decide (d < r)
          then digits r (Some (default 0 acc * r + d)) s'
          else acc
      | None => acc
      end
  end.

(** The double nearest to an integer, ties to the even significand; an
    integer that rounds to 2^1024 or beyond gives an infinity. *)
Definition roundDouble (z : Z) : JsNum :=
  let a := Z.abs z in
  if bool_decide (a < 2 ^ 53) then Fin z
  else
    let e := Z.log2 a - 52 in
    let m := Z.shiftr a e in
    let r := a - Z.shiftl m e in
    let half := Z.shiftl 1 (e - 1) in
    let m' := if bool_decide (half < r) then m + 1
              else if bool_decide (r = half) then (if Z.odd m then m + 1 else m)
              else m in
    let v := Z.shiftl m' e in
    if bool_decide (2 ^ 1024 <= v) then (if bool_decide (z < 0) then NegInfinity else PosInfinity)
    else Fin (Z.sgn z * v).

(** [parseInt(s)] without a radix argument. *)
Definition parseInt (s : string) : JsNum :=
  let s1 := trimStart s in
  let '(neg, s2) :=
    match s1 with
    | String "-" t => (true, t)
    | String "+" t => (false, t)
    | _ => (false, s1)
    end in
  let '(r, s3) :=
    match s2 with
    | String "0" (String "x" t) => (16, t)
    | String "0" (String "X" t) => (16, t)
    | _ => (10, s2)
    end in
  match digits r None s3 with
  | Some n => roundDouble (if neg : bool then - n else n)
  | None => NaN
  end.

(** *** Values of [req.query] *)

(** What the query parser of Express makes of a parameter: nothing, a
    string, an array (a repeated parameter or bracketed indices) or an
    object (bracketed names), nested at will. *)
#[local] Set Warnings "-register-all".

Inductive QVal : Type :=
  | QUndefined
  | QStr (s : string)
  | QArr (l : list QVal)
  | QObj (fields : list (string * QVal)).

(** [if (v)] *)
Definition qTruthy (v : QVal) : bool :=
  match v with
  | QUndefined => false
  | QStr s => nonempty s
  | QArr _ | QObj _ => true
  end.

(** [Array.isArray(v) ? v : [v]] *)
Definition asArray (v : QVal) : list QVal :=
  match v with
  | QArr l => l
  | _ => [v]
  end.

(** The members of an array that are strings: [array.includes(s)] and
    [IN (...)] compare a string with these only. *)
Definition stringsOf (l : list QVal) : list string :=
  omap (fun v => match v with QStr s => Some s | _ => None end) l.

(** ToString of a query value, as a template literal or [parseInt] takes
    it; [None] when it throws a TypeError.  An array joins the texts of its
    members; an object reads [[object Object]] through the [toString] it
    inherits, unless a property of its own hides that method. *)
Fixpoint qToString (v : QVal) : option string :=
  match v with
  | QUndefined => Some "undefined"
  | QStr s => Some s
  | QArr l =>
      join <$>
        (fix members (l : list QVal) : option (list string) :=
           match l with
           | [] => Some []
           | x :: l' =>
               match (match x with QUndefined => Some "" | _ => qToString x end), members l' with
               | Some s, Some ss => Some (s :: ss)
               | _, _ => None
               end
           end) l
  | QObj fields =>
      if bool_decide ("toString" ∈ fields.*1) then None else Some "[object Object]"
  end.

(** [parseInt(v)] where the destructuring default [d] replaced an absent
    parameter; [None] when ToString throws. *)
Definition parseIntQ (d : Z) (v : QVal) : option JsNum :=
  match v with
  | QUndefined => Some (Fin d)
  | _ => parseInt <$> qToString v
  end.

End Js.

(** ** Data model *)

(** The fields of [BaseResource] (types/index.ts). *)
Record Resource : Type := mkResource {
  res_id : string;
  res_accountId : string;
  res_region : string;
  res_resourceType : string;
  res_name : string;
  res_arn : string;
  res_tags : gmap string string;
  res_status : string;
  res_createdAt : Z;
  res_lastUpdated : Z;
}.

#[global] Instance Resource_eq_dec : EqDecision Resource.
Proof. solve_decision. Defined.

(** [CollectionError] *)
Record CollectionError : Type := mkCollectionError {
  err_service : string;
  err_region : string;
  err_error : string;
  err_timestamp : Z;
}.

#[global] Instance CollectionError_eq_dec : EqDecision CollectionError.
Proof. solve_decision. Defined.

(** The [resources] object of a [ResourceCollection]; its keys are created
    in this order, which is the order [Object.values] lists them in. *)
Record ResourceLists : Type := mkResourceLists {
  ec2 : list Resource;
  rds : list Resource;
  s3 : list Resource;
  ecs : list Resource;
  eks : list Resource;
  vpc : list Resource;
}.

(** [ResourceCollection] *)
Record ResourceCollection : Type := mkResourceCollection {
  col_accountId : string;
  col_timestamp : Z;
  col_resources : ResourceLists;
  col_errors : list CollectionError;
}.

(** [collection.resources[service]] *)
Definition resourcesOf (rs : ResourceLists) (service : string) : list Resource :=
  if decide (service = "ec2") then ec2 rs
  else if decide (service = "rds") then rds rs
  else if decide (service = "s3") then s3 rs
  else if decide (service = "ecs") then ecs rs
  else if decide (service = "eks") then eks rs
  else if decide (service = "vpc") then vpc rs
  else [].

(** [Object.values(collection.resources).flat()] *)
Definition allResources (rs : ResourceLists) : list Resource :=
  ec2 rs ++ rds rs ++ s3 rs ++ ecs rs ++ eks rs ++ vpc rs.

(** [AWSCredentials]; only the region is read by the collector itself. *)
Record AWSCredentials : Type := mkAWSCredentials {
  accessKeyId : string;
  secretAccessKey : string;
  sessionToken : option string;
  cred_region : string;
}.

(** ** The provider side *)

(** The result of awaiting a promise. *)
Inductive Outcome (A : Type) : Type :=
  | Resolved (a : A)
  | Rejected (message : string).
Arguments Resolved {A} a.
Arguments Rejected {A} message.

(** An EC2, RDS or VPC tag: both members are optional in the SDK. *)
Record Tag : Type := mkTag {
  Key : option string;
  Value : option string;
}.

#[global] Instance Tag_eq_dec : EqDecision Tag.
Proof. solve_decision. Defined.

(** An ECS tag spells its members in lower case. *)
Record EcsTag : Type := mkEcsTag {
  key : option string;
  value : option string;
}.

Record Instance : Type := mkInstance {
  InstanceId : option string;
  Tags : option (list Tag);
  StateName : option string;      (* State?.Name *)
  LaunchTime : option Z;
}.

Record Reservation : Type := mkReservation {
  Instances : option (list Instance);
}.

Record DBInstance : Type := mkDBInstance {
  DBInstanceIdentifier : option string;
  TagList : option (list Tag);
  DBInstanceArn : option string;
  DBInstanceStatus : option string;
  InstanceCreateTime : option Z;
}.

Record Bucket : Type := mkBucket {
  Name : option string;
  CreationDate : option Z;
}.

Record EcsCluster : Type := mkEcsCluster {
  clusterArn : option string;
  clusterName : option string;
  ecs_tags : option (list EcsTag);
  ecs_status : option string;
}.

(** An EKS cluster carries its tags as an object, not as a list. *)
Record EksCluster : Type := mkEksCluster {
  eks_arn : option string;
  eks_tags : option (gmap string string);
  eks_status : option string;
  eks_createdAt : option Z;
}.

Record Vpc : Type := mkVpc {
  VpcId : option string;
  vpc_Tags : option (list Tag);
  State : option string;
}.

(** What [client.send] yields for each command the collector issues with
    one set of credentials. *)
Record Provider : Type := mkProvider {
  describeInstances : Outcome (option (list Reservation));
  describeDBInstances : Outcome (option (list DBInstance));
  listBuckets : Outcome (option (list Bucket));
  getBucketLocation : string -> Outcome (option string);
  ecsListClusters : Outcome (option (list string));
  ecsDescribeClusters : list string -> Outcome (option (list EcsCluster));
  eksListClusters : Outcome (option (list string));
  eksDescribeCluster : string -> Outcome (option EksCluster);
  describeVpcs : Outcome (option (list Vpc));
}.

(** ** ResourceCollector *)

Module ResourceCollector.
Import Js.

(** The callback of the [forEach] in [extractTags]:
    [if (tag.Key && tag.Value) tagMap[tag.Key] = tag.Value]. *)
Definition tagStep (tagMap : gmap string string) (tag : Tag) : gmap string string :=
  match Key tag, Value tag with
  | Some k, Some v =>
      if (nonempty k && nonempty v)%bool then assign k v tagMap else tagMap
  | _, _ => tagMap
  end.

(** [extractTags(tags)] *)
Definition extractTags (tags : option (list Tag)) : gmap string string :=
  match tags with
  | Some ts => foldl tagStep ∅ ts
  | None => ∅
  end.

Section WithCredentials.
Variable credentials : AWSCredentials.
Variable aws : Provider.
(** The instant the collection runs at. *)
Variable now : Z.

Definition ec2Resource (accountId : string) (instance : Instance) (iid : string) : Resource :=
  let tags := extractTags (Tags instance) in
  {| res_id := iid;
     res_accountId := accountId;
     res_region := cred_region credentials;
     res_resourceType := "ec2";
     res_name := orElse (tags !! "Name") iid;
     res_arn := "arn:aws:ec2:" +:+ cred_region credentials +:+ ":" +:+ accountId
                  +:+ ":instance/" +:+ iid;
     res_tags := tags;
     res_status := orElse (StateName instance) "unknown";
     res_createdAt := default now (LaunchTime instance);
     res_lastUpdated := now |}.

(** The body of the inner [forEach]: instances without an id are skipped. *)
Definition ec2OfInstance (accountId : string) (instance : Instance) : list Resource :=
  match InstanceId instance with
  | Some iid => if nonempty iid then [ec2Resource accountId instance iid] else []
  | None => []
  end.

Definition collectEC2Resources (accountId : string) : Outcome (list Resource) :=
  match describeInstances aws with
  | Rejected e => Rejected e
  | Resolved response =>
      Resolved
        (reservation ← default [] response;
         instance ← default [] (Instances reservation);
         ec2OfInstance accountId instance)
  end.

Definition rdsResource (accountId : string) (dbInstance : DBInstance) (dbid : string) : Resource :=
  {| res_id := dbid;
     res_accountId := accountId;
     res_region := cred_region credentials;
     res_resourceType := "rds";
     res_name := dbid;
     res_arn := orElse (DBInstanceArn dbInstance) "";
     res_tags := extractTags (TagList dbInstance);
     res_status := orElse (DBInstanceStatus dbInstance) "unknown";
     res_createdAt := default now (InstanceCreateTime dbInstance);
     res_lastUpdated := now |}.

Definition rdsOfInstance (accountId : string) (dbInstance : DBInstance) : list Resource :=
  match DBInstanceIdentifier dbInstance with
  | Some dbid => if nonempty dbid then [rdsResource accountId dbInstance dbid] else []
  | None => []
  end.

Definition collectRDSResources (accountId : string) : Outcome (list Resource) :=
  match describeDBInstances aws with
  | Rejected e => Rejected e
  | Resolved response =>
      Resolved (dbInstance ← default [] response; rdsOfInstance accountId dbInstance)
  end.

Definition s3Resource (accountId : string) (bucket : Bucket) (bname region : string) : Resource :=
  {| res_id := bname;
     res_accountId := accountId;
     res_region := region;
     res_resourceType := "s3";
     res_name := bname;
     res_arn := "arn:aws:s3:::" +:+ bname;
     res_tags := ∅;
     res_status := "active";
     res_createdAt := default now (CreationDate bucket);
     res_lastUpdated := now |}.

(** One turn of the bucket loop: a bucket whose location cannot be read is
    logged and left out. *)
Definition s3OfBucket (accountId : string) (bucket : Bucket) : list Resource :=
  match Name bucket with
  | Some bname =>
      if nonempty bname then
        match getBucketLocation aws bname with
        | Resolved locationConstraint =>
            [s3Resource accountId bucket bname (orElse locationConstraint "us-east-1")]
        | Rejected _ => []
        end
      else []
  | None => []
  end.

Definition collectS3Resources (accountId : string) : Outcome (list Resource) :=
  match listBuckets aws with
  | Rejected e => Rejected e
  | Resolved response =>
      Resolved (bucket ← default [] response; s3OfBucket accountId bucket)
  end.

(** [extractTags] reads [Key] and [Value]; an ECS tag has neither. *)
Definition ecsTagRead (_ : EcsTag) : Tag := {| Key := None; Value := None |}.

Definition ecsResource (accountId : string) (cluster : EcsCluster) (cname : string) : Resource :=
  {| res_id := orElse (clusterArn cluster) cname;
     res_accountId := accountId;
     res_region := cred_region credentials;
     res_resourceType := "ecs";
     res_name := cname;
     res_arn := orElse (clusterArn cluster) "";
     res_tags := extractTags (fmap (M := list) ecsTagRead <$> ecs_tags cluster);
     res_status := orElse (ecs_status cluster) "unknown";
     res_createdAt := now;
     res_lastUpdated := now |}.

Definition ecsOfCluster (accountId : string) (cluster : EcsCluster) : list Resource :=
  match clusterName cluster with
  | Some cname => if nonempty cname then [ecsResource accountId cluster cname] else []
  | None => []
  end.

(** The whole body sits in a [try] whose [catch] logs and falls through to
    [return resources]; both calls precede every [push]. *)
Definition collectECSResources (accountId : string) : Outcome (list Resource) :=
  match ecsListClusters aws with
  | Rejected _ => Resolved []
  | Resolved None => Resolved []
  | Resolved (Some clusterArns) =>
      match ecsDescribeClusters aws clusterArns with
      | Rejected _ => Resolved []
      | Resolved clusters =>
          Resolved (cluster ← default [] clusters; ecsOfCluster accountId cluster)
      end
  end.

Definition eksResource (accountId : string) (cluster : EksCluster) (cname : string) : Resource :=
  {| res_id := orElse (eks_arn cluster) cname;
     res_accountId := accountId;
     res_region := cred_region credentials;
     res_resourceType := "eks";
     res_name := cname;
     res_arn := orElse (eks_arn cluster) "";
     res_tags := ∅;
     res_status := orElse (eks_status cluster) "unknown";
     res_createdAt := default now (eks_createdAt cluster);
     res_lastUpdated := now |}.

(** The cluster loop, inside the [try]: [resources] is what has been pushed
    so far.  A rejected describe call leaves the loop through the [catch];
    so does [extractTags] on a tags object, which has no [forEach]. *)
Fixpoint eksLoop (accountId : string) (names : list string) (resources : list Resource)
  : list Resource :=
  match names with
  | [] => resources
  | cname :: names' =>
      match eksDescribeCluster aws cname with
      | Rejected _ => resources
      | Resolved None => eksLoop accountId names' resources
      | Resolved (Some cluster) =>
          match eks_tags cluster with
          | Some _ => resources
          | None => eksLoop accountId names' (resources ++ [eksResource accountId cluster cname])
          end
      end
  end.

Definition collectEKSResources (accountId : string) : Outcome (list Resource) :=
  match eksListClusters aws with
  | Rejected _ => Resolved []
  | Resolved None => Resolved []
  | Resolved (Some names) => Resolved (eksLoop accountId names [])
  end.

Definition vpcResource (accountId : string) (v : Vpc) (vid : string) : Resource :=
  let tags := extractTags (vpc_Tags v) in
  {| res_id := vid;
     res_accountId := accountId;
     res_region := cred_region credentials;
     res_resourceType := "vpc";
     res_name := orElse (tags !! "Name") vid;
     res_arn := "arn:aws:ec2:" +:+ cred_region credentials +:+ ":" +:+ accountId
                  +:+ ":vpc/" +:+ vid;
     res_tags := tags;
     res_status := orElse (State v) "unknown";
     res_createdAt := now;
     res_lastUpdated := now |}.

Definition vpcOfVpc (accountId : string) (v : Vpc) : list Resource :=
  match VpcId v with
  | Some vid => if nonempty vid then [vpcResource accountId v vid] else []
  | None => []
  end.

Definition collectVPCResources (accountId : string) : Outcome (list Resource) :=
  match describeVpcs aws with
  | Rejected _ => Resolved []
  | Resolved response => Resolved (v ← default [] response; vpcOfVpc accountId v)
  end.

(** [promise.catch(error => { errors.push({service, ...}); return [] })]:
    the list the promise settles to, and what the handler pushed. *)
Definition caught (service : string) (o : Outcome (list Resource))
  : list Resource * list CollectionError :=
  match o with
  | Resolved rs => (rs, [])
  | Rejected message =>
      ([], [ {| err_service := service;
                err_region := cred_region credentials;
                err_error := message;
                err_timestamp := now |} ])
  end.

(** [collectAllResources(accountId)].  The six promises settle
    independently.  The code pushes the errors in the order in which the
    promises are rejected; they are listed here in the order of the
    promises, and the properties below speak of the members of the list
    only. *)
Definition collectAllResources (accountId : string) : ResourceCollection :=
  let r0 := caught "ec2" (collectEC2Resources accountId) in
  let r1 := caught "rds" (collectRDSResources accountId) in
  let r2 := caught "s3" (collectS3Resources accountId) in
  let r3 := caught "ecs" (collectECSResources accountId) in
  let r4 := caught "eks" (collectEKSResources accountId) in
  let r5 := caught "vpc" (collectVPCResources accountId) in
  {| col_accountId := accountId;
     col_timestamp := now;
     col_resources :=
       {| ec2 := r0.1; rds := r1.1; s3 := r2.1; ecs := r3.1; eks := r4.1; vpc := r5.1 |};
     col_errors := r0.2 ++ r1.2 ++ r2.2 ++ r3.2 ++ r4.2 ++ r5.2 |}.

End WithCredentials.

End ResourceCollector.

(** ** HTTP layer shared by both servers *)

(** The parameters of [req.query] that the resource handlers destructure. *)
Record Query : Type := mkQuery {
  accountIds : Js.QVal;
  regions : Js.QVal;
  resourceTypes : Js.QVal;
  statuses : Js.QVal;
  search : Js.QVal;
  limit : Js.QVal;
  offset : Js.QVal;
}.

(** What a handler answers: [res.json] with [success: true], the
    [catch] block's [res.status(s).json] with an error code, or an exception
    that leaves the handler (Express then answers 500 by itself). *)
Inductive Response (A : Type) : Type :=
  | Success (data : A)
  | Failure (status : nat) (code : string)
  | Uncaught.
Arguments Success {A} data.
Arguments Failure {A} status code.
Arguments Uncaught {A}.

(** The [data] of a resource listing. *)
Record Listing (A : Type) : Type := mkListing {
  resources : list A;
  total : nat;
  pg_limit : Js.JsNum;
  pg_offset : Js.JsNum;
  hasMore : bool;
}.
Arguments mkListing {A}.
Arguments resources {A}.
Arguments total {A}.
Arguments pg_limit {A}.
Arguments pg_offset {A}.
Arguments hasMore {A}.

(** The [data] of a summary: one count per group key. *)
Record Summary : Type := mkSummary {
  sm_total : nat;
  byType : gmap string nat;
  byStatus : gmap string nat;
  byRegion : gmap string nat;
}.


#[global] Instance AWSCredentials_eq_dec : EqDecision AWSCredentials.
Proof. solve_decision. Defined.

(** ** Request bodies of the account handlers *)

(** The members of [req.body] that the handlers read, each absent or a
    string ([isActive]: absent or a boolean). *)
Record Body : Type := mkBody {
  b_name : option string;
  b_accountId : option string;
  b_roleArn : option string;
  b_accessKeyId : option string;
  b_secretAccessKey : option string;
  b_region : option string;
  b_isActive : option bool;
}.

(** ** AuthService: the credential store *)

Module AuthService.
Import Js.

(** [(global).credentialStore]: absent until the first
    [encryptCredentials], a [Map] from then on. *)
Abbreviation CredentialStore := (option (gmap string string)).

(** The key [`aws-credentials-${accountId}`]. *)
Definition storeKey (accountId : string) : string := "aws-credentials-" +:+ accountId.

(** [encryptCredentials(accountId, credentials)], where [encrypted] is what
    [bcrypt.hash] resolved to for the serialized credentials. *)
Definition encryptCredentials (store : CredentialStore) (accountId : string)
    (encrypted : string) : CredentialStore :=
  Some (<[storeKey accountId := encrypted]> (default ∅ store)).

(** What [decryptCredentials] returns for every stored entry. *)
Definition placeholder : AWSCredentials :=
  {| accessKeyId := "encrypted";
     secretAccessKey := "encrypted";
     sessionToken := None;
     cred_region := "us-east-1" |}.

(** [decryptCredentials(accountId)] *)
Definition decryptCredentials (store : CredentialStore) (accountId : string)
  : option AWSCredentials :=
  match store with
  | None => None
  | Some m =>
      match m !! storeKey accountId with
      | Some encrypted => if nonempty encrypted then Some placeholder else None
      | None => None
      end
  end.

(** [removeCredentials(accountId)]: the store afterwards and the answer of
    [Map.delete]. *)
Definition removeCredentials (store : CredentialStore) (accountId : string)
  : CredentialStore * bool :=
  match store with
  | None => (None, false)
  | Some m => (Some (delete (storeKey accountId) m),
               bool_decide (is_Some (m !! storeKey accountId)))
  end.

End AuthService.

(** ** AccountController, over the [accounts] table *)

Module AccountController.
Import Js.

(** A row of the table, [AccountAttributes]. *)
Record AccountRow : Type := mkAccountRow {
  ar_id : string;
  ar_name : string;
  ar_accountId : string;
  ar_roleArn : option string;
  ar_accessKeyId : option string;
  ar_secretAccessKey : option string;
  ar_region : string;
  ar_isActive : bool;
  ar_lastSync : option Z;
  ar_createdAt : Z;
  ar_updatedAt : Z;
}.

#[global] Instance AccountRow_eq_dec : EqDecision AccountRow.
Proof. solve_decision. Defined.

(** The two stores the handlers work on. *)
Record State : Type := mkState {
  accounts : gmap string AccountRow;            (* one row per primary key [id] *)
  credentialStore : AuthService.CredentialStore;
}.

(** [collector.validateCredentials()]: the GetCallerIdentity call, given
    what STS answers for the credentials. *)
Definition validateCredentials (sts : AWSCredentials -> Outcome unit)
    (credentials : AWSCredentials) : bool :=
  match sts credentials with
  | Resolved _ => true
  | Rejected _ => false
  end.

(** [Account.findOne({ where: { accountId } })] finds a row or not. *)
Definition existsAccountId (table : gmap string AccountRow) (accountId : string) : bool :=
  bool_decide (Exists (fun row => ar_accountId row = accountId) (map_to_list table).*2).

(** [createAccount(req, res)]: [newId] is the UUID that the table's default
    draws for the row, [encrypted] the hash [bcrypt] resolves to, [now] the
    instant.  The table rejects a row whose primary key is taken. *)
Definition createAccount (sts : AWSCredentials -> Outcome unit) (encrypted newId : string)
    (now : Z) (body : Body) (st : State) : State * Response AccountRow :=
  if negb (truthy (b_name body) && truthy (b_accountId body)) then
    (st, Failure 400 "VALIDATION_ERROR")
  else
    let name := default "" (b_name body) in
    let accountId := default "" (b_accountId body) in
    let region := default "us-east-1" (b_region body) in
    if existsAccountId (accounts st) accountId then (st, Failure 409 "ACCOUNT_EXISTS")
    else
      let create (store : AuthService.CredentialStore) : State * Response AccountRow :=
        match accounts st !! newId with
        | Some _ =>
            ({| accounts := accounts st; credentialStore := store |},
             Failure 500 "ACCOUNT_CREATE_ERROR")
        | None =>
            let row := {| ar_id := newId; ar_name := name; ar_accountId := accountId;
                          ar_roleArn := b_roleArn body;
                          ar_accessKeyId := None; ar_secretAccessKey := None;
                          ar_region := region; ar_isActive := true; ar_lastSync := None;
                          ar_createdAt := now; ar_updatedAt := now |} in
            ({| accounts := <[newId := row]> (accounts st); credentialStore := store |},
             Success row)
        end in
      if (truthy (b_accessKeyId body) && truthy (b_secretAccessKey body))%bool then
        let credentials :=
          {| accessKeyId := default "" (b_accessKeyId body);
             secretAccessKey := default "" (b_secretAccessKey body);
             sessionToken := None;
             cred_region := region |} in
        if validateCredentials sts credentials then
          create (AuthService.encryptCredentials (credentialStore st) accountId encrypted)
        else (st, Failure 400 "INVALID_CREDENTIALS")
      else create (credentialStore st).

(** [account.update(updateData)] once the two key members are deleted from
    [updateData]: the members present replace the columns. *)
Definition updated (now : Z) (body : Body) (row : AccountRow) : AccountRow :=
  {| ar_id := ar_id row;
     ar_name := default (ar_name row) (b_name body);
     ar_accountId := default (ar_accountId row) (b_accountId body);
     ar_roleArn := match b_roleArn body with Some r => Some r | None => ar_roleArn row end;
     ar_accessKeyId := ar_accessKeyId row;
     ar_secretAccessKey := ar_secretAccessKey row;
     ar_region := default (ar_region row) (b_region body);
     ar_isActive := default (ar_isActive row) (b_isActive body);
     ar_lastSync := ar_lastSync row;
     ar_createdAt := ar_createdAt row;
     ar_updatedAt := now |}.

(** [updateAccount(req, res)] with [req.params.id].  The table rejects an
    update that gives two rows the same [accountId] (the column is unique). *)
Definition updateAccount (sts : AWSCredentials -> Outcome unit) (encrypted : string)
    (now : Z) (id : string) (body : Body) (st : State) : State * Response AccountRow :=
  match accounts st !! id with
  | None => (st, Failure 404 "ACCOUNT_NOT_FOUND")
  | Some account =>
      let update (store : AuthService.CredentialStore) : State * Response AccountRow :=
        let row := updated now body account in
        if existsAccountId (delete id (accounts st)) (ar_accountId row) then
          ({| accounts := accounts st; credentialStore := store |},
           Failure 500 "ACCOUNT_UPDATE_ERROR")
        else
          ({| accounts := <[id := row]> (accounts st); credentialStore := store |},
           Success row) in
      if (truthy (b_accessKeyId body) && truthy (b_secretAccessKey body))%bool then
        let credentials :=
          {| accessKeyId := default "" (b_accessKeyId body);
             secretAccessKey := default "" (b_secretAccessKey body);
             sessionToken := None;
             cred_region := orElse (b_region body) (ar_region account) |} in
        if validateCredentials sts credentials then
          update (AuthService.encryptCredentials (credentialStore st)
                    (ar_accountId account) encrypted)
        else (st, Failure 400 "INVALID_CREDENTIALS")
      else update (credentialStore st)
  end.

(** [deleteAccount(req, res)] with [req.params.id]; the data of the success
    response is a fixed message. *)
Definition deleteAccount (id : string) (st : State) : State * Response unit :=
  match accounts st !! id with
  | None => (st, Failure 404 "ACCOUNT_NOT_FOUND")
  | Some account =>
      ({| accounts := delete id (accounts st);
          credentialStore :=
            (AuthService.removeCredentials (credentialStore st) (ar_accountId account)).1 |},
       Success tt)
  end.

(** [testConnection(req, res)] with [req.params.id]: the data is
    [connected]. *)
Definition testConnection (sts : AWSCredentials -> Outcome unit) (id : string) (st : State)
  : Response bool :=
  match accounts st !! id with
  | None => Failure 404 "ACCOUNT_NOT_FOUND"
  | Some account =>
      match AuthService.decryptCredentials (credentialStore st) (ar_accountId account) with
      | None => Failure 400 "NO_CREDENTIALS"
      | Some credentials => Success (validateCredentials sts credentials)
      end
  end.

End AccountController.

(** ** ResourceController, over the [resources] table *)

Module ResourceController.
Import Js.

(** A row of the table: the attributes that [Resource.init] declares and
    the two time stamps that Sequelize keeps for a model. *)
Record Row : Type := mkRow {
  row_id : string;
  row_accountId : string;
  row_region : string;
  row_resourceType : string;
  row_name : string;
  row_arn : string;
  row_tags : gmap string string;
  row_status : string;
  row_metadata : Resource;
  row_createdAt : Z;
  row_updatedAt : Z;
}.

#[global] Instance Row_eq_dec : EqDecision Row.
Proof. solve_decision. Defined.

(** The table: one row per primary key [id]. *)
Abbreviation Table := (gmap string Row).

(** The [accounts] table, one row per primary key. *)
Abbreviation Accounts := (gmap string AccountController.AccountRow).

(** The row that [Resource.upsert] writes at the instant [now] for the
    values that [storeResourceCollection] hands over, [old] being the row
    with the same primary key, if there is one.  [lastUpdated] is not an
    attribute of the model and is dropped; [createdAt] is set when the row is
    inserted and kept when it is updated. *)
Definition rowOf (now : Z) (old : option Row) (resource : Resource) : Row :=
  {| row_id := res_id resource;
     row_accountId := res_accountId resource;
     row_region := res_region resource;
     row_resourceType := res_resourceType resource;
     row_name := res_name resource;
     row_arn := res_arn resource;
     row_tags := res_tags resource;
     row_status := res_status resource;
     row_metadata := resource;
     row_createdAt := match old with Some row => row_createdAt row | None => now end;
     row_updatedAt := now |}.

(** Another row of the table holds the arn. *)
Definition arnTaken (table : Table) (id arn : string) : Prop :=
  map_Exists (fun i row => i <> id /\ row_arn row = arn) table.

(** [Resource.upsert(values)]: insert, or update the row with the same
    primary key.  The database refuses the statement ([None]) when
    [accountId] is not the primary key of a row of [accounts] (the foreign
    key of the association [Resource.belongsTo(Account)]) or when another
    row holds the [arn] (the unique index on the column). *)
Definition upsert (accounts : Accounts) (now : Z) (resource : Resource) (table : Table)
  : option Table :=
  if bool_decide (is_Some (accounts !! res_accountId resource)
                  /\ ~ arnTaken table (res_id resource) (res_arn resource))
  then Some (<[res_id resource := rowOf now (table !! res_id resource) resource]> table)
  else None.

(** The loop of [storeResourceCollection] from the [k]-th resource on,
    [clock k] being the instant of the [k]-th upsert: the table afterwards,
    and whether the loop came to its end.  An upsert that is refused throws,
    and what was stored before stays. *)
Fixpoint upserts (accounts : Accounts) (clock : nat -> Z) (k : nat) (rs : list Resource)
    (table : Table) : Table * bool :=
  match rs with
  | [] => (table, true)
  | resource :: rs' =>
      match upsert accounts (clock k) resource table with
      | Some table' => upserts accounts clock (S k) rs' table'
      | None => (table, false)
      end
  end.

(** [storeResourceCollection(collection)] *)
Definition storeResourceCollection (accounts : Accounts) (clock : nat -> Z) (table : Table)
    (collection : ResourceCollection) : Table * bool :=
  upserts accounts clock 0 (allResources (col_resources collection)) table.

(** The condition of a statement: each member is present when its parameter
    is truthy. *)
Record Where : Type := mkWhere {
  w_accountId : option (list string);    (* IN (...) *)
  w_region : option (list string);
  w_resourceType : option (list string);
  w_status : option (list string);
  w_or : option string;                  (* the iLike pattern of the three alternatives *)
}.

(** [{ [Op.in]: Array.isArray(v) ? v : [v] }] under [if (v)], as Sequelize
    writes it into the statement when the values are strings.  [None]
    stands for values that are not all strings: Sequelize refuses an object
    as an invalid value, and what comes of an array among the values depends
    on the dialect of the database; no property below is stated for such a
    filter. *)
Definition opIn (v : QVal) : option (option (list string)) :=
  if qTruthy v then
    if forallb (fun member => match member with QArr _ | QObj _ => false | _ => true end)
               (asArray v)
    then Some (Some (stringsOf (asArray v)))
    else None
  else Some None.

(** The pattern [`%${search}%`] under [if (search)]; [None] when the
    template throws. *)
Definition pattern (v : QVal) : option (option string) :=
  if qTruthy v then (fun s => Some ("%" +:+ s +:+ "%")) <$> qToString v else Some None.

(** [whereClause] of [getResources]. *)
Definition whereClause (q : Query) : option Where :=
  a ← opIn (accountIds q);
  r ← opIn (regions q);
  t ← opIn (resourceTypes q);
  s ← opIn (statuses q);
  p ← pattern (search q);
  Some {| w_accountId := a; w_region := r; w_resourceType := t; w_status := s; w_or := p |}.

(** The [whereClause] of [getAccountResources]: [{ accountId }] is an
    equality, which the one-element list expresses; [regions] is not read. *)
Definition accountWhere (accountId : string) (q : Query) : option Where :=
  t ← opIn (resourceTypes q);
  s ← opIn (statuses q);
  p ← pattern (search q);
  Some {| w_accountId := Some [accountId]; w_region := None;
          w_resourceType := t; w_status := s; w_or := p |}.

(** The [whereClause] of [getResourceSummary]. *)
Definition summaryWhere (q : Query) : option Where :=
  a ← opIn (accountIds q);
  Some {| w_accountId := a;
          w_region := None; w_resourceType := None; w_status := None; w_or := None |}.

(** [text ILIKE pattern]: [%] stands for any run of characters, [_] for any
    one character, the letters A-Z match without regard to case.  Only the
    listing handlers build a pattern, and their statement is rejected before
    a row is compared with it. *)
Fixpoint iLike (pattern : string) : string -> bool :=
  match pattern with
  | EmptyString => fun text => match text with EmptyString => true | _ => false end
  | String c pattern' =>
      if Ascii.eqb c "%" then
        fix star (text : string) : bool :=
          (iLike pattern' text
           || match text with
              | EmptyString => false
              | String _ text' => star text'
              end)%bool
      else if Ascii.eqb c "_" then
        fun text => match text with
                    | EmptyString => false
                    | String _ text' => iLike pattern' text'
                    end
      else
        fun text => match text with
                    | EmptyString => false
                    | String d text' =>
                        (Ascii.eqb (lowerChar c) (lowerChar d) && iLike pattern' text')%bool
                    end
  end.

(** A member of the condition that is absent constrains nothing. *)
Definition holdsIn (cond : option (list string)) (v : string) : bool :=
  match cond with
  | Some vs => bool_decide (v ∈ vs)
  | None => true
  end.

(** The members of a condition are joined by AND. *)
Definition rowMatches (w : Where) (row : Row) : bool :=
  (holdsIn (w_accountId w) (row_accountId row)
   && holdsIn (w_region w) (row_region row)
   && holdsIn (w_resourceType w) (row_resourceType row)
   && holdsIn (w_status w) (row_status row)
   && match w_or w with
      | Some pattern =>
          iLike pattern (row_name row) || iLike pattern (row_arn row)
          || iLike pattern (row_id row)
      | None => true
      end)%bool.

(** The rows a [SELECT ... WHERE] visits, in the order the table yields them. *)
Definition selectWhere (w : Where) (table : Table) : list Row :=
  filter (fun row => rowMatches w row = true) (map_to_list table).*2.

(** The value of a column in a row, as far as an [ORDER BY] compares it. *)
Inductive Cell : Type :=
  | CText (s : string)
  | CDate (z : Z)
  | CJson.

(** The columns of the table by name. *)
Definition columnOf (name : string) : option (Row -> Cell) :=
  if decide (name = "id") then Some (fun row => CText (row_id row))
  else if decide (name = "accountId") then Some (fun row => CText (row_accountId row))
  else if decide (name = "region") then Some (fun row => CText (row_region row))
  else if decide (name = "resourceType") then Some (fun row => CText (row_resourceType row))
  else if decide (name = "name") then Some (fun row => CText (row_name row))
  else if decide (name = "arn") then Some (fun row => CText (row_arn row))
  else if decide (name = "tags") then Some (fun _ => CJson)
  else if decide (name = "status") then Some (fun row => CText (row_status row))
  else if decide (name = "metadata") then Some (fun _ => CJson)
  else if decide (name = "createdAt") then Some (fun row => CDate (row_createdAt row))
  else if decide (name = "updatedAt") then Some (fun row => CDate (row_updatedAt row))
  else None.

(** [a] may come before [b] under [ORDER BY column DESC]. *)
Definition descending (column : Row -> Cell) (a b : Row) : Prop :=
  match column a, column b with
  | CDate x, CDate y => y ≤ x
  | CText s, CText t => String.leb t s = true
  | _, _ => True
  end.

#[global] Instance descending_dec (column : Row -> Cell) : RelDecision (descending column).
Proof.
  intros a b. unfold descending. destruct (column a), (column b); apply _.
Defined.

(** [Resource.findAndCountAll({where, limit, offset, order: [[order, 'DESC']]})]:
    the count of the matching rows and the requested window of them.  The
    database rejects the statement ([None]) when it orders by a column that
    the table does not have, and takes non-negative integers only for LIMIT
    and OFFSET. *)
Definition findAndCountAll (w : Where) (lim off : JsNum) (order : string) (table : Table)
  : option (nat * list Row) :=
  match columnOf order with
  | None => None
  | Some column =>
      match lim, off with
      | Fin l, Fin o =>
          if bool_decide (0 ≤ l ∧ 0 ≤ o) then
            let rows := selectWhere w table in
            Some (length rows,
                  take (Z.to_nat l) (drop (Z.to_nat o) (merge_sort (descending column) rows)))
          else None
      | _, _ => None
      end
  end.

(** What the body of a listing handler computes under its [try]; [None]
    when something in it throws. *)
Definition listing (w : option Where) (q : Query) (table : Table) : option (Listing Row) :=
  w ← w;
  lim ← parseIntQ 100 (limit q);
  off ← parseIntQ 0 (offset q);
  '(count, rows) ← findAndCountAll w lim off "lastUpdated" table;
  Some {| resources := rows;
          total := count;
          pg_limit := lim;
          pg_offset := off;
          hasMore := gt (Z.of_nat count) (add off lim) |}.

(** [getResources(req, res)] *)
Definition getResources (q : Query) (table : Table) : Response (Listing Row) :=
  match listing (whereClause q) q table with
  | Some data => Success data
  | None => Failure 500 "RESOURCES_FETCH_ERROR"
  end.

(** [getAccountResources(req, res)] with [req.params.accountId]. *)
Definition getAccountResources (accountId : string) (q : Query) (table : Table)
  : Response (Listing Row) :=
  match listing (accountWhere accountId q) q table with
  | Some data => Success data
  | None => Failure 500 "ACCOUNT_RESOURCES_FETCH_ERROR"
  end.

(** [SELECT col, COUNT(id) ... GROUP BY col]: the number of rows per value
    of the column. *)
Definition groupCount {A : Type} (col : A -> string) (rows : list A) : gmap string nat :=
  foldr (fun row counts => <[col row := S (default 0%nat (counts !! col row))]> counts) ∅ rows.

(** [getResourceSummary(req, res)] *)
Definition getResourceSummary (q : Query) (table : Table) : Response Summary :=
  match summaryWhere q with
  | Some w =>
      let rows := selectWhere w table in
      Success {| sm_total := length rows;
                 byType := groupCount row_resourceType rows;
                 byStatus := groupCount row_status rows;
                 byRegion := groupCount row_region rows |}
  | None => Failure 500 "RESOURCE_SUMMARY_ERROR"
  end.

End ResourceController.

(** ** ResourceController, the refresh handlers *)

Module ResourceRoutes.
Import Js ResourceController.

(** The first steps of both refresh handlers for one account: the
    credentials come from [AuthService.decryptCredentials], the collector is
    built from them and run. *)
Definition collectFor (store : AuthService.CredentialStore) (aws : Provider) (now : Z)
    (accountId : string) : option ResourceCollection :=
  match AuthService.decryptCredentials store accountId with
  | Some credentials =>
      Some (ResourceCollector.collectAllResources credentials aws now accountId)
  | None => None
  end.

(** What [this] is in a static method: the class when the method is called
    as [ResourceController.method(...)], [undefined] when the function is
    called on its own. *)
Inductive This : Type :=
  | TheClass
  | Undefined.

(** The stores that the refresh handlers work on. *)
Record Stores : Type := mkStores {
  st_accounts : Accounts;
  st_credentials : AuthService.CredentialStore;
  st_resources : Table;
}.

(** [account.update({ lastSync: new Date() })] *)
Definition synced (now : Z) (id : string) (accounts : Accounts) : Accounts :=
  match accounts !! id with
  | Some account =>
      <[id := {| AccountController.ar_id := AccountController.ar_id account;
                 AccountController.ar_name := AccountController.ar_name account;
                 AccountController.ar_accountId := AccountController.ar_accountId account;
                 AccountController.ar_roleArn := AccountController.ar_roleArn account;
                 AccountController.ar_accessKeyId := AccountController.ar_accessKeyId account;
                 AccountController.ar_secretAccessKey :=
                   AccountController.ar_secretAccessKey account;
                 AccountController.ar_region := AccountController.ar_region account;
                 AccountController.ar_isActive := AccountController.ar_isActive account;
                 AccountController.ar_lastSync := Some now;
                 AccountController.ar_createdAt := AccountController.ar_createdAt account;
                 AccountController.ar_updatedAt := now |}]> accounts
  | None => accounts
  end.

(** Why an account was not refreshed: the literal 'No credentials found',
    or the message of the error that the [catch] received. *)
Inductive Reason : Type :=
  | NoCredentialsFound
  | Caught.

(** The outcome for one account: [data] of [refreshAccountResources], an
    element of [results] of [refreshAllResources]. *)
Inductive AccountResult : Type :=
  | Refreshed (accountId : string) (resourceCount : nat) (errors : list CollectionError)
  | NotRefreshed (accountId : string) (reason : Reason).

(** The steps that both handlers take once the snapshot is there, up to the
    update of [lastSync]: the stores afterwards, and whether the steps came
    to their end.  [this.storeResourceCollection] is a property access on
    [this]: on [undefined] it throws before anything is stored. *)
Definition storeAndSync (this : This) (now : Z) (id : string)
    (collection : ResourceCollection) (st : Stores) : Stores * bool :=
  match this with
  | Undefined => (st, false)
  | TheClass =>
      let stored :=
        storeResourceCollection (st_accounts st) (fun _ => now) (st_resources st) collection in
      if stored.2 then
        ({| st_accounts := synced now id (st_accounts st);
            st_credentials := st_credentials st;
            st_resources := stored.1 |},
         true)
      else
        ({| st_accounts := st_accounts st;
            st_credentials := st_credentials st;
            st_resources := stored.1 |},
         false)
  end.

(** [Account.findOne({ where: { accountId } })]: the primary key and the row
    found. *)
Definition findOne (accounts : Accounts) (accountId : string)
  : option (string * AccountController.AccountRow) :=
  snd <$> list_find (fun entry => AccountController.ar_accountId entry.2 = accountId)
                    (map_to_list accounts).

(** [refreshAccountResources(req, res)] with [req.params.accountId]. *)
Definition refreshAccountResources (this : This) (aws : Provider) (now : Z)
    (accountId : string) (st : Stores) : Stores * Response AccountResult :=
  match findOne (st_accounts st) accountId with
  | None => (st, Failure 404 "ACCOUNT_NOT_FOUND")
  | Some (id, account) =>
      match collectFor (st_credentials st) aws now (AccountController.ar_accountId account) with
      | None => (st, Failure 400 "NO_CREDENTIALS")
      | Some collection =>
          match storeAndSync this now id collection st with
          | (st', true) =>
              (st', Success (Refreshed (AccountController.ar_accountId account)
                               (length (allResources (col_resources collection)))
                               (col_errors collection)))
          | (st', false) => (st', Failure 500 "ACCOUNT_REFRESH_ERROR")
          end
      end
  end.

(** One turn of the loop of [refreshAllResources], inside its own [try]. *)
Definition refreshOne (this : This) (aws : string -> Provider) (now : Z)
    (entry : string * AccountController.AccountRow) (st : Stores)
  : Stores * AccountResult :=
  let account := entry.2 in
  let accountId := AccountController.ar_accountId account in
  match collectFor (st_credentials st) (aws accountId) now accountId with
  | None => (st, NotRefreshed accountId NoCredentialsFound)
  | Some collection =>
      match storeAndSync this now entry.1 collection st with
      | (st', true) =>
          (st', Refreshed accountId (length (allResources (col_resources collection)))
                  (col_errors collection))
      | (st', false) => (st', NotRefreshed accountId Caught)
      end
  end.

(** [refreshAllResources(req, res)]: the loop over the rows that
    [Account.findAll({ where: { isActive: true } })] returned, [aws] giving
    what the provider answers for each account id. *)
Definition refreshAllResources (this : This) (aws : string -> Provider) (now : Z) (st : Stores)
  : Stores * Response (list AccountResult) :=
  let active :=
    filter (fun entry => AccountController.ar_isActive entry.2 = true)
           (map_to_list (st_accounts st)) in
  let final :=
    foldl (fun acc entry =>
             let turn := refreshOne this aws now entry acc.1 in
             (turn.1, acc.2 ++ [turn.2]))
          (st, []) active in
  (final.1, Success final.2).

(** The handlers as the routes register them:
    [app.post('/api/resources/refresh', ResourceController.refreshAllResources)]
    hands the function over without the class, so Express calls it with
    [this] undefined. *)
Definition postRefresh := refreshAllResources Undefined.
Definition postRefreshAccount := refreshAccountResources Undefined.

End ResourceRoutes.

(** ** simple-server.js, over the in-memory [resources] array *)

Module SimpleServer.
Import Js.

(** An element of [accounts]. *)
Record Account : Type := mkAccount {
  acc_accountId : string;
  acc_region : string;
  acc_isActive : bool;
  acc_credentials : option AWSCredentials;
}.

(** The element pushed to [results] for a refreshed account. *)
Record RefreshResult : Type := mkRefreshResult {
  rr_accountId : string;
  rr_success : bool;
  rr_resourceCount : nat;
  rr_errors : list CollectionError;
}.

(** *** GET /api/resources *)

(** [Array.isArray(v) ? v : [v]] followed by [filter(r => array.includes(col(r)))],
    under [if (v)]; [includes] finds a string among the strings of the array
    only. *)
Definition filterIn (v : QVal) (col : Resource -> string) (rs : list Resource)
  : list Resource :=
  if qTruthy v then filter (fun r => col r ∈ stringsOf (asArray v)) rs else rs.

Section Search.
Context {runtime : Runtime}.

(** The callback of the search filter for a string [s]. *)
Definition searchHit (s : string) (r : Resource) : bool :=
  (includes (toLowerCase (res_name r)) (toLowerCase s)
   || includes (toLowerCase (res_id r)) (toLowerCase s)
   || includes (toLowerCase (res_arn r)) (toLowerCase s))%bool.

(** The search step.  An array or an object has no method [toLowerCase]: the
    callback throws on the first element it is called for. *)
Definition filterSearch (v : QVal) (rs : list Resource) : option (list Resource) :=
  if qTruthy v then
    match v with
    | QStr s => Some (filter (fun r => searchHit s r = true) rs)
    | _ => match rs with [] => Some [] | _ :: _ => None end
    end
  else Some rs.

(** [filteredResources] after the four filter steps; [None] when the search
    callback threw. *)
Definition filteredResources (q : Query) (rs : list Resource) : option (list Resource) :=
  filterSearch (search q)
    (filterIn (resourceTypes q) res_resourceType
       (filterIn (regions q) res_region
          (filterIn (accountIds q) res_accountId rs))).

(** The handler has no [try]: an exception of the search callback or of the
    ToString inside [parseInt] leaves it. *)
Definition getResources (q : Query) (rs : list Resource) : Response (Listing Resource) :=
  match filteredResources q rs with
  | None => Uncaught
  | Some filtered =>
      match parseIntQ 0 (offset q), parseIntQ 50 (limit q) with
      | Some off, Some lim =>
          Success {| resources := slice filtered off (add off lim);
                     total := length filtered;
                     pg_limit := lim;
                     pg_offset := off;
                     hasMore := gt (Z.of_nat (length filtered)) (add off lim) |}
      | _, _ => Uncaught
      end
  end.

End Search.

(** *** GET /api/resources/summary *)

(** What a counter object holds under a name: a number, or, where the
    count started from a function that the object inherits, the text of that
    function followed by one digit 1 for each resource counted. *)
Inductive Count : Type :=
  | Counted (n : nat)
  | FunctionText (ones : nat).

#[global] Instance Count_eq_dec : EqDecision Count.
Proof. solve_decision. Defined.

(** [counts[k] = (counts[k] || 0) + 1] on an object literal.  Under
    [__proto__] the object reads its prototype and the assignment of the
    resulting text creates no property; under another inherited name it
    reads a function first, so that the sum is a text. *)
Definition count (counts : gmap string Count) (k : string) : gmap string Count :=
  if String.eqb k "__proto__" then counts
  else
    match counts !! k with
    | Some (Counted n) => <[k := Counted (n + 1)]> counts
    | Some (FunctionText ones) => <[k := FunctionText (ones + 1)]> counts
    | None =>
        if bool_decide (k ∈ prototypeNames) then <[k := FunctionText 1]> counts
        else <[k := Counted 1]> counts
    end.

(** One of the three counters after the [forEach]. *)
Definition tally (col : Resource -> string) (rs : list Resource) : gmap string Count :=
  foldl (fun counts r => count counts (col r)) ∅ rs.

(** The [data] of simple-server's summary. *)
Record Tallies : Type := mkTallies {
  t_total : nat;
  t_byType : gmap string Count;
  t_byStatus : gmap string Count;
  t_byRegion : gmap string Count;
}.

Definition getSummary (q : Query) (rs : list Resource) : Response Tallies :=
  let filtered := filterIn (accountIds q) res_accountId rs in
  Success {| t_total := length filtered;
             t_byType := tally res_resourceType filtered;
             t_byStatus := tally res_status filtered;
             t_byRegion := tally res_region filtered |}.

(** *** POST /api/resources/refresh *)

Section Refresh.
(** The instant the refresh runs at. *)
Variable now : Z.

Definition bucketResource (account : Account) (bucket : Bucket) (bname : string) : Resource :=
  {| res_id := bname;
     res_accountId := acc_accountId account;
     res_region := acc_region account;
     res_resourceType := "s3";
     res_name := bname;
     res_arn := "arn:aws:s3:::" +:+ bname;
     res_tags := ∅;
     res_status := "active";
     res_createdAt := default now (CreationDate bucket);
     res_lastUpdated := now |}.

(** The first [try] block; its [catch] logs the error. *)
Definition collectBuckets (account : Account) (aws : Provider) : list Resource :=
  match listBuckets aws with
  | Rejected _ => []
  | Resolved response =>
      bucket ← default [] response;
      match Name bucket with
      | Some bname => if nonempty bname then [bucketResource account bucket bname] else []
      | None => []
      end
  end.

(** The loop over [instance.Tags]: [tags[tag.Key] = tag.Value] on an object
    literal. *)
Definition instanceTags (instance : Instance) : gmap string string :=
  match Tags instance with
  | Some ts =>
      foldl (fun tags tag =>
               match Key tag, Value tag with
               | Some k, Some v =>
                   if (nonempty k && nonempty v)%bool
                   then assign k v tags else tags
               | _, _ => tags
               end) ∅ ts
  | None => ∅
  end.

Definition instanceResource (account : Account) (instance : Instance) (iid : string)
  : Resource :=
  let tags := instanceTags instance in
  {| res_id := iid;
     res_accountId := acc_accountId account;
     res_region := acc_region account;
     res_resourceType := "ec2";
     res_name := orElse (tags !! "Name") iid;
     res_arn := "arn:aws:ec2:" +:+ acc_region account +:+ ":" +:+ acc_accountId account
                  +:+ ":instance/" +:+ iid;
     res_tags := tags;
     res_status := orElse (StateName instance) "unknown";
     res_createdAt := default now (LaunchTime instance);
     res_lastUpdated := now |}.

(** The second [try] block; its [catch] logs the error. *)
Definition collectInstances (account : Account) (aws : Provider) : list Resource :=
  match describeInstances aws with
  | Rejected _ => []
  | Resolved response =>
      reservation ← default [] response;
      instance ← default [] (Instances reservation);
      match InstanceId instance with
      | Some iid => if nonempty iid then [instanceResource account instance iid] else []
      | None => []
      end
  end.

(** [accountResources] at the end of the two blocks. *)
Definition accountResources (account : Account) (aws : Provider) : list Resource :=
  match acc_credentials account with
  | Some _ => (collectBuckets account aws ++ collectInstances account aws)%list
  | None => []
  end.

(** One turn of the loop over [accounts], with what the provider answers
    for that account: the new [resources] and the result pushed, if any. *)
Definition refreshAccount (rs : list Resource) (account : Account) (aws : Provider)
  : list Resource * list RefreshResult :=
  if acc_isActive account then
    let collected := accountResources account aws in
    ((filter (fun r => res_accountId r ≠ acc_accountId account) rs ++ collected)%list,
     [ {| rr_accountId := acc_accountId account;
          rr_success := true;
          rr_resourceCount := length collected;
          rr_errors := [] |} ])
  else (rs, []).

(** The whole handler: [resources] afterwards and [data.results]. *)
Definition refresh (accounts : list (Account * Provider)) (rs : list Resource)
  : list Resource * list RefreshResult :=
  foldl (fun st ap =>
           let step := refreshAccount st.1 ap.1 ap.2 in
           (step.1, (st.2 ++ step.2)%list))
        (rs, []) accounts.

End Refresh.

End SimpleServer.
(** ** simple-server.js, the account handlers *)

Module SimpleServerAccounts.
Import Js.

(** An element of [accounts] with all its members. *)
Record StoredAccount : Type := mkStoredAccount {
  sa_id : string;
  sa_name : string;
  sa_accountId : string;
  sa_region : string;
  sa_roleArn : option string;         (* [None] is [null] *)
  sa_isActive : bool;
  sa_createdAt : Z;
  sa_updatedAt : Z;
  sa_credentials : option AWSCredentials;
}.

#[global] Instance StoredAccount_eq_dec : EqDecision StoredAccount.
Proof. solve_decision. Defined.

(** The members that the refresh handler reads. *)
Definition asAccount (account : StoredAccount) : SimpleServer.Account :=
  {| SimpleServer.acc_accountId := sa_accountId account;
     SimpleServer.acc_region := sa_region account;
     SimpleServer.acc_isActive := sa_isActive account;
     SimpleServer.acc_credentials := sa_credentials account |}.

(** [{ accessKeyId, secretAccessKey, region }] under
    [if (accessKeyId && secretAccessKey)]. *)
Definition givenCredentials (body : Body) (region : string) : option AWSCredentials :=
  if (truthy (b_accessKeyId body) && truthy (b_secretAccessKey body))%bool then
    Some {| accessKeyId := default "" (b_accessKeyId body);
            secretAccessKey := default "" (b_secretAccessKey body);
            sessionToken := None;
            cred_region := region |}
  else None.

(** POST /api/accounts at the instant [now]: [Date.now().toString()] is the
    new id. *)
Definition createAccount (now : Z) (body : Body) (accounts : list StoredAccount)
  : list StoredAccount * Response StoredAccount :=
  if negb (truthy (b_name body) && truthy (b_accountId body)) then
    (accounts, Failure 400 "VALIDATION_ERROR")
  else
    let accountId := default "" (b_accountId body) in
    if bool_decide (Exists (fun acc => sa_accountId acc = accountId) accounts) then
      (accounts, Failure 409 "ACCOUNT_EXISTS")
    else
      let region := default "us-east-1" (b_region body) in
      let account :=
        {| sa_id := pretty now;
           sa_name := default "" (b_name body);
           sa_accountId := accountId;
           sa_region := region;
           sa_roleArn := if truthy (b_roleArn body) then b_roleArn body else None;
           sa_isActive := true;
           sa_createdAt := now;
           sa_updatedAt := now;
           sa_credentials := givenCredentials body region |} in
      (accounts ++ [account], Success account).

(** [accounts.findIndex(acc => acc.id === id)] with the element found. *)
Definition findById (id : string) (accounts : list StoredAccount)
  : option (nat * StoredAccount) :=
  list_find (fun acc => sa_id acc = id) accounts.

(** [updatedAccount] of PUT /api/accounts/:id. *)
Definition updatedAccount (now : Z) (body : Body) (old : StoredAccount) : StoredAccount :=
  let region := orElse (b_region body) (sa_region old) in
  {| sa_id := sa_id old;
     sa_name := orElse (b_name body) (sa_name old);
     sa_accountId := orElse (b_accountId body) (sa_accountId old);
     sa_region := region;
     sa_roleArn := match b_roleArn body with Some r => Some r | None => sa_roleArn old end;
     sa_isActive := default (sa_isActive old) (b_isActive body);
     sa_createdAt := sa_createdAt old;
     sa_updatedAt := now;
     sa_credentials :=
       match givenCredentials body region with
       | Some credentials => Some credentials
       | None => sa_credentials old
       end |}.

(** PUT /api/accounts/:id *)
Definition updateAccount (now : Z) (id : string) (body : Body) (accounts : list StoredAccount)
  : list StoredAccount * Response StoredAccount :=
  match findById id accounts with
  | None => (accounts, Failure 404 "ACCOUNT_NOT_FOUND")
  | Some (accountIndex, old) =>
      (<[accountIndex := updatedAccount now body old]> accounts,
       Success (updatedAccount now body old))
  end.

(** DELETE /api/accounts/:id, over [accounts] and [resources]. *)
Definition deleteAccount (id : string) (accounts : list StoredAccount) (rs : list Resource)
  : list StoredAccount * list Resource * Response unit :=
  match findById id accounts with
  | None => (accounts, rs, Failure 404 "ACCOUNT_NOT_FOUND")
  | Some (accountIndex, account) =>
      (delete accountIndex accounts,
       filter (fun r => res_accountId r <> sa_accountId account) rs,
       Success tt)
  end.

(** POST /api/accounts/:id/test: [sts] is what GetCallerIdentity answers to
    a client built from the account's region and keys; the data is
    [connected]. *)
Definition testConnection (sts : AWSCredentials -> Outcome unit) (id : string)
    (accounts : list StoredAccount) : Response bool :=
  match findById id accounts with
  | None => Failure 404 "ACCOUNT_NOT_FOUND"
  | Some (_, account) =>
      match sa_credentials account with
      | Some credentials =>
          match sts {| accessKeyId := accessKeyId credentials;
                       secretAccessKey := secretAccessKey credentials;
                       sessionToken := None;
                       cred_region := sa_region account |} with
          | Resolved _ => Success true
          | Rejected _ => Failure 400 "CONNECTION_FAILED"
          end
      | None => Success true
      end
  end.

(** POST /api/resources/refresh over the stored accounts, [aws] giving what
    the provider answers for each. *)
Definition refreshAll (now : Z) (aws : StoredAccount -> Provider)
    (accounts : list StoredAccount) (rs : list Resource)
  : list Resource * list SimpleServer.RefreshResult :=
  SimpleServer.refresh now ((fun account => (asAccount account, aws account)) <$> accounts) rs.

End SimpleServerAccounts.

(** ** Sample accounts and provider answers *)

Module Sample.

Definition credentials : AWSCredentials :=
  {| accessKeyId := "AKIAEXAMPLE";
     secretAccessKey := "secret";
     sessionToken := None;
     cred_region := "us-east-1" |}.

Definition accountA : string := "111111111111".
Definition accountB : string := "222222222222".

Definition instance (iid : string) : Instance :=
  {| InstanceId := Some iid; Tags := None; StateName := Some "running"; LaunchTime := Some 1000 |}.

(** A provider whose every call succeeds: EC2 lists the instances [iids],
    everything else is empty. *)
Definition withInstances (iids : list string) : Provider :=
  {| describeInstances := Resolved (Some [ {| Instances := Some (instance <$> iids) |} ]);
     describeDBInstances := Resolved (Some []);
     listBuckets := Resolved (Some []);
     getBucketLocation := fun _ => Resolved None;
     ecsListClusters := Resolved None;
     ecsDescribeClusters := fun _ => Resolved None;
     eksListClusters := Resolved None;
     eksDescribeCluster := fun _ => Resolved None;
     describeVpcs := Resolved (Some []) |}.

(** The same, except that DescribeVpcs times out. *)
Definition vpcDown : Provider :=
  {| describeInstances := Resolved (Some []);
     describeDBInstances := Resolved (Some []);
     listBuckets := Resolved (Some []);
     getBucketLocation := fun _ => Resolved None;
     ecsListClusters := Resolved None;
     ecsDescribeClusters := fun _ => Resolved None;
     eksListClusters := Resolved None;
     eksDescribeCluster := fun _ => Resolved None;
     describeVpcs := Rejected "TimeoutError" |}.

(** EKS lists two clusters; describing the second one is throttled. *)
Definition eksThrottled : Provider :=
  {| describeInstances := Resolved (Some []);
     describeDBInstances := Resolved (Some []);
     listBuckets := Resolved (Some []);
     getBucketLocation := fun _ => Resolved None;
     ecsListClusters := Resolved None;
     ecsDescribeClusters := fun _ => Resolved None;
     eksListClusters := Resolved (Some ["blue"; "green"]);
     eksDescribeCluster := fun cname =>
       if decide (cname = "blue")
       then Resolved (Some {| eks_arn := None; eks_tags := None;
                              eks_status := Some "ACTIVE"; eks_createdAt := None |})
       else Rejected "ThrottlingException";
     describeVpcs := Resolved (Some []) |}.

(** The database call times out while S3 lists one bucket, [bname]. *)
Definition rdsDownWithBucket (bname : string) : Provider :=
  {| describeInstances := Resolved (Some []);
     describeDBInstances := Rejected "TimeoutError";
     listBuckets := Resolved (Some [ {| Name := Some bname; CreationDate := Some 2000 |} ]);
     getBucketLocation := fun _ => Resolved None;
     ecsListClusters := Resolved None;
     ecsDescribeClusters := fun _ => Resolved None;
     eksListClusters := Resolved None;
     eksDescribeCluster := fun _ => Resolved None;
     describeVpcs := Resolved (Some []) |}.

(** A database instance as the collector normalizes it. *)
Definition database (accountId dbid : string) : Resource :=
  {| res_id := dbid;
     res_accountId := accountId;
     res_region := "us-east-1";
     res_resourceType := "rds";
     res_name := dbid;
     res_arn := "arn:aws:rds:us-east-1:" +:+ accountId +:+ ":db:" +:+ dbid;
     res_tags := ∅;
     res_status := "available";
     res_createdAt := 500;
     res_lastUpdated := 900 |}.

(** A resource with the given columns, for the query examples. *)
Definition resource (rid accountId region : string) (lastUpdated : Z) : Resource :=
  {| res_id := rid;
     res_accountId := accountId;
     res_region := region;
     res_resourceType := "ec2";
     res_name := rid;
     res_arn := "arn:aws:ec2:" +:+ region +:+ ":" +:+ accountId +:+ ":instance/" +:+ rid;
     res_tags := ∅;
     res_status := "running";
     res_createdAt := 0;
     res_lastUpdated := lastUpdated |}.

Definition noQuery : Query :=
  {| accountIds := Js.QUndefined; regions := Js.QUndefined;
     resourceTypes := Js.QUndefined; statuses := Js.QUndefined;
     search := Js.QUndefined; limit := Js.QUndefined; offset := Js.QUndefined |}.

(** [?limit=..&offset=..] *)
Definition window (lim off : Js.QVal) : Query :=
  {| accountIds := Js.QUndefined; regions := Js.QUndefined;
     resourceTypes := Js.QUndefined; statuses := Js.QUndefined;
     search := Js.QUndefined; limit := lim; offset := off |}.

(** Three resources of one account, the oldest first. *)
Definition three : list Resource :=
  [ resource "i-1" accountA "us-east-1" 100;
    resource "i-2" accountA "us-east-1" 200;
    resource "i-3" accountA "eu-west-1" 300 ].

(** The same three as rows of the table, stored at their own instants. *)
Definition threeRows : gmap string ResourceController.Row :=
  {[ "i-1" := ResourceController.rowOf 100 None (resource "i-1" accountA "us-east-1" 100);
     "i-2" := ResourceController.rowOf 200 None (resource "i-2" accountA "us-east-1" 200);
     "i-3" := ResourceController.rowOf 300 None (resource "i-3" accountA "eu-west-1" 300) ]}.


(** Account A as simple-server keeps it. *)
Definition simpleAccount : SimpleServer.Account :=
  {| SimpleServer.acc_accountId := accountA;
     SimpleServer.acc_region := "us-east-1";
     SimpleServer.acc_isActive := true;
     SimpleServer.acc_credentials := Some credentials |}.

(** A bucket as simple-server stores it. *)
Definition bucket (accountId bname : string) : Resource :=
  {| res_id := bname;
     res_accountId := accountId;
     res_region := "us-east-1";
     res_resourceType := "s3";
     res_name := bname;
     res_arn := "arn:aws:s3:::" +:+ bname;
     res_tags := ∅;
     res_status := "active";
     res_createdAt := 500;
     res_lastUpdated := 900 |}.

(** Fifty resources of account A in eu-west-1, then one in us-east-1. *)
Definition crowd : list Resource :=
  replicate 50 (resource "i-eu" accountA "eu-west-1" 100)
  ++ [resource "i-us" accountA "us-east-1" 200].

End Sample.

(** ** Further samples *)

Module Sample2.

(** ECS describes one cluster, tagged [env = prod]. *)
Definition taggedCluster : EcsCluster :=
  {| clusterArn := Some "arn:aws:ecs:us-east-1:111111111111:cluster/web";
     clusterName := Some "web";
     ecs_tags := Some [ {| key := Some "env"; value := Some "prod" |} ];
     ecs_status := Some "ACTIVE" |}.

Definition ecsTagged : Provider :=
  {| describeInstances := Resolved (Some []);
     describeDBInstances := Resolved (Some []);
     listBuckets := Resolved (Some []);
     getBucketLocation := fun _ => Resolved None;
     ecsListClusters := Resolved (Some ["arn:aws:ecs:us-east-1:111111111111:cluster/web"]);
     ecsDescribeClusters := fun _ => Resolved (Some [taggedCluster]);
     eksListClusters := Resolved None;
     eksDescribeCluster := fun _ => Resolved None;
     describeVpcs := Resolved (Some []) |}.

(** S3 lists two buckets; the location of [locked] cannot be read. *)
Definition twoBuckets : Provider :=
  {| describeInstances := Resolved (Some []);
     describeDBInstances := Resolved (Some []);
     listBuckets := Resolved (Some [ {| Name := Some "open"; CreationDate := None |};
                                     {| Name := Some "locked"; CreationDate := None |} ]);
     getBucketLocation := fun bname =>
       if decide (bname = "locked") then Rejected "AccessDenied"
       else Resolved (Some "eu-west-1");
     ecsListClusters := Resolved None;
     ecsDescribeClusters := fun _ => Resolved None;
     eksListClusters := Resolved None;
     eksDescribeCluster := fun _ => Resolved None;
     describeVpcs := Resolved (Some []) |}.

(** A request body naming account A, with keys. *)
Definition bodyWithKeys : Body :=
  {| b_name := Some "prod"; b_accountId := Some "111111111111"; b_roleArn := None;
     b_accessKeyId := Some "AKIA"; b_secretAccessKey := Some "secret";
     b_region := Some "eu-west-1"; b_isActive := None |}.

(** The same without keys. *)
Definition bodyWithoutKeys : Body :=
  {| b_name := Some "prod"; b_accountId := Some "111111111111"; b_roleArn := None;
     b_accessKeyId := None; b_secretAccessKey := None;
     b_region := Some "eu-west-1"; b_isActive := None |}.

(** A body that changes nothing but what is given. *)
Definition patch (accountId : option string) (isActive : option bool) : Body :=
  {| b_name := None; b_accountId := accountId; b_roleArn := None;
     b_accessKeyId := None; b_secretAccessKey := None;
     b_region := None; b_isActive := isActive |}.

(** A body that moves the account to id B and brings keys. *)
Definition renameWithKeys : Body :=
  {| b_name := None; b_accountId := Some "222222222222"; b_roleArn := None;
     b_accessKeyId := Some "AKIA"; b_secretAccessKey := Some "secret";
     b_region := None; b_isActive := None |}.

(** The controller's stores before anything was created. *)
Definition fresh : AccountController.State :=
  {| AccountController.accounts := ∅; AccountController.credentialStore := None |}.

(** STS accepting or refusing every caller. *)
Definition stsAccepts : AWSCredentials -> Outcome unit := fun _ => Resolved tt.
Definition stsRefuses : AWSCredentials -> Outcome unit :=
  fun _ => Rejected "InvalidClientTokenId".

(** What bcrypt resolved to. *)
Definition hash : string := "$2a$12$hash".

(** The controller's stores once account A was created without keys. *)
Definition withAccountA : AccountController.State :=
  (AccountController.createAccount stsAccepts hash "id-1" 7000 bodyWithoutKeys fresh).1.

(** The row of account A in that table, and the stores after the request
    [renameWithKeys] at 8000. *)
Definition rowA : AccountController.AccountRow :=
  {| AccountController.ar_id := "id-1"; AccountController.ar_name := "prod";
     AccountController.ar_accountId := "111111111111";
     AccountController.ar_roleArn := None;
     AccountController.ar_accessKeyId := None; AccountController.ar_secretAccessKey := None;
     AccountController.ar_region := "eu-west-1"; AccountController.ar_isActive := true;
     AccountController.ar_lastSync := None;
     AccountController.ar_createdAt := 7000; AccountController.ar_updatedAt := 7000 |}.

Definition renamed : AccountController.State :=
  {| AccountController.accounts :=
       <["id-1" := AccountController.updated 8000 renameWithKeys rowA]>
         (AccountController.accounts withAccountA);
     AccountController.credentialStore :=
       AuthService.encryptCredentials (AccountController.credentialStore withAccountA)
         "111111111111" hash |}.

(** Account B as simple-server keeps it once it was switched off. *)
Definition dormantB : SimpleServer.Account :=
  {| SimpleServer.acc_accountId := Sample.accountB;
     SimpleServer.acc_region := "eu-west-1";
     SimpleServer.acc_isActive := false;
     SimpleServer.acc_credentials := Some Sample.credentials |}.

(** The accounts of a refresh, each with what the provider answers for it. *)
Definition fleet : list (SimpleServer.Account * Provider) :=
  [ (Sample.simpleAccount, Sample.withInstances ["i-a"]);
    (dormantB, Sample.withInstances ["i-b"]) ].

(** What simple-server holds before that refresh. *)
Definition stock : list Resource :=
  [ Sample.bucket Sample.accountA "logs"; Sample.bucket Sample.accountB "logs" ].

(** simple-server's account for [bodyWithKeys], created at 7000. *)
Definition storedA : SimpleServerAccounts.StoredAccount :=
  {| SimpleServerAccounts.sa_id := "7000";
     SimpleServerAccounts.sa_name := "prod";
     SimpleServerAccounts.sa_accountId := "111111111111";
     SimpleServerAccounts.sa_region := "eu-west-1";
     SimpleServerAccounts.sa_roleArn := None;
     SimpleServerAccounts.sa_isActive := true;
     SimpleServerAccounts.sa_createdAt := 7000;
     SimpleServerAccounts.sa_updatedAt := 7000;
     SimpleServerAccounts.sa_credentials :=
       Some {| accessKeyId := "AKIA"; secretAccessKey := "secret";
               sessionToken := None; cred_region := "eu-west-1" |} |}.


(** DescribeInstances is throttled; S3 lists no bucket. *)
Definition ec2Down : Provider :=
  {| describeInstances := Rejected "RequestLimitExceeded";
     describeDBInstances := Resolved (Some []);
     listBuckets := Resolved (Some []);
     getBucketLocation := fun _ => Resolved None;
     ecsListClusters := Resolved None;
     ecsDescribeClusters := fun _ => Resolved None;
     eksListClusters := Resolved None;
     eksDescribeCluster := fun _ => Resolved None;
     describeVpcs := Resolved (Some []) |}.

End Sample2.

(** ** Vocabulary of the statements *)

(** [s] contains the character [c]. *)
Fixpoint hasChar (c : ascii) (s : string) : bool :=
  match s with
  | EmptyString => false
  | String d s' => (Ascii.eqb c d || hasChar c s')%bool
  end.

(** Account ids (twelve digits) and region names contain no colon. *)
Definition colonFree (s : string) : Prop := hasChar ":" s = false.

(** [x] is a compute or network resource as the collector normalizes it for
    account [a]: these are the resources whose arn it assembles itself. *)
Definition assembledFor (c : AWSCredentials) (now : Z) (a : string) (x : Resource) : Prop :=
  (exists instance, x ∈ ResourceCollector.ec2OfInstance c now a instance)
  \/ (exists v, x ∈ ResourceCollector.vpcOfVpc c now a v).


(** The number of elements of [l] whose column [col] reads [k]. *)
Definition occurrences {A : Type} (col : A -> string) (k : string) (l : list A) : nat :=
  length (filter (fun r => col r = k) l).

(** A group exists for the values that occur. *)
Definition positiveCount (n : nat) : option nat :=
  match n with
  | O => None
  | S _ => Some n
  end.

(** The filter reduced to its account constraint. *)
Definition accountsOnly (q : Query) : Query :=
  {| accountIds := accountIds q;
     regions := Js.QUndefined; resourceTypes := Js.QUndefined;
     statuses := Js.QUndefined; search := Js.QUndefined;
     limit := Js.QUndefined; offset := Js.QUndefined |}.

(** The filters of the AND law. *)
Definition byAccounts (a1 : string) : Query :=
  {| accountIds := Js.QArr [Js.QStr a1];
     regions := Js.QUndefined; resourceTypes := Js.QUndefined;
     statuses := Js.QUndefined; search := Js.QUndefined;
     limit := Js.QUndefined; offset := Js.QUndefined |}.

Definition byRegions (r1 : string) : Query :=
  {| accountIds := Js.QUndefined;
     regions := Js.QArr [Js.QStr r1]; resourceTypes := Js.QUndefined;
     statuses := Js.QUndefined; search := Js.QUndefined;
     limit := Js.QUndefined; offset := Js.QUndefined |}.

Definition byAccountsAndRegions (a1 r1 : string) : Query :=
  {| accountIds := Js.QArr [Js.QStr a1];
     regions := Js.QArr [Js.QStr r1]; resourceTypes := Js.QUndefined;
     statuses := Js.QUndefined; search := Js.QUndefined;
     limit := Js.QUndefined; offset := Js.QUndefined |}.

(** A populated set-valued field is satisfied by any one of its values. *)
Definition anyOf (v : Js.QVal) (x : string) : Prop :=
  Js.qTruthy v = true -> x ∈ Js.stringsOf (Js.asArray v).

(** ** Further vocabulary *)

(** The cluster loop stops at a cluster whose describe call is rejected or
    that carries a tags object. *)
Definition stopsEksLoop (aws : Provider) (cname : string) : Prop :=
  (exists message, eksDescribeCluster aws cname = Rejected message)
  \/ (exists cluster tags,
         eksDescribeCluster aws cname = Resolved (Some cluster)
         /\ eks_tags cluster = Some tags).

(** No row of the accounts table holds an access key or a secret. *)
Definition noSecrets (table : gmap string AccountController.AccountRow) : Prop :=
  forall i row, table !! i = Some row ->
    AccountController.ar_accessKeyId row = None
    /\ AccountController.ar_secretAccessKey row = None.

(** No two rows of the accounts table share an account id. *)
Definition uniqueAccountIds (table : gmap string AccountController.AccountRow) : Prop :=
  forall i j ri rj, table !! i = Some ri -> table !! j = Some rj ->
    AccountController.ar_accountId ri = AccountController.ar_accountId rj -> i = j.

(** The request carries both keys. *)
Definition carriesKeys (body : Body) : Prop :=
  (Js.truthy (b_accessKeyId body) && Js.truthy (b_secretAccessKey body))%bool = true.

(** The account ids that a refresh of simple-server turns to: those of the
    active accounts, in the order of the array. *)
Definition activeIds (accounts : list (SimpleServer.Account * Provider)) : list string :=
  (fun ap => SimpleServer.acc_accountId ap.1)
    <$> filter (fun ap => SimpleServer.acc_isActive ap.1 = true) accounts.

(** What the refresh collects, account after account. *)
Definition collectedBy (now : Z) (accounts : list (SimpleServer.Account * Provider))
  : list Resource :=
  ap ← filter (fun ap => SimpleServer.acc_isActive ap.1 = true) accounts;
  SimpleServer.accountResources now ap.1 ap.2.

(** The resources stored for an account id. *)
Definition storedFor (accountId : string) (rs : list Resource) : list Resource :=
  filter (fun r => res_accountId r = accountId) rs.

(** The counts of one grouping of a summary, added up. *)
Definition sumOfCounts (counts : gmap string nat) : nat :=
  map_fold (fun _ n acc => (n + acc)%nat) 0%nat counts.

(** Every stored account carries a name and an account id. *)
Definition named (accounts : list SimpleServerAccounts.StoredAccount) : Prop :=
  Forall (fun acc => SimpleServerAccounts.sa_name acc <> ""
                     /\ SimpleServerAccounts.sa_accountId acc <> "") accounts.

(** The query [q] asked for another window. *)
Definition withWindow (q : Query) (lim off : Js.QVal) : Query :=
  {| accountIds := accountIds q; regions := regions q; resourceTypes := resourceTypes q;
     statuses := statuses q; search := search q; limit := lim; offset := off |}.

(** The entries of a counter object that are numbers. *)
Definition numbers (counts : gmap string SimpleServer.Count) : gmap string nat :=
  omap (fun c => match c with
                 | SimpleServer.Counted n => Some n
                 | SimpleServer.FunctionText _ => None
                 end) counts.

(** No resource has a type, a status or a region named like a property that
    every object literal inherits. *)
Definition plainGroups (rs : list Resource) : Prop :=
  Forall (fun r => (res_resourceType r ∉ Js.prototypeNames)
                   /\ (res_status r ∉ Js.prototypeNames)
                   /\ (res_region r ∉ Js.prototypeNames)) rs.

(** What the refresh of all accounts reports for an account when the store
    cannot be reached: the account id, and whether it was the credentials
    that were missing. *)
Definition notRefreshed (credentials : AuthService.CredentialStore)
    (entry : string * AccountController.AccountRow) : ResourceRoutes.AccountResult :=
  ResourceRoutes.NotRefreshed (AccountController.ar_accountId entry.2)
    (match AuthService.decryptCredentials credentials (AccountController.ar_accountId entry.2) with
     | Some _ => ResourceRoutes.Caught
     | None => ResourceRoutes.NoCredentialsFound
     end).

(** * Properties *)

(** ** JavaScript helpers *)

Lemma nonempty_true (s : string) : Js.nonempty s = true <-> s <> "".
Proof.
  unfold Js.nonempty. rewrite negb_true_iff. split.
  - intros H ->. discriminate.
  - intros H. apply String.eqb_neq. exact H.
Qed.

Lemma nonempty_false (s : string) : Js.nonempty s = false <-> s = "".
Proof.
  unfold Js.nonempty. rewrite negb_false_iff. apply String.eqb_eq.
Qed.

(** ** Tag extraction *)

Lemma extractTags_snoc (ts : list Tag) (tag : Tag) :
  ResourceCollector.extractTags (Some (ts ++ [tag]))
  = ResourceCollector.tagStep (ResourceCollector.extractTags (Some ts)) tag.
Proof. unfold ResourceCollector.extractTags. rewrite foldl_app. reflexivity. Qed.

(** An assignment binds the name, unless the name is [__proto__]. *)
Lemma assign_lookup (name value k : string) (object : gmap string string) :
  Js.assign name value object !! k
  = if decide (name <> "__proto__" /\ name = k) then Some value else object !! k.
Proof.
  unfold Js.assign. destruct (String.eqb name "__proto__") eqn:E.
  - apply String.eqb_eq in E. rewrite decide_False by tauto. reflexivity.
  - apply String.eqb_neq in E. destruct (decide (name = k)) as [->|N].
    + rewrite decide_True by tauto. apply lookup_insert_eq.
    + rewrite decide_False by tauto. apply lookup_insert_ne. exact N.
Qed.

(** Nothing is ever bound under [__proto__]. *)
Lemma extractTags_proto (tags : option (list Tag)) :
  ResourceCollector.extractTags tags !! "__proto__" = None.
Proof.
  destruct tags as [ts|]; [|apply lookup_empty].
  induction ts as [|t ts IH] using rev_ind; [apply lookup_empty|].
  rewrite extractTags_snoc. unfold ResourceCollector.tagStep.
  destruct (Key t) as [k|]; [|exact IH].
  destruct (Value t) as [v|]; [|exact IH].
  destruct (Js.nonempty k && Js.nonempty v)%bool; [|exact IH].
  rewrite assign_lookup, decide_False; [exact IH|]. intros [N E]. contradiction.
Qed.

(** A tag that does not assign [k] leaves the binding of [k] alone. *)
Lemma tagStep_other (m : gmap string string) (tag : Tag) (k : string) :
  (Key tag = Some k -> Js.truthy (Value tag) = false) ->
  ResourceCollector.tagStep m tag !! k = m !! k.
Proof.
  intros Hk. unfold ResourceCollector.tagStep.
  destruct (Key tag) as [k'|] eqn:EK; [|reflexivity].
  destruct (Value tag) as [v'|] eqn:EV; [|reflexivity].
  destruct (Js.nonempty k' && Js.nonempty v')%bool eqn:E; [|reflexivity].
  apply andb_true_iff in E as [_ Ev].
  rewrite assign_lookup. apply decide_False. intros [_ ->].
  specialize (Hk eq_refl). simpl in Hk. congruence.
Qed.

Lemma tagStep_assigns (m : gmap string string) (tag : Tag) (k v : string) :
  Key tag = Some k -> Value tag = Some v -> k <> "" -> v <> "" -> k <> "__proto__" ->
  ResourceCollector.tagStep m tag !! k = Some v.
Proof.
  intros EK EV Hk Hv Hp. unfold ResourceCollector.tagStep. rewrite EK, EV.
  apply nonempty_true in Hk, Hv. rewrite Hk, Hv. simpl.
  rewrite assign_lookup. apply decide_True. auto.
Qed.

(** Reading a binding back after one more tag: either this tag assigned it,
    or it was there before and this tag does not assign the key. *)
Lemma tagStep_lookup (m : gmap string string) (tag : Tag) (k v : string) :
  k <> "__proto__" ->
  ResourceCollector.tagStep m tag !! k = Some v ->
  (Key tag = Some k /\ Value tag = Some v /\ k <> "" /\ v <> "")
  \/ (m !! k = Some v /\ (k <> "" -> Key tag = Some k -> Js.truthy (Value tag) = false)).
Proof.
  intros Hp. unfold ResourceCollector.tagStep.
  destruct (Key tag) as [k'|] eqn:EK; [|intros H; right; split; [exact H|discriminate]].
  destruct (Value tag) as [v'|] eqn:EV; [|intros H; right; split; [exact H|reflexivity]].
  destruct (Js.nonempty k' && Js.nonempty v')%bool eqn:E.
  - apply andb_true_iff in E as [Ek Ev]. apply nonempty_true in Ek, Ev.
    rewrite assign_lookup. destruct (decide (k' <> "__proto__" /\ k' = k)) as [[_ ->]|Hd].
    + intros [= <-]. left. auto.
    + intros H. right. split; [exact H|].
      intros _ [= ->]. tauto.
  - intros H. right. split; [exact H|].
    intros Hk [= ->]. apply nonempty_true in Hk. rewrite Hk in E. simpl in *. exact E.
Qed.

(** A binding of the result is the last assignment a tag of the list made. *)
Lemma extractTags_lookup (ts : list Tag) (k v : string) :
  k <> "__proto__" ->
  ResourceCollector.extractTags (Some ts) !! k = Some v <->
  exists before tag after,
    ts = before ++ tag :: after /\
    Key tag = Some k /\ Value tag = Some v /\ k <> "" /\ v <> "" /\
    forall tag', tag' ∈ after -> Key tag' = Some k -> Js.truthy (Value tag') = false.
Proof.
  intros Hp. induction ts as [|t ts IH] using rev_ind.
  - split.
    + simpl. rewrite lookup_empty. discriminate.
    + intros (before & tag & after & E & _). destruct before; discriminate.
  - rewrite extractTags_snoc. split.
    + intros H. apply (tagStep_lookup _ _ _ _ Hp) in H as [(EK & EV & Hk & Hv)|[Hm Ht]].
      * exists ts, t, []. repeat split; try assumption.
        intros tag' Hin. inversion Hin.
      * apply IH in Hm as (before & tag & after & -> & EK & EV & Hk & Hv & Hafter).
        exists before, tag, (after ++ [t]). rewrite <- app_assoc. repeat split; try assumption.
        intros tag' Hin Hkey. apply elem_of_app in Hin as [Hin|Hin].
        -- apply Hafter; assumption.
        -- apply list_elem_of_singleton in Hin as ->. apply Ht; assumption.
    + intros (before & tag & after & E & EK & EV & Hk & Hv & Hafter).
      destruct after as [|a after _] using rev_ind.
      * apply app_inj_tail in E as [-> ->]. apply tagStep_assigns; assumption.
      * change (before ++ tag :: after ++ [a]) with (before ++ (tag :: after) ++ [a]) in E.
        rewrite app_assoc in E. apply app_inj_tail in E as [-> ->].
        rewrite tagStep_other.
        -- apply IH. exists before, tag, after. repeat split; try assumption.
           intros tag' Hin. apply Hafter. apply elem_of_app. left. exact Hin.
        -- apply Hafter. apply elem_of_app. right. apply list_elem_of_singleton. reflexivity.
Qed.

(** C10.  The claim holds for every tag key but one.  Both extraction loops
    assign into an object literal, where an assignment under the name
    [__proto__] creates no property: a tag whose Key is [__proto__] and
    whose Value is a non-empty string is lost, for every tag list, although
    both are present and non-empty.  For any other key the result binds it to
    [v] exactly when some entry carries that key with the non-empty value [v]
    and no later entry with the same key carries a non-empty value; a missing
    or empty list gives the empty map, and simple-server's loop over
    [instance.Tags] computes the same map. *)
Theorem C10_proto_tag_is_lost :
  ResourceCollector.extractTags
    (Some [ {| Key := Some "__proto__"; Value := Some "legacy" |} ]) = ∅
  /\ (forall tags : option (list Tag),
         ResourceCollector.extractTags tags !! "__proto__" = None)
  /\ (forall (tags : option (list Tag)) (k v : string),
         k <> "__proto__" ->
         ResourceCollector.extractTags tags !! k = Some v <->
         exists ts before tag after,
           tags = Some ts /\ ts = before ++ tag :: after /\
           Key tag = Some k /\ Value tag = Some v /\ k <> "" /\ v <> "" /\
           forall tag', tag' ∈ after -> Key tag' = Some k -> Js.truthy (Value tag') = false)
  /\ ResourceCollector.extractTags None = ∅
  /\ ResourceCollector.extractTags (Some []) = ∅
  /\ (forall instance : Instance,
         SimpleServer.instanceTags instance = ResourceCollector.extractTags (Tags instance)).
Proof.
  split; [reflexivity|]. split; [exact extractTags_proto|].
  split; [|repeat split].
  intros [ts|] k v Hp.
  - rewrite (extractTags_lookup _ _ _ Hp). split.
    + intros (before & tag & after & H). exists ts, before, tag, after. tauto.
    + intros (ts' & before & tag & after & [= <-] & H). exists before, tag, after. exact H.
  - simpl. rewrite lookup_empty. split; [discriminate|].
    intros (ts' & before & tag & after & E & _). discriminate.
Qed.

(** ** The collector *)

(** What the [catch] handler of a promise leaves behind. *)
Lemma caught_resolved (c : AWSCredentials) (now : Z) (service : string) (rs : list Resource) :
  ResourceCollector.caught c now service (Resolved rs) = (rs, []).
Proof. reflexivity. Qed.

Lemma caught_rejected (c : AWSCredentials) (now : Z) (service message : string) :
  ResourceCollector.caught c now service (Rejected message)
  = ([], [ {| err_service := service; err_region := cred_region c;
              err_error := message; err_timestamp := now |} ]).
Proof. reflexivity. Qed.

(** The container and network fetchers settle to a list whatever the
    provider answers. *)
Lemma collectECSResources_resolves (c : AWSCredentials) (aws : Provider) (now : Z) (a : string) :
  exists rs, ResourceCollector.collectECSResources c aws now a = Resolved rs.
Proof.
  unfold ResourceCollector.collectECSResources.
  destruct (ecsListClusters aws) as [[arns|]|]; eauto.
  destruct (ecsDescribeClusters aws arns); eauto.
Qed.

Lemma collectEKSResources_resolves (c : AWSCredentials) (aws : Provider) (now : Z) (a : string) :
  exists rs, ResourceCollector.collectEKSResources c aws now a = Resolved rs.
Proof.
  unfold ResourceCollector.collectEKSResources.
  destruct (eksListClusters aws) as [[names|]|]; eauto.
Qed.

Lemma collectVPCResources_resolves (c : AWSCredentials) (aws : Provider) (now : Z) (a : string) :
  exists rs, ResourceCollector.collectVPCResources c aws now a = Resolved rs.
Proof.
  unfold ResourceCollector.collectVPCResources.
  destruct (describeVpcs aws); eauto.
Qed.

(** Only the compute, database and object-store fetchers ever leave a
    Collection Error. *)
Lemma col_errors_services (c : AWSCredentials) (aws : Provider) (now : Z) (a : string)
    (e : CollectionError) :
  e ∈ col_errors (ResourceCollector.collectAllResources c aws now a) ->
  err_service e ∈ ["ec2"; "rds"; "s3"].
Proof.
  unfold ResourceCollector.collectAllResources. simpl.
  destruct (collectECSResources_resolves c aws now a) as [r3 ->].
  destruct (collectEKSResources_resolves c aws now a) as [r4 ->].
  destruct (collectVPCResources_resolves c aws now a) as [r5 ->].
  rewrite !caught_resolved. simpl. rewrite !app_nil_r.
  intros H. apply elem_of_app in H as [H|H]; [|apply elem_of_app in H as [H|H]].
  - destruct (ResourceCollector.collectEC2Resources c aws now a); simpl in H.
    + inversion H.
    + apply list_elem_of_singleton in H as ->. simpl. set_solver.
  - destruct (ResourceCollector.collectRDSResources c aws now a); simpl in H.
    + inversion H.
    + apply list_elem_of_singleton in H as ->. simpl. set_solver.
  - destruct (ResourceCollector.collectS3Resources aws now a); simpl in H.
    + inversion H.
    + apply list_elem_of_singleton in H as ->. simpl. set_solver.
Qed.

(** A failed type contributes no resource to the snapshot. *)
Lemma failed_type_is_empty (c : AWSCredentials) (aws : Provider) (now : Z) (a : string)
    (e : CollectionError) :
  e ∈ col_errors (ResourceCollector.collectAllResources c aws now a) ->
  resourcesOf (col_resources (ResourceCollector.collectAllResources c aws now a))
              (err_service e) = [].
Proof.
  unfold ResourceCollector.collectAllResources. simpl.
  destruct (collectECSResources_resolves c aws now a) as [r3 ->].
  destruct (collectEKSResources_resolves c aws now a) as [r4 ->].
  destruct (collectVPCResources_resolves c aws now a) as [r5 ->].
  rewrite !caught_resolved. simpl. rewrite !app_nil_r.
  intros H. apply elem_of_app in H as [H|H]; [|apply elem_of_app in H as [H|H]].
  - destruct (ResourceCollector.collectEC2Resources c aws now a); simpl in H.
    + inversion H.
    + apply list_elem_of_singleton in H as ->. reflexivity.
  - destruct (ResourceCollector.collectRDSResources c aws now a); simpl in H.
    + inversion H.
    + apply list_elem_of_singleton in H as ->. reflexivity.
  - destruct (ResourceCollector.collectS3Resources aws now a); simpl in H.
    + inversion H.
    + apply list_elem_of_singleton in H as ->. reflexivity.
Qed.

(** A rejected DescribeInstances call is recorded once, with an empty list. *)
Lemma ec2_failure_recorded (c : AWSCredentials) (aws : Provider) (now : Z) (a message : string) :
  describeInstances aws = Rejected message ->
  let snapshot := ResourceCollector.collectAllResources c aws now a in
  ec2 (col_resources snapshot) = [] /\
  filter (fun e => err_service e = "ec2") (col_errors snapshot)
  = [ {| err_service := "ec2"; err_region := cred_region c;
         err_error := message; err_timestamp := now |} ].
Proof.
  intros H. unfold ResourceCollector.collectAllResources. simpl.
  destruct (collectECSResources_resolves c aws now a) as [r3 ->].
  destruct (collectEKSResources_resolves c aws now a) as [r4 ->].
  destruct (collectVPCResources_resolves c aws now a) as [r5 ->].
  unfold ResourceCollector.collectEC2Resources. rewrite H.
  rewrite caught_rejected, !caught_resolved. simpl. split; [reflexivity|].
  rewrite !app_nil_r.
  rewrite filter_cons_True by reflexivity. f_equal.
  rewrite filter_app.
  destruct (ResourceCollector.collectRDSResources c aws now a);
    destruct (ResourceCollector.collectS3Resources aws now a); reflexivity.
Qed.

(** C8, at the failing input: DescribeVpcs times out for an account, and the
    snapshot that [collectAllResources] returns lists no Collection Error at
    all, the network list being empty as if the account had no network.  The
    [catch] inside [collectVPCResources] has swallowed the failure before
    the handler attached in [collectAllResources] could record it. *)
Theorem C8_vpc_failure_leaves_no_error :
  describeVpcs Sample.vpcDown = Rejected "TimeoutError" /\
  col_errors (ResourceCollector.collectAllResources
                Sample.credentials Sample.vpcDown 5000 Sample.accountA) = [] /\
  vpc (col_resources (ResourceCollector.collectAllResources
                        Sample.credentials Sample.vpcDown 5000 Sample.accountA)) = [].
Proof. repeat split. Qed.

(** The container-cluster fetcher behaves alike, and keeps what it had
    pushed before the failing call. *)
Example eks_failure_keeps_partial_list :
  let snapshot := ResourceCollector.collectAllResources
                    Sample.credentials Sample.eksThrottled 5000 Sample.accountA in
  col_errors snapshot = [] /\ res_id <$> eks (col_resources snapshot) = ["blue"].
Proof. split; reflexivity. Qed.

(** ** Identifiers *)

Lemma append_cancel_l (p s t : string) : p +:+ s = p +:+ t -> s = t.
Proof.
  induction p as [|c p IH]; simpl; intros H; [exact H|].
  injection H as H. apply IH. exact H.
Qed.

Lemma hasChar_cons (c d : ascii) (s : string) :
  hasChar c (String d s) = (Ascii.eqb c d || hasChar c s)%bool.
Proof. reflexivity. Qed.

(** A string splits in one way only at its first colon. *)
Lemma split_at_colon (s1 s2 t1 t2 : string) :
  colonFree s1 -> colonFree s2 ->
  s1 +:+ String ":" t1 = s2 +:+ String ":" t2 -> s1 = s2 /\ t1 = t2.
Proof.
  unfold colonFree. revert s2.
  induction s1 as [|c s1 IH]; intros [|d s2] H1 H2 E; simpl in E.
  - injection E as ->. auto.
  - injection E as Ed _. subst d.
    rewrite hasChar_cons, Ascii.eqb_refl in H2. discriminate.
  - injection E as Ec _. subst c.
    rewrite hasChar_cons, Ascii.eqb_refl in H1. discriminate.
  - injection E as Ec E. subst d.
    rewrite hasChar_cons in H1, H2.
    apply orb_false_iff in H1 as [_ H1]. apply orb_false_iff in H2 as [_ H2].
    destruct (IH s2 H1 H2 E) as [-> ->]. auto.
Qed.

(** The arn the collector assembles starts with the region and the account. *)
Lemma assembled_arn (c : AWSCredentials) (now : Z) (a : string) (x : Resource) :
  assembledFor c now a x ->
  exists rest, res_arn x = "arn:aws:ec2:" +:+ cred_region c +:+ String ":" (a +:+ String ":" rest).
Proof.
  intros [[i H]|[v H]].
  - unfold ResourceCollector.ec2OfInstance in H.
    destruct (InstanceId i) as [iid|]; [|inversion H].
    destruct (Js.nonempty iid); [|inversion H].
    apply list_elem_of_singleton in H as ->. simpl. eexists. reflexivity.
  - unfold ResourceCollector.vpcOfVpc in H.
    destruct (VpcId v) as [vid|]; [|inversion H].
    destruct (Js.nonempty vid); [|inversion H].
    apply list_elem_of_singleton in H as ->. simpl. eexists. reflexivity.
Qed.

(** *** Where the id comes from *)

Section Ids.
Import ResourceCollector.
Variables c1 c2 : AWSCredentials.
Variable aws : Provider.
Variables t1 t2 : Z.
Variables a1 a2 : string.

(** Mapping over a list, record by record. *)
Lemma ids_bind {A : Type} (f g : A -> list Resource) (l : list A) :
  (forall x, res_id <$> f x = res_id <$> g x) ->
  res_id <$> (x ← l; f x) = res_id <$> (x ← l; g x).
Proof.
  intros H. induction l as [|x l IH]; [reflexivity|].
  rewrite !bind_cons, !fmap_app, H, IH. reflexivity.
Qed.

Lemma ec2OfInstance_ids (i : Instance) :
  res_id <$> ec2OfInstance c1 t1 a1 i = res_id <$> ec2OfInstance c2 t2 a2 i.
Proof. unfold ec2OfInstance. destruct (InstanceId i) as [iid|]; [destruct (Js.nonempty iid)|]; reflexivity. Qed.

Lemma rdsOfInstance_ids (d : DBInstance) :
  res_id <$> rdsOfInstance c1 t1 a1 d = res_id <$> rdsOfInstance c2 t2 a2 d.
Proof.
  unfold rdsOfInstance.
  destruct (DBInstanceIdentifier d) as [dbid|]; [destruct (Js.nonempty dbid)|]; reflexivity.
Qed.

Lemma s3OfBucket_ids (b : Bucket) :
  res_id <$> s3OfBucket aws t1 a1 b = res_id <$> s3OfBucket aws t2 a2 b.
Proof.
  unfold s3OfBucket. destruct (Name b) as [bname|]; [|reflexivity].
  destruct (Js.nonempty bname); [|reflexivity].
  destruct (getBucketLocation aws bname); reflexivity.
Qed.

Lemma ecsOfCluster_ids (cl : EcsCluster) :
  res_id <$> ecsOfCluster c1 t1 a1 cl = res_id <$> ecsOfCluster c2 t2 a2 cl.
Proof.
  unfold ecsOfCluster.
  destruct (clusterName cl) as [cname|]; [destruct (Js.nonempty cname)|]; reflexivity.
Qed.

Lemma vpcOfVpc_ids (v : Vpc) :
  res_id <$> vpcOfVpc c1 t1 a1 v = res_id <$> vpcOfVpc c2 t2 a2 v.
Proof. unfold vpcOfVpc. destruct (VpcId v) as [vid|]; [destruct (Js.nonempty vid)|]; reflexivity. Qed.

Lemma eksLoop_ids (names : list string) (acc1 acc2 : list Resource) :
  res_id <$> acc1 = res_id <$> acc2 ->
  res_id <$> eksLoop c1 aws t1 a1 names acc1 = res_id <$> eksLoop c2 aws t2 a2 names acc2.
Proof.
  revert acc1 acc2. induction names as [|cname names IH]; intros acc1 acc2 Hacc; [exact Hacc|].
  simpl. destruct (eksDescribeCluster aws cname) as [[cl|]|]; try auto.
  destruct (eks_tags cl); [exact Hacc|].
  apply IH. rewrite !fmap_app, Hacc. reflexivity.
Qed.

(** The ids of a snapshot are those of the provider's records, whatever the
    account they are collected for. *)
Lemma snapshot_ids (ty : string) :
  res_id <$> resourcesOf (col_resources (collectAllResources c1 aws t1 a1)) ty
  = res_id <$> resourcesOf (col_resources (collectAllResources c2 aws t2 a2)) ty.
Proof.
  unfold resourcesOf, collectAllResources. simpl.
  repeat case_decide; try reflexivity.
  - unfold collectEC2Resources. destruct (describeInstances aws); [|reflexivity]. simpl.
    apply ids_bind. intros reservation. apply ids_bind, ec2OfInstance_ids.
  - unfold collectRDSResources. destruct (describeDBInstances aws); [|reflexivity]. simpl.
    apply ids_bind, rdsOfInstance_ids.
  - unfold collectS3Resources. destruct (listBuckets aws); [|reflexivity]. simpl.
    apply ids_bind, s3OfBucket_ids.
  - unfold collectECSResources. destruct (ecsListClusters aws) as [[arns|]|]; try reflexivity.
    destruct (ecsDescribeClusters aws arns); [|reflexivity]. simpl.
    apply ids_bind, ecsOfCluster_ids.
  - unfold collectEKSResources. destruct (eksListClusters aws) as [[names|]|]; try reflexivity.
    simpl. apply eksLoop_ids. reflexivity.
  - unfold collectVPCResources. destruct (describeVpcs aws); [|reflexivity]. simpl.
    apply ids_bind, vpcOfVpc_ids.
Qed.

(** The id of a record that passes the guard is its native identifier. *)
Lemma ec2OfInstance_id (i : Instance) (x : Resource) :
  x ∈ ec2OfInstance c1 t1 a1 i -> InstanceId i = Some (res_id x).
Proof.
  unfold ec2OfInstance.
  destruct (InstanceId i) as [iid|]; [|intros H; inversion H].
  destruct (Js.nonempty iid); [|intros H; inversion H].
  intros H. apply list_elem_of_singleton in H as ->. reflexivity.
Qed.

Lemma rdsOfInstance_id (d : DBInstance) (x : Resource) :
  x ∈ rdsOfInstance c1 t1 a1 d -> DBInstanceIdentifier d = Some (res_id x).
Proof.
  unfold rdsOfInstance.
  destruct (DBInstanceIdentifier d) as [dbid|]; [|intros H; inversion H].
  destruct (Js.nonempty dbid); [|intros H; inversion H].
  intros H. apply list_elem_of_singleton in H as ->. reflexivity.
Qed.

Lemma s3OfBucket_id (b : Bucket) (x : Resource) :
  x ∈ s3OfBucket aws t1 a1 b -> Name b = Some (res_id x).
Proof.
  unfold s3OfBucket.
  destruct (Name b) as [bname|]; [|intros H; inversion H].
  destruct (Js.nonempty bname); [|intros H; inversion H].
  destruct (getBucketLocation aws bname); [|intros H; inversion H].
  intros H. apply list_elem_of_singleton in H as ->. reflexivity.
Qed.

Lemma vpcOfVpc_id (v : Vpc) (x : Resource) :
  x ∈ vpcOfVpc c1 t1 a1 v -> VpcId v = Some (res_id x).
Proof.
  unfold vpcOfVpc.
  destruct (VpcId v) as [vid|]; [|intros H; inversion H].
  destruct (Js.nonempty vid); [|intros H; inversion H].
  intros H. apply list_elem_of_singleton in H as ->. reflexivity.
Qed.

(** For a container cluster it is the arn that the provider reports, or the
    cluster's name where the provider reports none. *)
Lemma ecsOfCluster_id (cl : EcsCluster) (x : Resource) :
  x ∈ ecsOfCluster c1 t1 a1 cl ->
  exists cname, clusterName cl = Some cname /\ res_id x = Js.orElse (clusterArn cl) cname.
Proof.
  unfold ecsOfCluster.
  destruct (clusterName cl) as [cname|]; [|intros H; inversion H].
  destruct (Js.nonempty cname); [|intros H; inversion H].
  intros H. apply list_elem_of_singleton in H as ->. exists cname. auto.
Qed.

Lemma eksLoop_id (names : list string) (acc : list Resource) (P : Resource -> Prop) :
  (forall cname cl, cname ∈ names -> eksDescribeCluster aws cname = Resolved (Some cl) ->
                    P (eksResource c1 t1 a1 cl cname)) ->
  Forall P acc -> Forall P (eksLoop c1 aws t1 a1 names acc).
Proof.
  revert acc. induction names as [|cname names IH]; intros acc HP Hacc; [exact Hacc|].
  simpl. destruct (eksDescribeCluster aws cname) as [[cl|]|] eqn:E; try exact Hacc.
  - destruct (eks_tags cl); [exact Hacc|].
    apply IH.
    + intros cname' cl' Hin. apply HP. right. exact Hin.
    + apply Forall_app. split; [exact Hacc|]. repeat constructor.
      apply HP; [left|exact E].
  - apply IH; [|exact Hacc]. intros cname' cl' Hin. apply HP. right. exact Hin.
Qed.

Lemma collectEKSResources_id (rs : list Resource) (x : Resource) :
  collectEKSResources c1 aws t1 a1 = Resolved rs -> x ∈ rs ->
  exists cname cl,
    eksDescribeCluster aws cname = Resolved (Some cl)
    /\ res_id x = Js.orElse (eks_arn cl) cname.
Proof.
  unfold collectEKSResources.
  destruct (eksListClusters aws) as [[names|]|];
    try (intros [= <-] Hin; inversion Hin; fail).
  intros [= <-] Hin. revert x Hin. apply Forall_forall. apply eksLoop_id; [|constructor].
  intros cname cl _ E. exists cname, cl. auto.
Qed.

End Ids.

(** C3, as stated, fails: the same native instance id seen in two accounts
    is normalized to two resources with one and the same id. *)
Lemma C3_same_id_in_two_accounts :
  exists x1 x2,
    ResourceCollector.collectEC2Resources
      Sample.credentials (Sample.withInstances ["i-a"]) 5000 Sample.accountA = Resolved [x1] /\
    ResourceCollector.collectEC2Resources
      Sample.credentials (Sample.withInstances ["i-a"]) 5000 Sample.accountB = Resolved [x2] /\
    res_accountId x1 <> res_accountId x2 /\
    res_id x1 = res_id x2.
Proof.
  eexists _, _. split; [reflexivity|]. split; [reflexivity|].
  split; [discriminate|reflexivity].
Qed.

(** C3, amended.  The Normalizer never constructs an id: the id of a
    resource is the identifier that the provider gave the record, namely the
    instance id, the DB instance identifier, the bucket name or the VPC id,
    and for a container cluster the arn that the provider reports for it (the
    cluster's name where it reports none).  The ids of a snapshot therefore
    depend on the provider's answers only, not on the account the snapshot is
    collected for: the same answers give the same ids, type by type.  What
    the Normalizer assembles from the region, the account id and the native
    id is the arn of a compute or network resource: for two distinct
    accounts (account ids and regions being free of colons) these arns
    differ. *)
Theorem C3_id_is_the_providers_identifier (c1 c2 : AWSCredentials) (aws : Provider)
    (t1 t2 : Z) (a1 a2 : string) :
  (forall ty,
      res_id <$> resourcesOf
        (col_resources (ResourceCollector.collectAllResources c1 aws t1 a1)) ty
      = res_id <$> resourcesOf
          (col_resources (ResourceCollector.collectAllResources c2 aws t2 a2)) ty)
  /\ (forall i x, x ∈ ResourceCollector.ec2OfInstance c1 t1 a1 i ->
                  InstanceId i = Some (res_id x))
  /\ (forall d x, x ∈ ResourceCollector.rdsOfInstance c1 t1 a1 d ->
                  DBInstanceIdentifier d = Some (res_id x))
  /\ (forall b x, x ∈ ResourceCollector.s3OfBucket aws t1 a1 b -> Name b = Some (res_id x))
  /\ (forall v x, x ∈ ResourceCollector.vpcOfVpc c1 t1 a1 v -> VpcId v = Some (res_id x))
  /\ (forall cl x, x ∈ ResourceCollector.ecsOfCluster c1 t1 a1 cl ->
                   exists cname, clusterName cl = Some cname
                                 /\ res_id x = Js.orElse (clusterArn cl) cname)
  /\ (forall rs x, ResourceCollector.collectEKSResources c1 aws t1 a1 = Resolved rs ->
                   x ∈ rs ->
                   exists cname cl, eksDescribeCluster aws cname = Resolved (Some cl)
                                    /\ res_id x = Js.orElse (eks_arn cl) cname)
  /\ (colonFree a1 -> colonFree a2 ->
      colonFree (cred_region c1) -> colonFree (cred_region c2) ->
      a1 <> a2 ->
      forall x1 x2, assembledFor c1 t1 a1 x1 -> assembledFor c2 t2 a2 x2 ->
                    res_arn x1 <> res_arn x2).
Proof.
  split; [apply snapshot_ids|].
  split; [apply ec2OfInstance_id|].
  split; [apply rdsOfInstance_id|].
  split; [apply s3OfBucket_id|].
  split; [apply vpcOfVpc_id|].
  split; [apply ecsOfCluster_id|].
  split; [apply collectEKSResources_id|].
  intros Ha1 Ha2 Hr1 Hr2 Hne x1 x2 H1 H2.
  destruct (assembled_arn _ _ _ _ H1) as [rest1 E1].
  destruct (assembled_arn _ _ _ _ H2) as [rest2 E2].
  rewrite E1, E2. intros E. apply append_cancel_l in E.
  apply split_at_colon in E as [_ E]; [|assumption..].
  apply split_at_colon in E as [E _]; [|assumption..].
  contradiction.
Qed.

Lemma C3_id_is_the_providers_identifier_witness :
  res_arn (ResourceCollector.ec2Resource Sample.credentials 5000 Sample.accountA
             (Sample.instance "i-a") "i-a")
  <> res_arn (ResourceCollector.ec2Resource Sample.credentials 5000 Sample.accountB
                (Sample.instance "i-a") "i-a").
Proof.
  apply (proj2 (proj2 (proj2 (proj2 (proj2 (proj2 (proj2
           (C3_id_is_the_providers_identifier Sample.credentials Sample.credentials
              (Sample.withInstances ["i-a"]) 5000 5000 Sample.accountA Sample.accountB)))))))).
  - reflexivity.
  - reflexivity.
  - reflexivity.
  - reflexivity.
  - discriminate.
  - left. exists (Sample.instance "i-a"). simpl. apply list_elem_of_singleton. reflexivity.
  - left. exists (Sample.instance "i-a"). simpl. apply list_elem_of_singleton. reflexivity.
Defined.

(** Without the proviso the assembled arns can coincide: a colon inside an
    account id moves the boundary between the account and the native id. *)
Example arn_ambiguous_with_colon :
  "1" <> "1:instance/x"
  /\ res_arn (ResourceCollector.ec2Resource Sample.credentials 5000 "1"
                (Sample.instance "x:instance/y") "x:instance/y")
     = res_arn (ResourceCollector.ec2Resource Sample.credentials 5000 "1:instance/x"
                  (Sample.instance "y") "y").
Proof. split; [discriminate|reflexivity]. Qed.

(** ** The store *)

Section Store.
Import ResourceController.
Variable accounts : Accounts.
Variable clock : nat -> Z.

(** An upsert that the database takes binds the id of the resource and
    nothing else. *)
Lemma upsert_Some (now : Z) (resource : Resource) (table table' : Table) :
  upsert accounts now resource table = Some table' ->
  table' = <[res_id resource := rowOf now (table !! res_id resource) resource]> table.
Proof.
  unfold upsert. case_bool_decide; [|discriminate]. intros [= <-]. reflexivity.
Qed.

(** After the loop, an id that none of the resources carries is bound as it
    was, whether or not the loop came to its end. *)
Lemma upserts_absent (k : nat) (rs : list Resource) (table : Table) (i : string) :
  i ∉ res_id <$> rs -> (upserts accounts clock k rs table).1 !! i = table !! i.
Proof.
  revert k table. induction rs as [|r rs IH]; intros k table Hnot; [reflexivity|].
  simpl. destruct (upsert accounts (clock k) r table) as [table'|] eqn:E; [|reflexivity].
  apply upsert_Some in E as ->.
  rewrite IH.
  - apply lookup_insert_ne. intros <-. apply Hnot. left.
  - intros Hin. apply Hnot. right. exact Hin.
Qed.


Lemma storeResourceCollection_absent (table : Table) (collection : ResourceCollection)
    (i : string) :
  i ∉ res_id <$> allResources (col_resources collection) ->
  (storeResourceCollection accounts clock table collection).1 !! i = table !! i.
Proof. apply upserts_absent. Qed.


End Store.

(** *** simple-server's refresh *)

Lemma collectBuckets_type (now : Z) (account : SimpleServer.Account) (aws : Provider)
    (r : Resource) :
  r ∈ SimpleServer.collectBuckets now account aws -> res_resourceType r = "s3".
Proof.
  unfold SimpleServer.collectBuckets.
  destruct (listBuckets aws) as [response|]; [|intros H; inversion H].
  intros H. apply list_elem_of_bind in H as (bucket & H & _).
  destruct (Name bucket) as [bname|]; [|inversion H].
  destruct (Js.nonempty bname); [|inversion H].
  apply list_elem_of_singleton in H as ->. reflexivity.
Qed.

Lemma collectInstances_type (now : Z) (account : SimpleServer.Account) (aws : Provider)
    (r : Resource) :
  r ∈ SimpleServer.collectInstances now account aws -> res_resourceType r = "ec2".
Proof.
  unfold SimpleServer.collectInstances.
  destruct (describeInstances aws) as [response|]; [|intros H; inversion H].
  intros H. apply list_elem_of_bind in H as (reservation & H & _).
  apply list_elem_of_bind in H as (instance & H & _).
  destruct (InstanceId instance) as [iid|]; [|inversion H].
  destruct (Js.nonempty iid); [|inversion H].
  apply list_elem_of_singleton in H as ->. reflexivity.
Qed.

(** What the array holds after one account's turn. *)
Lemma refreshAccount_elem (now : Z) (rs : list Resource) (account : SimpleServer.Account)
    (aws : Provider) (r : Resource) :
  SimpleServer.acc_isActive account = true ->
  r ∈ (SimpleServer.refreshAccount now rs account aws).1 <->
  (r ∈ rs /\ res_accountId r <> SimpleServer.acc_accountId account)
  \/ r ∈ SimpleServer.accountResources now account aws.
Proof.
  intros Hact. unfold SimpleServer.refreshAccount. rewrite Hact. simpl.
  rewrite elem_of_app, list_elem_of_filter. tauto.
Qed.




(** In simple-server's refresh a resource of the refreshed account is in the
    array afterwards only if its fetch resolved in this cycle. *)
Lemma refreshAccount_fetched (now : Z) (rs : list Resource) (account : SimpleServer.Account)
    (aws : Provider) (r : Resource) :
  SimpleServer.acc_isActive account = true ->
  r ∈ (SimpleServer.refreshAccount now rs account aws).1 ->
  res_accountId r = SimpleServer.acc_accountId account ->
  (res_resourceType r = "s3" /\ exists response, listBuckets aws = Resolved response)
  \/ (res_resourceType r = "ec2" /\ exists response, describeInstances aws = Resolved response).
Proof.
  intros Hact Hin Hacc.
  apply (refreshAccount_elem _ _ _ _ _ Hact) in Hin as [[_ Hne]|Hin]; [contradiction|].
  unfold SimpleServer.accountResources in Hin.
  destruct (SimpleServer.acc_credentials account); [|inversion Hin].
  apply elem_of_app in Hin as [Hb|Hi].
  - left. split; [eapply collectBuckets_type; exact Hb|].
    unfold SimpleServer.collectBuckets in Hb.
    destruct (listBuckets aws); [eauto|inversion Hb].
  - right. split; [eapply collectInstances_type; exact Hi|].
    unfold SimpleServer.collectInstances in Hi.
    destruct (describeInstances aws); [eauto|inversion Hi].
Qed.

(** C2, as stated, fails in simple-server: instance [i-1] was stored for the
    account; in the next cycle DescribeInstances is refused; the refresh
    reports success without an error and the instance is lost. *)
Lemma C2_failed_fetch_loses_stored_resources :
  describeInstances Sample2.ec2Down = Rejected "RequestLimitExceeded"
  /\ res_accountId (Sample.resource "i-1" Sample.accountA "us-east-1" 100)
     = SimpleServer.acc_accountId Sample.simpleAccount
  /\ res_resourceType (Sample.resource "i-1" Sample.accountA "us-east-1" 100) = "ec2"
  /\ SimpleServer.refreshAccount 6000
       [Sample.resource "i-1" Sample.accountA "us-east-1" 100]
       Sample.simpleAccount Sample2.ec2Down
     = ([], [ {| SimpleServer.rr_accountId := Sample.accountA;
                 SimpleServer.rr_success := true;
                 SimpleServer.rr_resourceCount := 0;
                 SimpleServer.rr_errors := [] |} ]).
Proof.
  split; [reflexivity|]. split; [reflexivity|]. split; [reflexivity|].
  vm_compute. reflexivity.
Qed.

(** C2, amended.  When the fetch of a type failed in the cycle (a Collection
    Error is present for it), the snapshot holds no resource of that type,
    and [storeResourceCollection] leaves a previously persisted row exactly
    as it was provided no resource of the snapshot carries its id (the
    upsert is keyed by the id alone, whatever the account and the type).
    simple-server's refresh keeps nothing of an active account across a
    failed fetch: a resource of the account that is in the array afterwards
    is of a type whose fetch resolved in this cycle. *)
Theorem C2_failed_type_kept_by_store_lost_by_refresh :
  (forall (c : AWSCredentials) (aws : Provider) (t0 : Z) (a : string) (e : CollectionError),
      e ∈ col_errors (ResourceCollector.collectAllResources c aws t0 a) ->
      resourcesOf (col_resources (ResourceCollector.collectAllResources c aws t0 a))
                  (err_service e) = [])
  /\ (forall (accounts : ResourceController.Accounts) (clock : nat -> Z)
             (table : ResourceController.Table) (collection : ResourceCollection)
             (i : string),
         i ∉ res_id <$> allResources (col_resources collection) ->
         (ResourceController.storeResourceCollection accounts clock table collection).1 !! i
         = table !! i)
  /\ (forall (now : Z) (rs : list Resource) (account : SimpleServer.Account)
             (aws : Provider) (r : Resource),
         SimpleServer.acc_isActive account = true ->
         r ∈ (SimpleServer.refreshAccount now rs account aws).1 ->
         res_accountId r = SimpleServer.acc_accountId account ->
         (res_resourceType r = "s3" /\ exists response, listBuckets aws = Resolved response)
         \/ (res_resourceType r = "ec2"
             /\ exists response, describeInstances aws = Resolved response)).
Proof.
  split; [|split].
  - intros c aws t0 a e. apply failed_type_is_empty.
  - intros accounts clock table collection i. apply storeResourceCollection_absent.
  - intros now rs account aws r. apply refreshAccount_fetched.
Qed.

Lemma C2_failed_type_kept_by_store_lost_by_refresh_witness :
  resourcesOf (col_resources (ResourceCollector.collectAllResources
                 Sample.credentials (Sample.rdsDownWithBucket "assets") 6000 Sample.accountA))
              "rds" = [].
Proof.
  apply (proj1 C2_failed_type_kept_by_store_lost_by_refresh
           Sample.credentials (Sample.rdsDownWithBucket "assets") 6000 Sample.accountA
           {| err_service := "rds"; err_region := "us-east-1";
              err_error := "TimeoutError"; err_timestamp := 6000 |}).
  vm_compute. apply list_elem_of_singleton. reflexivity.
Defined.

(** ** Pagination *)




(** The size of a window with non-negative bounds. *)
Lemma slice_length {A : Type} (l : list A) (o n : Z) :
  0 <= o -> 0 <= n ->
  Z.of_nat (length (Js.slice l (Js.Fin o) (Js.Fin (o + n))))
  = Z.min (o + n) (Z.of_nat (length l)) - Z.min o (Z.of_nat (length l)).
Proof.
  intros Ho Hn. unfold Js.slice, Js.relIndex.
  rewrite !bool_decide_eq_false_2 by lia.
  rewrite length_take, length_drop. lia.
Qed.

Lemma slice_sublist {A : Type} (l : list A) (a b : Js.JsNum) :
  Js.slice l a b `sublist_of` l.
Proof.
  unfold Js.slice. etransitivity; [apply sublist_take|apply sublist_drop].
Qed.

(** With non-negative bounds, [count > offset + limit] says that the window
    stops short of the end. *)
Lemma window_stops_short (len o n returned : Z) :
  0 <= o -> 0 <= n -> 0 <= len ->
  returned = Z.min (o + n) len - Z.min o len ->
  bool_decide (o + n < len) = bool_decide (o + returned < len).
Proof.
  intros Ho Hn Hlen ->. apply bool_decide_ext. lia.
Qed.

(** *** The controller *)

(** The listing handlers order by [lastUpdated], which is not a column of
    the table: the statement is rejected whatever the query. *)
Lemma listing_rejected (w : option ResourceController.Where) (q : Query)
    (table : ResourceController.Table) :
  ResourceController.listing w q table = None.
Proof.
  unfold ResourceController.listing.
  destruct w as [w|]; [|reflexivity]. cbn [mbind option_bind].
  destruct (Js.parseIntQ 100 (limit q)) as [lim|]; [|reflexivity]. cbn [mbind option_bind].
  destruct (Js.parseIntQ 0 (offset q)) as [off|]; reflexivity.
Qed.

(** *** simple-server *)

Section SimpleServerListing.
Context {runtime : Js.Runtime}.

Lemma ss_getResources_success (q : Query) (rs : list Resource) (page : Listing Resource) :
  SimpleServer.getResources q rs = Success page ->
  exists filtered off lim,
    SimpleServer.filteredResources q rs = Some filtered /\
    Js.parseIntQ 0 (offset q) = Some off /\
    Js.parseIntQ 50 (limit q) = Some lim /\
    page = {| resources := Js.slice filtered off (Js.add off lim);
              total := length filtered;
              pg_limit := lim;
              pg_offset := off;
              hasMore := Js.gt (Z.of_nat (length filtered)) (Js.add off lim) |}.
Proof.
  unfold SimpleServer.getResources.
  destruct (SimpleServer.filteredResources q rs) as [filtered|]; [|discriminate].
  destruct (Js.parseIntQ 0 (offset q)) as [off|]; [|discriminate].
  destruct (Js.parseIntQ 50 (limit q)) as [lim|]; [|discriminate].
  intros [= <-]. exists filtered, off, lim. repeat split; reflexivity.
Qed.


Lemma filterIn_sublist (v : Js.QVal) (col : Resource -> string) (rs : list Resource) :
  SimpleServer.filterIn v col rs `sublist_of` rs.
Proof.
  unfold SimpleServer.filterIn. destruct (Js.qTruthy v); [apply sublist_filter|reflexivity].
Qed.

Lemma filteredResources_sublist (q : Query) (rs filtered : list Resource) :
  SimpleServer.filteredResources q rs = Some filtered -> filtered `sublist_of` rs.
Proof.
  unfold SimpleServer.filteredResources, SimpleServer.filterSearch. intros H.
  assert (Hpre : SimpleServer.filterIn (resourceTypes q) res_resourceType
            (SimpleServer.filterIn (regions q) res_region
               (SimpleServer.filterIn (accountIds q) res_accountId rs)) `sublist_of` rs).
  { etransitivity; [apply filterIn_sublist|].
    etransitivity; [apply filterIn_sublist|]. apply filterIn_sublist. }
  destruct (Js.qTruthy (search q)).
  - destruct (search q) as [|s|l|fields];
      try (destruct (SimpleServer.filterIn _ _ _); [|discriminate];
           injection H as <-; apply sublist_nil_l).
    injection H as <-. etransitivity; [apply sublist_filter|exact Hpre].
  - injection H as <-. exact Hpre.
Qed.

End SimpleServerListing.

(** C4, as stated, fails for a negative offset: of three resources,
    [?limit=10&offset=-1] returns the last one, so offset + returned-count
    is 0 and below the total of 3, yet hasMore is false.  It fails for a
    negative limit as well: over an empty store [?limit=-1] returns nothing
    of nothing, yet hasMore is true. *)
Lemma C4_negative_offset :
  (exists page,
      SimpleServer.getResources (runtime := Js.asciiText)
        (Sample.window (Js.QStr "10") (Js.QStr "-1")) Sample.three
      = Success page
      /\ pg_limit page = Js.Fin 10 /\ pg_offset page = Js.Fin (-1)
      /\ res_id <$> resources page = ["i-3"]
      /\ total page = 3%nat
      /\ hasMore page = false
      /\ bool_decide (-1 + Z.of_nat (length (resources page)) < Z.of_nat (total page)) = true)
  /\ (exists page,
         SimpleServer.getResources (runtime := Js.asciiText)
           (Sample.window (Js.QStr "-1") Js.QUndefined) [] = Success page
         /\ pg_limit page = Js.Fin (-1) /\ pg_offset page = Js.Fin 0
         /\ resources page = [] /\ total page = 0%nat
         /\ hasMore page = true
         /\ bool_decide (0 + Z.of_nat (length (resources page)) < Z.of_nat (total page)) = false).
Proof. split; eexists; repeat split. Qed.

Section Window.
Context {runtime : Js.Runtime}.

(** C4, amended.  For a limit and an offset that are non-negative integers,
    the hasMore flag of simple-server's listing equals
    (offset + returned-count) < total, where total is the number of resources
    the filter matches before pagination and returned-count is the size of
    the returned page. *)
Theorem C4_hasMore_within_nonnegative_window (q : Query) (l o : Z) (rs : list Resource)
    (page : Listing Resource) :
  0 <= l -> 0 <= o ->
  SimpleServer.getResources q rs = Success page ->
  pg_limit page = Js.Fin l -> pg_offset page = Js.Fin o ->
  (exists filtered,
      SimpleServer.filteredResources q rs = Some filtered /\ total page = length filtered)
  /\ hasMore page
     = bool_decide (o + Z.of_nat (length (resources page)) < Z.of_nat (total page)).
Proof.
  intros Hl Ho H El Eo.
  apply ss_getResources_success in H as (filtered & off & lim & Hf & _ & _ & ->).
  cbn [pg_limit pg_offset] in El, Eo. subst off lim.
  cbn [total hasMore resources Js.add Js.gt].
  split; [exists filtered; auto|].
  apply window_stops_short with (n := l); try lia.
  apply slice_length; assumption.
Qed.

(** C5, amended.  simple-server does not sort: the page of its listing keeps
    the resources in the order in which the store holds them. *)
Theorem C5_page_keeps_storage_order (q : Query) (rs : list Resource)
    (page : Listing Resource) :
  SimpleServer.getResources q rs = Success page ->
  resources page `sublist_of` rs.
Proof.
  intros H.
  apply ss_getResources_success in H as (filtered & off & lim & Hf & _ & _ & ->).
  cbn [resources]. etransitivity; [apply slice_sublist|].
  eapply filteredResources_sublist. exact Hf.
Qed.


End Window.

Lemma C4_hasMore_within_nonnegative_window_witness :
  hasMore {| resources := [Sample.resource "i-2" Sample.accountA "us-east-1" 200;
                           Sample.resource "i-3" Sample.accountA "eu-west-1" 300];
             total := 3; pg_limit := Js.Fin 2; pg_offset := Js.Fin 1; hasMore := false |}
  = bool_decide (1 + Z.of_nat 2 < Z.of_nat 3).
Proof.
  apply (C4_hasMore_within_nonnegative_window (runtime := Js.asciiText)
           (Sample.window (Js.QStr "2") (Js.QStr "1")) 2 1 Sample.three).
  - lia.
  - lia.
  - reflexivity.
  - reflexivity.
  - reflexivity.
Defined.

(** C5, as stated, fails: simple-server returns the stored resources in the
    order they were stored in, here the oldest first. *)
Lemma C5_page_in_storage_order :
  exists page,
    SimpleServer.getResources (runtime := Js.asciiText) Sample.noQuery Sample.three
    = Success page
    /\ res_lastUpdated <$> resources page = [100; 200; 300].
Proof. eexists. split; reflexivity. Qed.

Lemma C5_page_keeps_storage_order_witness :
  [Sample.resource "i-2" Sample.accountA "us-east-1" 200;
   Sample.resource "i-3" Sample.accountA "eu-west-1" 300] `sublist_of` Sample.three.
Proof.
  apply (C5_page_keeps_storage_order (runtime := Js.asciiText)
           (Sample.window (Js.QStr "2") (Js.QStr "1")) Sample.three
           {| resources := [Sample.resource "i-2" Sample.accountA "us-east-1" 200;
                            Sample.resource "i-3" Sample.accountA "eu-west-1" 300];
              total := 3; pg_limit := Js.Fin 2; pg_offset := Js.Fin 1; hasMore := false |}).
  reflexivity.
Defined.



(** A bound with a numeric prefix is read up to the first other character,
    and the white space before it is skipped, be it a no-break space. *)
Example limit_with_trailing_text :
  exists page,
    SimpleServer.getResources (runtime := Js.asciiText)
      (Sample.window (Js.QStr "2abc") Js.QUndefined) Sample.three
    = Success page
    /\ pg_limit page = Js.Fin 2 /\ length (resources page) = 2%nat.
Proof. eexists. repeat split. Qed.

Example limit_after_no_break_space :
  Js.parseInt (String (ascii_of_nat 194) (String (ascii_of_nat 160) "2")) = Js.Fin 2.
Proof. reflexivity. Qed.

(** A non-numeric bound together with a repeated [search] parameter: the
    search callback throws on the first resource. *)
Example non_numeric_limit_with_repeated_search :
  SimpleServer.getResources (runtime := Js.asciiText)
    {| accountIds := Js.QUndefined; regions := Js.QUndefined; resourceTypes := Js.QUndefined;
       statuses := Js.QUndefined; search := Js.QArr [Js.QStr "a"; Js.QStr "b"];
       limit := Js.QStr "abc"; offset := Js.QUndefined |} Sample.three
  = Uncaught.
Proof. reflexivity. Qed.

(** ** Filters *)

Lemma filter_ext_elem {A : Type} (P Q : A -> Prop)
    `{!forall x, Decision (P x)} `{!forall x, Decision (Q x)} (l : list A) :
  (forall x, x ∈ l -> (P x <-> Q x)) -> filter P l = filter Q l.
Proof.
  induction l as [|x l IH]; intros Hext; [reflexivity|].
  assert (Hx : P x <-> Q x) by (apply Hext; left).
  assert (Hl : filter P l = filter Q l)
    by (apply IH; intros y Hy; apply Hext; right; exact Hy).
  destruct (decide (P x)) as [p|np].
  - rewrite !filter_cons_True by tauto. f_equal. exact Hl.
  - rewrite !filter_cons_False by tauto. exact Hl.
Qed.

Lemma slice_all {A : Type} (l : list A) (n : Z) :
  Z.of_nat (length l) <= n -> Js.slice l (Js.Fin 0) (Js.add (Js.Fin 0) (Js.Fin n)) = l.
Proof.
  intros H. unfold Js.slice, Js.add, Js.relIndex.
  rewrite !bool_decide_eq_false_2 by lia.
  replace (Z.to_nat (0 `min` Z.of_nat (length l))) with 0%nat by lia.
  rewrite drop_0. apply take_ge. lia.
Qed.

(** *** simple-server *)

Lemma filterIn_elem (v : Js.QVal) (col : Resource -> string) (rs : list Resource) (r : Resource) :
  r ∈ SimpleServer.filterIn v col rs <-> r ∈ rs /\ anyOf v (col r).
Proof.
  unfold SimpleServer.filterIn, anyOf. destruct (Js.qTruthy v).
  - rewrite list_elem_of_filter. tauto.
  - split; [intros Hr; split; [exact Hr|discriminate]|tauto].
Qed.

Section SimpleServerFilters.
Context {runtime : Js.Runtime}.

Lemma filterSearch_elem (v : Js.QVal) (rs out : list Resource) (r : Resource) :
  SimpleServer.filterSearch v rs = Some out ->
  r ∈ out <->
  r ∈ rs /\ (Js.qTruthy v = true -> exists s, v = Js.QStr s /\ SimpleServer.searchHit s r = true).
Proof.
  unfold SimpleServer.filterSearch. destruct (Js.qTruthy v) eqn:Ev.
  - destruct v as [|s|l|fields]; [discriminate Ev| | |].
    + intros [= <-]. rewrite list_elem_of_filter. split.
      * intros [Hs Hr]. split; [exact Hr|]. intros _. exists s. auto.
      * intros [Hr Hs]. destruct (Hs eq_refl) as (s' & [= <-] & Hit). auto.
    + destruct rs as [|x rs]; [|discriminate]. intros [= <-]. split.
      * intros H. inversion H.
      * intros [H _]. inversion H.
    + destruct rs as [|x rs]; [|discriminate]. intros [= <-]. split.
      * intros H. inversion H.
      * intros [H _]. inversion H.
  - intros [= <-]. split; [intros Hr; split; [exact Hr|discriminate]|tauto].
Qed.

(** What simple-server's four filter steps select. *)
Lemma ss_filtered_elem (q : Query) (rs filtered : list Resource) (r : Resource) :
  SimpleServer.filteredResources q rs = Some filtered ->
  r ∈ filtered <->
  r ∈ rs
  /\ anyOf (accountIds q) (res_accountId r)
  /\ anyOf (regions q) (res_region r)
  /\ anyOf (resourceTypes q) (res_resourceType r)
  /\ (Js.qTruthy (search q) = true ->
      exists s, search q = Js.QStr s /\ SimpleServer.searchHit s r = true).
Proof.
  unfold SimpleServer.filteredResources. intros H.
  rewrite (filterSearch_elem _ _ _ r H), !filterIn_elem. tauto.
Qed.

(** The three filters of the law, before pagination. *)
Lemma ss_filtered_law (a1 r1 : string) (rs : list Resource) :
  exists fa fr fb,
    SimpleServer.filteredResources (byAccounts a1) rs = Some fa /\
    SimpleServer.filteredResources (byRegions r1) rs = Some fr /\
    SimpleServer.filteredResources (byAccountsAndRegions a1 r1) rs = Some fb /\
    fb = filter (fun r => r ∈ fr) fa.
Proof.
  eexists _, _, _. split; [reflexivity|]. split; [reflexivity|]. split; [reflexivity|].
  unfold SimpleServer.filterIn. simpl.
  apply filter_ext_elem. intros r Hr.
  apply list_elem_of_filter in Hr as [_ Hr].
  rewrite list_elem_of_filter. tauto.
Qed.

(** A listing without window parameters over at most fifty resources is the
    whole result. *)
Lemma ss_page_is_result (q : Query) (rs filtered : list Resource) :
  limit q = Js.QUndefined -> offset q = Js.QUndefined ->
  (length rs <= 50)%nat ->
  SimpleServer.filteredResources q rs = Some filtered ->
  exists page, SimpleServer.getResources q rs = Success page /\ resources page = filtered.
Proof.
  intros El Eo Hlen Hf. unfold SimpleServer.getResources. rewrite Hf, El, Eo.
  eexists. split; [reflexivity|]. simpl.
  apply slice_all. apply filteredResources_sublist, sublist_length in Hf. lia.
Qed.

End SimpleServerFilters.

(** *** The controller *)

Section ControllerFilters.
Import ResourceController.

Lemma table_rows_elem (table : Table) (row : Row) :
  row ∈ (map_to_list table).*2 <-> exists i, table !! i = Some row.
Proof.
  rewrite list_elem_of_fmap. split.
  - intros ([i row'] & -> & H). exists i. apply elem_of_map_to_list in H. exact H.
  - intros [i H]. exists (i, row). split; [reflexivity|]. apply elem_of_map_to_list. exact H.
Qed.

(** The condition of the summary is the one that the listing would build
    from the account filter alone. *)
Lemma summaryWhere_accountsOnly (q : Query) : summaryWhere q = whereClause (accountsOnly q).
Proof.
  unfold summaryWhere, whereClause, accountsOnly. cbn [accountIds regions resourceTypes statuses search].
  destruct (opIn (accountIds q)); reflexivity.
Qed.

(** What the condition of the summary selects. *)
Lemma selectWhere_summary (q : Query) (w : Where) (table : Table) (row : Row) :
  summaryWhere q = Some w ->
  row ∈ selectWhere w table <->
  (exists i, table !! i = Some row) /\ anyOf (accountIds q) (row_accountId row).
Proof.
  unfold summaryWhere, opIn, selectWhere, anyOf. intros H.
  rewrite list_elem_of_filter, table_rows_elem.
  destruct (Js.qTruthy (accountIds q)).
  - destruct (forallb _ _); [|discriminate]. injection H as <-.
    unfold rowMatches. cbn. rewrite !andb_true_r, bool_decide_eq_true. tauto.
  - injection H as <-. unfold rowMatches. cbn. split; [intros [_ ?]; split; [assumption|discriminate]|tauto].
Qed.

End ControllerFilters.

(** C6, as stated, fails once a result exceeds a page: of fifty-one
    resources of account A, only the last is in us-east-1.  It is returned
    for the account and the region together, but the listing for the account
    alone stops after fifty resources and does not contain it. *)
Lemma C6_pages_do_not_intersect :
  exists pa pr pb,
    SimpleServer.getResources (runtime := Js.asciiText)
      (byAccounts Sample.accountA) Sample.crowd = Success pa
    /\ SimpleServer.getResources (runtime := Js.asciiText)
         (byRegions "us-east-1") Sample.crowd = Success pr
    /\ SimpleServer.getResources (runtime := Js.asciiText)
         (byAccountsAndRegions Sample.accountA "us-east-1") Sample.crowd = Success pb
    /\ res_id <$> resources pb = ["i-us"]
    /\ res_id <$> resources pr = ["i-us"]
    /\ "i-us" ∉ res_id <$> resources pa.
Proof.
  eexists _, _, _. split; [reflexivity|]. split; [reflexivity|]. split; [reflexivity|].
  split; [reflexivity|]. split; [reflexivity|].
  apply (bool_decide_eq_false_1 _). vm_compute. reflexivity.
Qed.

(** simple-server does not read the [statuses] parameter. *)
Example statuses_not_read_by_simple_server :
  SimpleServer.getResources (runtime := Js.asciiText)
    {| accountIds := Js.QUndefined; regions := Js.QUndefined; resourceTypes := Js.QUndefined;
       statuses := Js.QArr [Js.QStr "stopped"]; search := Js.QUndefined;
       limit := Js.QUndefined; offset := Js.QUndefined |} Sample.three
  = SimpleServer.getResources (runtime := Js.asciiText) Sample.noQuery Sample.three.
Proof. reflexivity. Qed.

Section FilterLaw.
Context {runtime : Js.Runtime}.

(** C6, amended.  simple-server reads the filter fields accountIds, regions,
    resourceTypes and search, not statuses.  The populated fields it reads
    are combined with AND across fields, and within a set-valued field any
    one listed value suffices; search asks that the name, the id or the arn
    contain the search text, all in lower case.  Hence the resources that
    [{accountIds:[a1], regions:[r1]}] matches are exactly those matched by
    both [{accountIds:[a1]}] and [{regions:[r1]}], in the order of the
    store; the returned pages obey this law whenever the store holds no more
    resources than the default page of 50. *)
Theorem C6_filter_fields_are_conjoined (a1 r1 : string) :
  (forall (q : Query) (rs filtered : list Resource) (r : Resource),
      SimpleServer.filteredResources q rs = Some filtered ->
      r ∈ filtered <->
      r ∈ rs
      /\ anyOf (accountIds q) (res_accountId r)
      /\ anyOf (regions q) (res_region r)
      /\ anyOf (resourceTypes q) (res_resourceType r)
      /\ (Js.qTruthy (search q) = true ->
          exists s, search q = Js.QStr s
                    /\ (Js.includes (Js.toLowerCase (res_name r)) (Js.toLowerCase s)
                        || Js.includes (Js.toLowerCase (res_id r)) (Js.toLowerCase s)
                        || Js.includes (Js.toLowerCase (res_arn r)) (Js.toLowerCase s))%bool
                       = true))
  /\ (forall rs : list Resource,
         exists fa fr fb,
           SimpleServer.filteredResources (byAccounts a1) rs = Some fa /\
           SimpleServer.filteredResources (byRegions r1) rs = Some fr /\
           SimpleServer.filteredResources (byAccountsAndRegions a1 r1) rs = Some fb /\
           fb = filter (fun r => r ∈ fr) fa)
  /\ (forall rs : list Resource,
         (length rs <= 50)%nat ->
         exists pa pr pb,
           SimpleServer.getResources (byAccounts a1) rs = Success pa /\
           SimpleServer.getResources (byRegions r1) rs = Success pr /\
           SimpleServer.getResources (byAccountsAndRegions a1 r1) rs = Success pb /\
           resources pb = filter (fun r => r ∈ resources pr) (resources pa)).
Proof.
  split; [intros q rs filtered r; apply ss_filtered_elem|].
  split; [intros rs; apply ss_filtered_law|].
  intros rs Hlen.
  destruct (ss_filtered_law a1 r1 rs) as (fa & fr & fb & Ha & Hr & Hb & Hlaw).
  destruct (ss_page_is_result (byAccounts a1) rs fa eq_refl eq_refl Hlen Ha) as (pa & Hpa & Ea).
  destruct (ss_page_is_result (byRegions r1) rs fr eq_refl eq_refl Hlen Hr) as (pr & Hpr & Er).
  destruct (ss_page_is_result (byAccountsAndRegions a1 r1) rs fb eq_refl eq_refl Hlen Hb)
    as (pb & Hpb & Eb).
  exists pa, pr, pb. rewrite Ea, Er, Eb. auto.
Qed.

End FilterLaw.

Lemma C6_filter_fields_are_conjoined_witness :
  exists pa pr pb,
    SimpleServer.getResources (runtime := Js.asciiText)
      (byAccounts Sample.accountA) Sample.three = Success pa /\
    SimpleServer.getResources (runtime := Js.asciiText)
      (byRegions "us-east-1") Sample.three = Success pr /\
    SimpleServer.getResources (runtime := Js.asciiText)
      (byAccountsAndRegions Sample.accountA "us-east-1") Sample.three = Success pb /\
    resources pb = filter (fun r => r ∈ resources pr) (resources pa).
Proof.
  apply (C6_filter_fields_are_conjoined (runtime := Js.asciiText) Sample.accountA "us-east-1").
  vm_compute. lia.
Defined.

(** ** Summary *)

Lemma occurrences_cons {A : Type} (col : A -> string) (k : string) (x : A) (l : list A) :
  occurrences col k (x :: l)
  = if decide (col x = k) then S (occurrences col k l) else occurrences col k l.
Proof.
  unfold occurrences. destruct (decide (col x = k)) as [E|N].
  - rewrite filter_cons_True by exact E. reflexivity.
  - rewrite filter_cons_False by exact N. reflexivity.
Qed.

Lemma occurrences_zero {A : Type} (col : A -> string) (k : string) (l : list A) :
  occurrences col k l = 0%nat <-> forall x, x ∈ l -> col x <> k.
Proof.
  induction l as [|y l IH].
  - split; [intros _ x Hx; inversion Hx|reflexivity].
  - rewrite occurrences_cons. destruct (decide (col y = k)) as [E|N].
    + split; [discriminate|]. intros H. exfalso. apply (H y); [left|exact E].
    + rewrite IH. split.
      * intros H x Hx. apply elem_of_cons in Hx as [->|Hx]; [exact N|apply H; exact Hx].
      * intros H x Hx. apply H. right. exact Hx.
Qed.

Lemma default_positiveCount (n : nat) : default 0%nat (positiveCount n) = n.
Proof. destruct n; reflexivity. Qed.

(** Counting under one name leaves the other names alone. *)
Lemma count_other (counts : gmap string SimpleServer.Count) (k k' : string) :
  k' <> k -> SimpleServer.count counts k' !! k = counts !! k.
Proof.
  intros N. unfold SimpleServer.count.
  destruct (String.eqb k' "__proto__"); [reflexivity|].
  destruct (counts !! k') as [[n|ones]|]; [| |case_bool_decide];
    apply lookup_insert_ne; exact N.
Qed.

(** Under a name that an object literal does not inherit the counter holds
    a number, one more each time. *)
Lemma count_own (counts : gmap string SimpleServer.Count) (k : string) (n : nat) :
  k ∉ Js.prototypeNames ->
  counts !! k = SimpleServer.Counted <$> positiveCount n ->
  SimpleServer.count counts k !! k = Some (SimpleServer.Counted (n + 1)).
Proof.
  intros Hk Hn. unfold SimpleServer.count.
  destruct (String.eqb k "__proto__") eqn:E.
  - apply String.eqb_eq in E. subst k. exfalso. apply Hk.
    apply (bool_decide_eq_true_1 _). vm_compute. reflexivity.
  - rewrite Hn. destruct n as [|n]; cbn [positiveCount fmap option_fmap option_map].
    + rewrite bool_decide_eq_false_2 by exact Hk. apply lookup_insert_eq.
    + apply lookup_insert_eq.
Qed.

(** Counting from the counts [m] on. *)
Lemma tally_from (col : Resource -> string) (rs : list Resource)
    (m : gmap string SimpleServer.Count) (k : string) (n : nat) :
  k ∉ Js.prototypeNames ->
  m !! k = SimpleServer.Counted <$> positiveCount n ->
  foldl (fun counts r => SimpleServer.count counts (col r)) m rs !! k
  = SimpleServer.Counted <$> positiveCount (n + occurrences col k rs).
Proof.
  intros Hk. revert m n. induction rs as [|r rs IH]; intros m n Hm.
  - simpl. rewrite Hm. f_equal. f_equal. unfold occurrences. simpl. lia.
  - simpl. rewrite occurrences_cons. destruct (decide (col r = k)) as [E|N].
    + rewrite (IH _ (n + 1)%nat).
      * f_equal. f_equal. lia.
      * rewrite E, (count_own _ _ _ Hk Hm).
        replace (n + 1)%nat with (S n) by lia. reflexivity.
    + apply IH. rewrite count_other by exact N. exact Hm.
Qed.

Lemma tally_lookup (col : Resource -> string) (rs : list Resource) (k : string) :
  k ∉ Js.prototypeNames ->
  SimpleServer.tally col rs !! k = SimpleServer.Counted <$> positiveCount (occurrences col k rs).
Proof.
  intros Hk. unfold SimpleServer.tally.
  apply (tally_from col rs ∅ k 0 Hk). apply lookup_empty.
Qed.

(** A counter has no entry under a name that no resource carries. *)
Lemma tally_absent (col : Resource -> string) (rs : list Resource) (k : string) :
  occurrences col k rs = 0%nat -> SimpleServer.tally col rs !! k = None.
Proof.
  unfold SimpleServer.tally. generalize (∅ : gmap string SimpleServer.Count) (lookup_empty (M := gmap string) (A := SimpleServer.Count) k).
  induction rs as [|r rs IH]; intros m Hm H; [exact Hm|].
  rewrite occurrences_cons in H. destruct (decide (col r = k)) as [E|N]; [discriminate|].
  simpl. apply IH; [|exact H]. rewrite count_other by exact N. exact Hm.
Qed.

Lemma groupCount_lookup {A : Type} (col : A -> string) (rows : list A) (k : string) :
  ResourceController.groupCount col rows !! k = positiveCount (occurrences col k rows).
Proof.
  induction rows as [|row rows IH]; [reflexivity|].
  simpl. rewrite occurrences_cons.
  destruct (decide (col row = k)) as [E|N].
  - rewrite E, lookup_insert_eq, IH, default_positiveCount. reflexivity.
  - rewrite lookup_insert_ne by exact N. exact IH.
Qed.

(** C7, as stated, fails: with [regions] populated simple-server's listing
    is narrowed to the region while its summary still counts every
    resource. *)
Lemma C7_summary_ignores_region_filter :
  exists page sm,
    SimpleServer.getResources (runtime := Js.asciiText)
      (byRegions "us-east-1") Sample.three = Success page
    /\ SimpleServer.getSummary (byRegions "us-east-1") Sample.three = Success sm
    /\ total page = 2%nat
    /\ SimpleServer.t_total sm = 3%nat
    /\ SimpleServer.t_byRegion sm !! "eu-west-1" = Some (SimpleServer.Counted 1).
Proof.
  eexists _, _.
  split; [reflexivity|]. split; [reflexivity|]. split; [reflexivity|].
  split; [reflexivity|]. vm_compute. reflexivity.
Qed.

Section SummarySelection.
Context {runtime : Js.Runtime}.

(** C7, amended.  The summary selects the resources that the Query Engine's
    filter semantics select for the filter reduced to its accountIds field:
    regions, resourceTypes, statuses and search are not read.  Over that
    subset it reports the total and one count per distinct literal
    resource-type, status and region string occurring in it; for
    simple-server this is stated of the strings that do not name a property
    which every object literal inherits. *)
Theorem C7_summary_selects_by_account_only (q : Query) :
  (forall rs : list Resource,
      exists subset sm,
        SimpleServer.filteredResources (accountsOnly q) rs = Some subset
        /\ SimpleServer.getSummary q rs = Success sm
        /\ SimpleServer.t_total sm = length subset
        /\ forall k,
             k ∉ Js.prototypeNames ->
             SimpleServer.t_byType sm !! k
             = SimpleServer.Counted <$> positiveCount (occurrences res_resourceType k subset)
             /\ SimpleServer.t_byStatus sm !! k
                = SimpleServer.Counted <$> positiveCount (occurrences res_status k subset)
             /\ SimpleServer.t_byRegion sm !! k
                = SimpleServer.Counted <$> positiveCount (occurrences res_region k subset))
  /\ (forall (table : ResourceController.Table) (w : ResourceController.Where),
         ResourceController.whereClause (accountsOnly q) = Some w ->
         (forall row,
             row ∈ ResourceController.selectWhere w table <->
             (exists i, table !! i = Some row)
             /\ anyOf (accountIds q) (ResourceController.row_accountId row))
         /\ exists sm,
              ResourceController.getResourceSummary q table = Success sm
              /\ sm_total sm = length (ResourceController.selectWhere w table)
              /\ forall k,
                   byType sm !! k
                   = positiveCount (occurrences ResourceController.row_resourceType k
                        (ResourceController.selectWhere w table))
                   /\ byStatus sm !! k
                      = positiveCount (occurrences ResourceController.row_status k
                           (ResourceController.selectWhere w table))
                   /\ byRegion sm !! k
                      = positiveCount (occurrences ResourceController.row_region k
                           (ResourceController.selectWhere w table))).
Proof.
  split.
  - intros rs. eexists _, _. split; [reflexivity|]. split; [reflexivity|].
    split; [reflexivity|]. intros k Hk. simpl.
    rewrite !tally_lookup by exact Hk. auto.
  - intros table w Hw. rewrite <- summaryWhere_accountsOnly in Hw. split.
    + intros row. apply selectWhere_summary. exact Hw.
    + unfold ResourceController.getResourceSummary. rewrite Hw.
      eexists. split; [reflexivity|]. simpl.
      split; [reflexivity|]. intros k. rewrite !groupCount_lookup. auto.
Qed.

End SummarySelection.

Lemma C7_summary_selects_by_account_only_witness :
  exists sm,
    ResourceController.getResourceSummary (byRegions "us-east-1") Sample.threeRows = Success sm
    /\ sm_total sm = 3%nat.
Proof.
  destruct (proj2 (C7_summary_selects_by_account_only (runtime := Js.asciiText)
                     (byRegions "us-east-1"))
              Sample.threeRows
              {| ResourceController.w_accountId := None; ResourceController.w_region := None;
                 ResourceController.w_resourceType := None;
                 ResourceController.w_status := None; ResourceController.w_or := None |}
              eq_refl) as [_ (sm & Hsm & Htotal & _)].
  exists sm. split; [exact Hsm|]. rewrite Htotal. vm_compute. reflexivity.
Defined.

Example summary_groups_are_literal :
  exists sm,
    SimpleServer.getSummary Sample.noQuery
      [ Sample.resource "i-1" Sample.accountA "us-east-1" 1;
        Sample.resource "i-2" Sample.accountA "US-EAST-1" 2 ] = Success sm
    /\ SimpleServer.t_byRegion sm !! "us-east-1" = Some (SimpleServer.Counted 1)
    /\ SimpleServer.t_byRegion sm !! "US-EAST-1" = Some (SimpleServer.Counted 1).
Proof. eexists. split; [reflexivity|]. split; vm_compute; reflexivity. Qed.

(** A region named like a property that object literals inherit is not
    counted as a number: under [constructor] the counter holds the text of a
    function followed by a digit, and under [__proto__] it holds nothing. *)
Example summary_under_inherited_names :
  exists sm,
    SimpleServer.getSummary Sample.noQuery
      [ Sample.resource "i-1" Sample.accountA "constructor" 1;
        Sample.resource "i-2" Sample.accountA "__proto__" 2 ] = Success sm
    /\ SimpleServer.t_total sm = 2%nat
    /\ SimpleServer.t_byRegion sm !! "constructor" = Some (SimpleServer.FunctionText 1)
    /\ SimpleServer.t_byRegion sm !! "__proto__" = None.
Proof. eexists. split; [reflexivity|]. repeat split; vm_compute; reflexivity. Qed.

(** * Further properties *)

(** ** The snapshot of one collection *)

Section Snapshot.
Import ResourceCollector.
Variable c : AWSCredentials.
Variable aws : Provider.
Variable now : Z.
Variable a : string.

(** Each fetcher's list holds only what its normalizer built from a record
    that passed the guard on the native id. *)
Lemma ec2_Forall (P : Resource -> Prop) :
  (forall i iid, iid <> "" -> P (ec2Resource c now a i iid)) ->
  forall rs, collectEC2Resources c aws now a = Resolved rs -> Forall P rs.
Proof.
  intros HP rs. unfold collectEC2Resources.
  destruct (describeInstances aws) as [response|]; [|discriminate].
  intros [= <-]. apply Forall_forall. intros r Hr.
  apply list_elem_of_bind in Hr as (reservation & Hr & _).
  apply list_elem_of_bind in Hr as (i & Hr & _).
  unfold ec2OfInstance in Hr.
  destruct (InstanceId i) as [iid|]; [|inversion Hr].
  destruct (Js.nonempty iid) eqn:E; [|inversion Hr].
  apply list_elem_of_singleton in Hr as ->. apply HP. apply nonempty_true. exact E.
Qed.

Lemma rds_Forall (P : Resource -> Prop) :
  (forall d dbid, dbid <> "" -> P (rdsResource c now a d dbid)) ->
  forall rs, collectRDSResources c aws now a = Resolved rs -> Forall P rs.
Proof.
  intros HP rs. unfold collectRDSResources.
  destruct (describeDBInstances aws) as [response|]; [|discriminate].
  intros [= <-]. apply Forall_forall. intros r Hr.
  apply list_elem_of_bind in Hr as (d & Hr & _).
  unfold rdsOfInstance in Hr.
  destruct (DBInstanceIdentifier d) as [dbid|]; [|inversion Hr].
  destruct (Js.nonempty dbid) eqn:E; [|inversion Hr].
  apply list_elem_of_singleton in Hr as ->. apply HP. apply nonempty_true. exact E.
Qed.

Lemma s3_Forall (P : Resource -> Prop) :
  (forall b bname region, bname <> "" -> P (s3Resource now a b bname region)) ->
  forall rs, collectS3Resources aws now a = Resolved rs -> Forall P rs.
Proof.
  intros HP rs. unfold collectS3Resources.
  destruct (listBuckets aws) as [response|]; [|discriminate].
  intros [= <-]. apply Forall_forall. intros r Hr.
  apply list_elem_of_bind in Hr as (b & Hr & _).
  unfold s3OfBucket in Hr.
  destruct (Name b) as [bname|]; [|inversion Hr].
  destruct (Js.nonempty bname) eqn:E; [|inversion Hr].
  destruct (getBucketLocation aws bname); [|inversion Hr].
  apply list_elem_of_singleton in Hr as ->. apply HP. apply nonempty_true. exact E.
Qed.

Lemma ecs_Forall (P : Resource -> Prop) :
  (forall cl cname, cname <> "" -> P (ecsResource c now a cl cname)) ->
  forall rs, collectECSResources c aws now a = Resolved rs -> Forall P rs.
Proof.
  intros HP rs. unfold collectECSResources.
  destruct (ecsListClusters aws) as [[arns|]|]; try (intros [= <-]; constructor).
  destruct (ecsDescribeClusters aws arns) as [clusters|]; [|intros [= <-]; constructor].
  intros [= <-]. apply Forall_forall. intros r Hr.
  apply list_elem_of_bind in Hr as (cl & Hr & _).
  unfold ecsOfCluster in Hr.
  destruct (clusterName cl) as [cname|]; [|inversion Hr].
  destruct (Js.nonempty cname) eqn:E; [|inversion Hr].
  apply list_elem_of_singleton in Hr as ->. apply HP. apply nonempty_true. exact E.
Qed.

Lemma eksLoop_Forall (P : Resource -> Prop) :
  (forall cl cname, P (eksResource c now a cl cname)) ->
  forall names acc, Forall P acc -> Forall P (eksLoop c aws now a names acc).
Proof.
  intros HP names. induction names as [|cname names IH]; intros acc Hacc; [exact Hacc|].
  simpl. destruct (eksDescribeCluster aws cname) as [[cl|]|]; try auto.
  destruct (eks_tags cl); [exact Hacc|].
  apply IH. apply Forall_app. split; [exact Hacc|]. repeat constructor. apply HP.
Qed.

Lemma eks_Forall (P : Resource -> Prop) :
  (forall cl cname, P (eksResource c now a cl cname)) ->
  forall rs, collectEKSResources c aws now a = Resolved rs -> Forall P rs.
Proof.
  intros HP rs. unfold collectEKSResources.
  destruct (eksListClusters aws) as [[names|]|]; try (intros [= <-]; constructor).
  intros [= <-]. apply eksLoop_Forall; [exact HP|constructor].
Qed.

Lemma vpc_Forall (P : Resource -> Prop) :
  (forall v vid, vid <> "" -> P (vpcResource c now a v vid)) ->
  forall rs, collectVPCResources c aws now a = Resolved rs -> Forall P rs.
Proof.
  intros HP rs. unfold collectVPCResources.
  destruct (describeVpcs aws) as [response|]; [|intros [= <-]; constructor].
  intros [= <-]. apply Forall_forall. intros r Hr.
  apply list_elem_of_bind in Hr as (v & Hr & _).
  unfold vpcOfVpc in Hr.
  destruct (VpcId v) as [vid|]; [|inversion Hr].
  destruct (Js.nonempty vid) eqn:E; [|inversion Hr].
  apply list_elem_of_singleton in Hr as ->. apply HP. apply nonempty_true. exact E.
Qed.

Lemma caught_Forall (P : Resource -> Prop) (service : string) (o : Outcome (list Resource)) :
  (forall rs, o = Resolved rs -> Forall P rs) -> Forall P (caught c now service o).1.
Proof.
  intros H. destruct o as [rs|m]; simpl; [apply H; reflexivity|constructor].
Qed.

(** A property of the snapshot's lists, type by type. *)
Lemma snapshot_Forall (P : string -> Resource -> Prop) :
  (forall i iid, iid <> "" -> P "ec2" (ec2Resource c now a i iid)) ->
  (forall d dbid, dbid <> "" -> P "rds" (rdsResource c now a d dbid)) ->
  (forall b bname region, bname <> "" -> P "s3" (s3Resource now a b bname region)) ->
  (forall cl cname, cname <> "" -> P "ecs" (ecsResource c now a cl cname)) ->
  (forall cl cname, P "eks" (eksResource c now a cl cname)) ->
  (forall v vid, vid <> "" -> P "vpc" (vpcResource c now a v vid)) ->
  forall t r,
    r ∈ resourcesOf (col_resources (collectAllResources c aws now a)) t -> P t r.
Proof.
  intros H0 H1 H2 H3 H4 H5 t r. unfold resourcesOf, collectAllResources. simpl.
  repeat case_decide; subst; intros Hr.
  - eapply Forall_forall; [apply caught_Forall, (ec2_Forall _ H0)|exact Hr].
  - eapply Forall_forall; [apply caught_Forall, (rds_Forall _ H1)|exact Hr].
  - eapply Forall_forall; [apply (caught_Forall _ "s3"), (s3_Forall _ H2)|exact Hr].
  - eapply Forall_forall; [apply caught_Forall, (ecs_Forall _ H3)|exact Hr].
  - eapply Forall_forall; [apply caught_Forall, (eks_Forall _ H4)|exact Hr].
  - eapply Forall_forall; [apply caught_Forall, (vpc_Forall _ H5)|exact Hr].
  - inversion Hr.
Qed.

End Snapshot.

(** The labels of a snapshot resource. *)
Lemma snapshot_labels (c : AWSCredentials) (aws : Provider) (now : Z)
    (a t : string) (r : Resource) :
  r ∈ resourcesOf (col_resources (ResourceCollector.collectAllResources c aws now a)) t ->
  res_accountId r = a /\ res_resourceType r = t
  /\ (t <> "s3" -> res_region r = cred_region c).
Proof.
  revert t r.
  apply (snapshot_Forall c aws now a
           (fun t r => res_accountId r = a /\ res_resourceType r = t
                       /\ (t <> "s3" -> res_region r = cred_region c)));
    intros; simpl; repeat split; auto; congruence.
Qed.

(** X1.  Every resource of a snapshot carries the account id the collection
    was run for and the type of the list it is filed under; except for
    buckets, which take their own location, its region is the region of the
    credentials. *)
Theorem snapshot_resources_are_labelled (c : AWSCredentials) (aws : Provider) (now : Z)
    (a t : string) (r : Resource) :
  r ∈ resourcesOf (col_resources (ResourceCollector.collectAllResources c aws now a)) t ->
  res_accountId r = a /\ res_resourceType r = t
  /\ (t <> "s3" -> res_region r = cred_region c).
Proof. apply snapshot_labels. Qed.

Lemma snapshot_resources_are_labelled_witness :
  res_accountId (ResourceCollector.ec2Resource Sample.credentials 5000 Sample.accountA
                   (Sample.instance "i-a") "i-a") = Sample.accountA.
Proof.
  apply (snapshot_resources_are_labelled Sample.credentials (Sample.withInstances ["i-a"])
           5000 Sample.accountA "ec2").
  vm_compute. left.
Defined.

Lemma orElse_nonempty (o : option string) (d : string) : d <> "" -> Js.orElse o d <> "".
Proof.
  intros Hd. unfold Js.orElse. destruct o as [s|]; [|exact Hd].
  destruct (Js.nonempty s) eqn:E; [apply nonempty_true; exact E|exact Hd].
Qed.

(** X2.  Outside the EKS list, every resource of a snapshot has a non-empty
    id and a non-empty display name: records without a native id never
    reach the snapshot. *)
Theorem snapshot_ids_and_names_nonempty (c : AWSCredentials) (aws : Provider) (now : Z)
    (a t : string) (r : Resource) :
  r ∈ resourcesOf (col_resources (ResourceCollector.collectAllResources c aws now a)) t ->
  t <> "eks" -> res_id r <> "" /\ res_name r <> "".
Proof.
  revert t r.
  apply (snapshot_Forall c aws now a
           (fun t r => t <> "eks" -> res_id r <> "" /\ res_name r <> ""));
    intros; simpl; try (split; auto using orElse_nonempty); congruence.
Qed.

Lemma snapshot_ids_and_names_nonempty_witness :
  res_id (ResourceCollector.ec2Resource Sample.credentials 5000 Sample.accountA
            (Sample.instance "i-a") "i-a") <> ""
  /\ res_name (ResourceCollector.ec2Resource Sample.credentials 5000 Sample.accountA
                 (Sample.instance "i-a") "i-a") <> "".
Proof.
  apply (snapshot_ids_and_names_nonempty Sample.credentials (Sample.withInstances ["i-a"])
           5000 Sample.accountA "ec2").
  - vm_compute. left.
  - discriminate.
Defined.

Lemma extractTags_unreadable (ts : list EcsTag) :
  ResourceCollector.extractTags (Some (ResourceCollector.ecsTagRead <$> ts)) = ∅.
Proof.
  unfold ResourceCollector.extractTags.
  induction ts as [|t ts IH] using rev_ind; [reflexivity|].
  rewrite fmap_app, foldl_app, IH. reflexivity.
Qed.

(** X3.  Whatever tags the provider reports for them, the ECS, EKS and S3
    resources of a snapshot have an empty tag map: bucket tags are not
    fetched, an ECS tag spells its members [key] and [value], which
    [extractTags] does not read, and an EKS cluster that carries a tags
    object does not reach the snapshot. *)
Theorem container_and_bucket_tags_empty (c : AWSCredentials) (aws : Provider) (now : Z)
    (a t : string) (r : Resource) :
  r ∈ resourcesOf (col_resources (ResourceCollector.collectAllResources c aws now a)) t ->
  t = "ecs" \/ t = "eks" \/ t = "s3" -> res_tags r = ∅.
Proof.
  revert t r.
  apply (snapshot_Forall c aws now a
           (fun t r => t = "ecs" \/ t = "eks" \/ t = "s3" -> res_tags r = ∅));
    intros; simpl; try reflexivity;
    try (match goal with H : _ \/ _ |- _ => destruct H as [?|[?|?]]; discriminate end).
  destruct (ecs_tags cl) as [ts|]; [apply extractTags_unreadable|reflexivity].
Qed.

Lemma container_and_bucket_tags_empty_witness :
  res_tags (ResourceCollector.ecsResource Sample.credentials 5000 Sample.accountA
              Sample2.taggedCluster "web") = ∅.
Proof.
  apply (container_and_bucket_tags_empty Sample.credentials Sample2.ecsTagged 5000
           Sample.accountA "ecs").
  - vm_compute. left.
  - left. reflexivity.
Defined.

(** What the error list of a snapshot holds. *)
Lemma col_errors_elem (c : AWSCredentials) (aws : Provider) (now : Z)
    (a : string) (e : CollectionError) :
  e ∈ col_errors (ResourceCollector.collectAllResources c aws now a) <->
  err_region e = cred_region c /\ err_timestamp e = now
  /\ ((err_service e = "ec2" /\ describeInstances aws = Rejected (err_error e))
      \/ (err_service e = "rds" /\ describeDBInstances aws = Rejected (err_error e))
      \/ (err_service e = "s3" /\ listBuckets aws = Rejected (err_error e))).
Proof.
  unfold ResourceCollector.collectAllResources. simpl.
  destruct (collectECSResources_resolves c aws now a) as [r3 ->].
  destruct (collectEKSResources_resolves c aws now a) as [r4 ->].
  destruct (collectVPCResources_resolves c aws now a) as [r5 ->].
  rewrite !caught_resolved. simpl. rewrite !app_nil_r.
  unfold ResourceCollector.collectEC2Resources, ResourceCollector.collectRDSResources,
    ResourceCollector.collectS3Resources.
  destruct e as [sv rg er ts]. simpl.
  destruct (describeInstances aws) as [x0|m0]; destruct (describeDBInstances aws) as [x1|m1];
    destruct (listBuckets aws) as [x2|m2]; simpl;
    rewrite ?elem_of_cons, ?elem_of_nil; split;
    try (intros H; repeat destruct H as [H|H]; try contradiction; injection H as -> -> -> ->;
         repeat split; auto);
    intros (-> & -> & [(-> & E)|[(-> & E)|(-> & E)]]); try discriminate E;
    injection E as ->; auto.
Qed.

(** X4.  The Collection Errors of a snapshot are exactly the rejections of
    the three list calls that are not wrapped in a [try] of their own: an
    error names ec2, rds or s3, carries the message of the rejected
    DescribeInstances, DescribeDBInstances or ListBuckets call, the region of
    the credentials and the instant of the collection; nothing else is ever
    recorded. *)
Theorem collection_errors_exactly (c : AWSCredentials) (aws : Provider) (now : Z)
    (a : string) (e : CollectionError) :
  e ∈ col_errors (ResourceCollector.collectAllResources c aws now a) <->
  err_region e = cred_region c /\ err_timestamp e = now
  /\ ((err_service e = "ec2" /\ describeInstances aws = Rejected (err_error e))
      \/ (err_service e = "rds" /\ describeDBInstances aws = Rejected (err_error e))
      \/ (err_service e = "s3" /\ listBuckets aws = Rejected (err_error e))).
Proof. apply col_errors_elem. Qed.

(** X5.  When ListBuckets succeeds, the bucket list of the snapshot holds
    exactly the listed buckets that have a name and whose location could be
    read, each in the region of its location constraint (us-east-1 when
    there is none); a bucket whose location call is rejected is left out,
    and no Collection Error is recorded for it. *)
Theorem readable_buckets_only (c : AWSCredentials) (aws : Provider) (now : Z) (a : string)
    (response : option (list Bucket)) :
  listBuckets aws = Resolved response ->
  (forall r,
      r ∈ s3 (col_resources (ResourceCollector.collectAllResources c aws now a)) <->
      exists bucket bname location,
        bucket ∈ default [] response /\ Name bucket = Some bname /\ bname <> "" /\
        getBucketLocation aws bname = Resolved location /\
        r = ResourceCollector.s3Resource now a bucket bname (Js.orElse location "us-east-1"))
  /\ (forall e, e ∈ col_errors (ResourceCollector.collectAllResources c aws now a) ->
                err_service e <> "s3").
Proof.
  intros Hlist. split.
  - intros r. unfold ResourceCollector.collectAllResources. simpl.
    unfold ResourceCollector.collectS3Resources. rewrite Hlist. simpl.
    rewrite list_elem_of_bind. split.
    + intros (bucket & Hr & Hin). unfold ResourceCollector.s3OfBucket in Hr.
      destruct (Name bucket) as [bname|] eqn:EN; [|inversion Hr].
      destruct (Js.nonempty bname) eqn:E; [|inversion Hr].
      destruct (getBucketLocation aws bname) as [location|] eqn:EL; [|inversion Hr].
      apply list_elem_of_singleton in Hr.
      exists bucket, bname, location. apply nonempty_true in E. auto.
    + intros (bucket & bname & location & Hin & EN & E & EL & ->).
      exists bucket. split; [|exact Hin].
      unfold ResourceCollector.s3OfBucket. apply nonempty_true in E.
      rewrite EN, E, EL. apply list_elem_of_singleton. reflexivity.
  - intros e He. apply col_errors_elem in He as (_ & _ & [H|[H|H]]).
    + destruct H as [-> _]. discriminate.
    + destruct H as [-> _]. discriminate.
    + destruct H as [_ H]. congruence.
Qed.

Lemma readable_buckets_only_witness :
  res_id <$> s3 (col_resources (ResourceCollector.collectAllResources
                   Sample.credentials Sample2.twoBuckets 5000 Sample.accountA)) = ["open"]
  /\ forall e, e ∈ col_errors (ResourceCollector.collectAllResources
                   Sample.credentials Sample2.twoBuckets 5000 Sample.accountA) ->
               err_service e <> "s3".
Proof.
  split; [reflexivity|].
  eapply (readable_buckets_only Sample.credentials Sample2.twoBuckets 5000 Sample.accountA).
  reflexivity.
Defined.

Lemma eksLoop_stops (c : AWSCredentials) (aws : Provider) (now : Z) (a : string)
    (before after : list string) (cname : string) (acc : list Resource) :
  stopsEksLoop aws cname ->
  ResourceCollector.eksLoop c aws now a (before ++ cname :: after) acc
  = ResourceCollector.eksLoop c aws now a before acc.
Proof.
  intros Hstop. revert acc. induction before as [|b before IH]; intros acc; simpl.
  - destruct Hstop as [[m ->]|(cluster & tags & -> & ->)]; reflexivity.
  - destruct (eksDescribeCluster aws b) as [[cl|]|]; try reflexivity; [|apply IH].
    destruct (eks_tags cl); [reflexivity|apply IH].
Qed.

Lemma eksLoop_names (c : AWSCredentials) (aws : Provider) (now : Z) (a : string)
    (names : list string) (acc : list Resource) :
  Forall (fun r => r ∈ acc \/ res_name r ∈ names)
         (ResourceCollector.eksLoop c aws now a names acc)
  /\ (length (ResourceCollector.eksLoop c aws now a names acc)
      <= length acc + length names)%nat.
Proof.
  revert acc. induction names as [|cname names IH]; intros acc; simpl.
  - split; [|lia]. apply Forall_forall. auto.
  - assert (Hacc : Forall (fun r => r ∈ acc \/ res_name r ∈ cname :: names) acc
                   /\ (length acc <= length acc + S (length names))%nat).
    { split; [apply Forall_forall; auto|lia]. }
    destruct (eksDescribeCluster aws cname) as [[cl|]|]; [| |exact Hacc].
    + destruct (eks_tags cl); [exact Hacc|].
      destruct (IH (acc ++ [ResourceCollector.eksResource c now a cl cname])) as [HF HL].
      split.
      * eapply Forall_impl; [exact HF|]. intros r [Hr|Hr].
        -- apply elem_of_app in Hr as [Hr|Hr]; [left; exact Hr|].
           apply list_elem_of_singleton in Hr as ->. right. simpl. left.
        -- right. right. exact Hr.
      * rewrite length_app in HL. simpl in HL. lia.
    + destruct (IH acc) as [HF HL]. split; [|lia].
      eapply Forall_impl; [exact HF|]. intros r [Hr|Hr]; [left|right; right]; exact Hr.
Qed.

(** X6.  The EKS list of a snapshot stops at the first cluster whose
    describe call is rejected or that carries a tags object: it holds only
    clusters named before that one in the listing, and the interruption
    leaves no Collection Error. *)
Theorem eks_list_stops_at_first_failure (c : AWSCredentials) (aws : Provider) (now : Z)
    (a : string) (before after : list string) (cname : string) :
  eksListClusters aws = Resolved (Some (before ++ cname :: after)) ->
  stopsEksLoop aws cname ->
  (forall r, r ∈ eks (col_resources (ResourceCollector.collectAllResources c aws now a)) ->
             res_name r ∈ before)
  /\ (length (eks (col_resources (ResourceCollector.collectAllResources c aws now a)))
      <= length before)%nat
  /\ (forall e, e ∈ col_errors (ResourceCollector.collectAllResources c aws now a) ->
                err_service e <> "eks").
Proof.
  intros Hlist Hstop.
  assert (E : eks (col_resources (ResourceCollector.collectAllResources c aws now a))
              = ResourceCollector.eksLoop c aws now a before []).
  { unfold ResourceCollector.collectAllResources. simpl.
    unfold ResourceCollector.collectEKSResources. rewrite Hlist. simpl.
    apply eksLoop_stops. exact Hstop. }
  rewrite E. destruct (eksLoop_names c aws now a before []) as [HF HL].
  split; [|split; [exact HL|]].
  - intros r Hr. eapply Forall_forall in HF; [|exact Hr].
    destruct HF as [HF|HF]; [inversion HF|exact HF].
  - intros e He. apply col_errors_elem in He as (_ & _ & [H|[H|H]]);
      destruct H as [-> _]; discriminate.
Qed.

Lemma eks_list_stops_at_first_failure_witness :
  (length (eks (col_resources (ResourceCollector.collectAllResources
                  Sample.credentials Sample.eksThrottled 5000 Sample.accountA)))
   <= length ["blue"])%nat.
Proof.
  eapply (eks_list_stops_at_first_failure Sample.credentials Sample.eksThrottled 5000
            Sample.accountA ["blue"] [] "green").
  - reflexivity.
  - left. eexists. reflexivity.
Defined.

(** ** Credentials *)

Lemma storeKey_inj (a b : string) : AuthService.storeKey a = AuthService.storeKey b -> a = b.
Proof. unfold AuthService.storeKey. apply append_cancel_l. Qed.

Lemma decrypt_encrypt_same (store : AuthService.CredentialStore) (a encrypted : string) :
  encrypted <> "" ->
  AuthService.decryptCredentials (AuthService.encryptCredentials store a encrypted) a
  = Some AuthService.placeholder.
Proof.
  intros H. unfold AuthService.decryptCredentials, AuthService.encryptCredentials.
  rewrite lookup_insert_eq. apply nonempty_true in H. rewrite H. reflexivity.
Qed.

Lemma decrypt_encrypt_other (store : AuthService.CredentialStore) (a b encrypted : string) :
  a <> b ->
  AuthService.decryptCredentials (AuthService.encryptCredentials store a encrypted) b
  = AuthService.decryptCredentials store b.
Proof.
  intros H. unfold AuthService.decryptCredentials, AuthService.encryptCredentials.
  rewrite lookup_insert_ne by (intros E; apply H, storeKey_inj, E).
  destruct store as [m|]; [reflexivity|]. simpl. rewrite lookup_empty. reflexivity.
Qed.

Lemma decrypt_remove_same (store : AuthService.CredentialStore) (a : string) :
  AuthService.decryptCredentials (AuthService.removeCredentials store a).1 a = None.
Proof.
  unfold AuthService.decryptCredentials, AuthService.removeCredentials.
  destruct store as [m|]; [|reflexivity]. simpl. rewrite lookup_delete_eq. reflexivity.
Qed.

Lemma decrypt_remove_other (store : AuthService.CredentialStore) (a b : string) :
  a <> b ->
  AuthService.decryptCredentials (AuthService.removeCredentials store a).1 b
  = AuthService.decryptCredentials store b.
Proof.
  intros H. unfold AuthService.decryptCredentials, AuthService.removeCredentials.
  destruct store as [m|]; [|reflexivity]. simpl.
  rewrite lookup_delete_ne by (intros E; apply H, storeKey_inj, E). reflexivity.
Qed.

Lemma decrypt_placeholder (store : AuthService.CredentialStore) (a : string)
    (credentials : AWSCredentials) :
  AuthService.decryptCredentials store a = Some credentials ->
  credentials = AuthService.placeholder.
Proof.
  unfold AuthService.decryptCredentials.
  destruct store as [m|]; [|discriminate].
  destruct (m !! AuthService.storeKey a) as [e|]; [|discriminate].
  destruct (Js.nonempty e); [|discriminate]. intros [= <-]. reflexivity.
Qed.

(** X7.  The credential store keeps one entry per account id: after
    [encryptCredentials] for an account, [decryptCredentials] finds an entry
    for it, after [removeCredentials] it finds none, and neither call
    changes what is found for any other account id, the store having been
    created before or not. *)
Theorem credential_store_per_account (store : AuthService.CredentialStore)
    (a b encrypted : string) :
  encrypted <> "" ->
  a <> b ->
  is_Some (AuthService.decryptCredentials
             (AuthService.encryptCredentials store a encrypted) a)
  /\ AuthService.decryptCredentials
       (AuthService.removeCredentials
          (AuthService.encryptCredentials store a encrypted) a).1 a = None
  /\ AuthService.decryptCredentials (AuthService.encryptCredentials store a encrypted) b
     = AuthService.decryptCredentials store b
  /\ AuthService.decryptCredentials (AuthService.removeCredentials store a).1 b
     = AuthService.decryptCredentials store b.
Proof.
  intros He Hab. split; [rewrite decrypt_encrypt_same by exact He; eauto|].
  split; [apply decrypt_remove_same|].
  split; [apply decrypt_encrypt_other|apply decrypt_remove_other]; exact Hab.
Qed.

Lemma credential_store_per_account_witness :
  AuthService.decryptCredentials
    (AuthService.removeCredentials
       (AuthService.encryptCredentials None Sample.accountA "$2a$12$hash") Sample.accountA).1
    Sample.accountA = None.
Proof.
  apply (credential_store_per_account None Sample.accountA Sample.accountB "$2a$12$hash").
  - discriminate.
  - discriminate.
Defined.

(** X8.  A refresh collects with what [decryptCredentials] returns, and
    that is a fixed placeholder whose region is us-east-1: whatever
    credentials and region were stored for the account, every resource of
    the snapshot other than a bucket, and every Collection Error, carries the
    region us-east-1; an account without a stored entry is not collected. *)
Theorem refresh_collects_in_placeholder_region (store : AuthService.CredentialStore)
    (aws : Provider) (now : Z) (a : string) :
  match ResourceRoutes.collectFor store aws now a with
  | Some snapshot =>
      is_Some (AuthService.decryptCredentials store a)
      /\ (forall t r, r ∈ resourcesOf (col_resources snapshot) t -> t <> "s3" ->
                      res_region r = "us-east-1")
      /\ (forall e, e ∈ col_errors snapshot -> err_region e = "us-east-1")
  | None => AuthService.decryptCredentials store a = None
  end.
Proof.
  unfold ResourceRoutes.collectFor.
  destruct (AuthService.decryptCredentials store a) as [credentials|] eqn:E; [|reflexivity].
  apply decrypt_placeholder in E as ->. split; [eauto|]. split.
  - intros t r Hr Ht. apply snapshot_labels in Hr as (_ & _ & Hreg).
    apply Hreg. exact Ht.
  - intros e He. apply col_errors_elem in He as (Hreg & _). exact Hreg.
Qed.

(** ** AccountController *)

Section AccountHandlers.
Import AccountController.

Lemma existsAccountId_true (table : gmap string AccountRow) (a : string) :
  existsAccountId table a = true <-> exists i row, table !! i = Some row /\ ar_accountId row = a.
Proof.
  unfold existsAccountId. rewrite bool_decide_eq_true, Exists_exists. split.
  - intros (row & Hin & E). apply list_elem_of_fmap in Hin as ([i row'] & -> & Hin).
    apply elem_of_map_to_list in Hin. eauto.
  - intros (i & row & Hin & E). exists row. split; [|exact E].
    apply list_elem_of_fmap. exists (i, row). split; [reflexivity|].
    apply elem_of_map_to_list. exact Hin.
Qed.

Lemma existsAccountId_false (table : gmap string AccountRow) (a : string) :
  existsAccountId table a = false <-> forall i row, table !! i = Some row -> ar_accountId row <> a.
Proof.
  rewrite <- not_true_iff_false, existsAccountId_true. split.
  - intros H i row Hin E. apply H. eauto.
  - intros H (i & row & Hin & E). exact (H i row Hin E).
Qed.

(** The outcomes of [createAccount]. *)
Lemma createAccount_cases (sts : AWSCredentials -> Outcome unit) (encrypted newId : string)
    (now : Z) (body : Body) (st st' : State) (response : Response AccountRow) :
  createAccount sts encrypted newId now body st = (st', response) ->
  (st' = st /\ exists status code, response = Failure status code /\ status <> 500%nat)
  \/ (accounts st' = accounts st /\ response = Failure 500 "ACCOUNT_CREATE_ERROR")
  \/ (exists row,
         response = Success row /\ accounts st !! newId = None /\
         accounts st' = <[newId := row]> (accounts st) /\
         ar_id row = newId /\ Some (ar_accountId row) = b_accountId body /\
         ar_accountId row <> "" /\
         ar_accessKeyId row = None /\ ar_secretAccessKey row = None /\
         existsAccountId (accounts st) (ar_accountId row) = false /\
         credentialStore st'
         = if (Js.truthy (b_accessKeyId body) && Js.truthy (b_secretAccessKey body))%bool
           then AuthService.encryptCredentials (credentialStore st) (ar_accountId row) encrypted
           else credentialStore st).
Proof.
  unfold createAccount.
  destruct (Js.truthy (b_name body) && Js.truthy (b_accountId body))%bool eqn:Ev; simpl;
    [|intros [= <- <-]; left; split; [reflexivity|]; eexists _, _; split; [reflexivity|lia]].
  apply andb_true_iff in Ev as [_ Ea].
  destruct (b_accountId body) as [a|] eqn:Eb; [|discriminate Ea]. simpl in *.
  apply nonempty_true in Ea.
  destruct (existsAccountId (accounts st) a) eqn:Ex;
    [intros [= <- <-]; left; split; [reflexivity|]; eexists _, _; split; [reflexivity|lia]|].
  destruct (Js.truthy (b_accessKeyId body) && Js.truthy (b_secretAccessKey body))%bool.
  - destruct (validateCredentials sts _);
      [|intros [= <- <-]; left; split; [reflexivity|]; eexists _, _; split; [reflexivity|lia]].
    destruct (accounts st !! newId) eqn:En; intros [= <- <-].
    + right. left. auto.
    + right. right. eexists. repeat split; auto.
  - destruct (accounts st !! newId) eqn:En; intros [= <- <-].
    + right. left. auto.
    + right. right. eexists. repeat split; auto.
Qed.

(** The outcomes of [updateAccount]. *)
Lemma updateAccount_cases (sts : AWSCredentials -> Outcome unit) (encrypted : string)
    (now : Z) (id : string) (body : Body) (st st' : State) (response : Response AccountRow) :
  updateAccount sts encrypted now id body st = (st', response) ->
  (st' = st /\ exists status code, response = Failure status code)
  \/ (accounts st' = accounts st /\ response = Failure 500 "ACCOUNT_UPDATE_ERROR")
  \/ (exists account,
         accounts st !! id = Some account /\
         response = Success (updated now body account) /\
         accounts st' = <[id := updated now body account]> (accounts st) /\
         existsAccountId (delete id (accounts st)) (ar_accountId (updated now body account))
         = false /\
         credentialStore st'
         = if (Js.truthy (b_accessKeyId body) && Js.truthy (b_secretAccessKey body))%bool
           then AuthService.encryptCredentials (credentialStore st) (ar_accountId account)
                  encrypted
           else credentialStore st).
Proof.
  unfold updateAccount.
  destruct (accounts st !! id) as [account|] eqn:Ea;
    [|intros [= <- <-]; left; split; [reflexivity|]; eexists _, _; reflexivity].
  destruct (Js.truthy (b_accessKeyId body) && Js.truthy (b_secretAccessKey body))%bool.
  - destruct (validateCredentials sts _);
      [|intros [= <- <-]; left; split; [reflexivity|]; eexists _, _; reflexivity].
    destruct (existsAccountId _ _) eqn:Ex; intros [= <- <-].
    + right. left. auto.
    + right. right. exists account. auto.
  - destruct (existsAccountId _ _) eqn:Ex; intros [= <- <-].
    + right. left. auto.
    + right. right. exists account. auto.
Qed.

Lemma noSecrets_insert (table : gmap string AccountRow) (i : string) (row : AccountRow) :
  noSecrets table -> ar_accessKeyId row = None -> ar_secretAccessKey row = None ->
  noSecrets (<[i := row]> table).
Proof.
  intros H Ha Hs j r. rewrite lookup_insert. case_decide.
  - intros [= <-]. auto.
  - apply H.
Qed.

Lemma noSecrets_delete (table : gmap string AccountRow) (i : string) :
  noSecrets table -> noSecrets (delete i table).
Proof.
  intros H j r Hj. apply lookup_delete_Some in Hj as [_ Hj]. exact (H j r Hj).
Qed.

Lemma uniqueAccountIds_insert (table : gmap string AccountRow) (i : string) (row : AccountRow) :
  uniqueAccountIds table ->
  existsAccountId (delete i table) (ar_accountId row) = false ->
  uniqueAccountIds (<[i := row]> table).
Proof.
  intros H Hex j k rj rk. rewrite !lookup_insert.
  pose proof (proj1 (existsAccountId_false _ _) Hex) as Hfree.
  repeat case_decide; subst; intros Hj Hk E; simplify_eq; try reflexivity.
  - exfalso. apply (Hfree k rk); [|auto]. apply lookup_delete_Some. auto.
  - exfalso. apply (Hfree j rj); [|auto]. apply lookup_delete_Some. auto.
  - eapply H; eauto.
Qed.

Lemma uniqueAccountIds_delete (table : gmap string AccountRow) (i : string) :
  uniqueAccountIds table -> uniqueAccountIds (delete i table).
Proof.
  intros H j k rj rk Hj Hk. apply lookup_delete_Some in Hj as [_ Hj].
  apply lookup_delete_Some in Hk as [_ Hk]. eapply H; eauto.
Qed.

End AccountHandlers.

(** X9.  A [createAccount] that does not answer with success leaves the
    accounts table as it was, and unless the answer is the 500 of the
    [catch] block (the row could not be inserted after the credentials were
    filed) it leaves the credential store as it was too. *)
Theorem rejected_createAccount_changes_nothing (sts : AWSCredentials -> Outcome unit)
    (encrypted newId : string) (now : Z) (body : Body)
    (st st' : AccountController.State) (status : nat) (code : string) :
  AccountController.createAccount sts encrypted newId now body st
  = (st', Failure status code) ->
  AccountController.accounts st' = AccountController.accounts st
  /\ (status <> 500%nat -> st' = st).
Proof.
  intros H. apply createAccount_cases in H as [(-> & _)|[(E & [= -> ->])|(row & [=] & _)]].
  - auto.
  - split; [exact E|]. intros Hs. contradiction.
Qed.

Lemma rejected_createAccount_changes_nothing_witness :
  exists st',
    AccountController.createAccount Sample2.stsRefuses Sample2.hash "id-1" 7000
      Sample2.bodyWithKeys Sample2.fresh = (st', Failure 400 "INVALID_CREDENTIALS")
    /\ st' = Sample2.fresh.
Proof.
  eexists. split; [vm_compute; reflexivity|].
  eapply (rejected_createAccount_changes_nothing Sample2.stsRefuses Sample2.hash "id-1" 7000
            Sample2.bodyWithKeys Sample2.fresh _ 400 "INVALID_CREDENTIALS").
  - vm_compute. reflexivity.
  - lia.
Defined.

(** X10.  After a successful [createAccount] that carried both keys,
    [testConnection] for the new account probes STS with the fixed
    placeholder that [decryptCredentials] returns, not with the keys of the
    request, and answers with the outcome of that probe.  After one that
    carried no keys, with nothing filed before under the account id,
    [testConnection] answers 400 NO_CREDENTIALS. *)
Theorem testConnection_after_createAccount (sts sts' : AWSCredentials -> Outcome unit)
    (encrypted newId : string) (now : Z) (body : Body)
    (st st' : AccountController.State) (row : AccountController.AccountRow) :
  AccountController.createAccount sts encrypted newId now body st = (st', Success row) ->
  (carriesKeys body -> encrypted <> "" ->
   AccountController.testConnection sts' (AccountController.ar_id row) st'
   = Success (AccountController.validateCredentials sts' AuthService.placeholder))
  /\ (~ carriesKeys body ->
      AuthService.decryptCredentials (AccountController.credentialStore st)
        (AccountController.ar_accountId row) = None ->
      AccountController.testConnection sts' (AccountController.ar_id row) st'
      = Failure 400 "NO_CREDENTIALS").
Proof.
  intros H.
  apply createAccount_cases in H
    as [(_ & ? & ? & [=] & _)|[(_ & [=])|(row' & [= <-] & Hn & Ht & Hid & _ & _ & _ & _ & _ & Hc)]].
  assert (Hrow : AccountController.accounts st' !! AccountController.ar_id row = Some row).
  { rewrite Ht, Hid. apply lookup_insert_eq. }
  unfold AccountController.testConnection, carriesKeys.
  rewrite Hrow, Hc. split.
  - intros -> He. rewrite decrypt_encrypt_same by exact He. reflexivity.
  - intros Hk Hd. apply not_true_is_false in Hk. rewrite Hk, Hd. reflexivity.
Qed.

Lemma testConnection_after_createAccount_witness :
  exists st' row,
    AccountController.createAccount Sample2.stsAccepts Sample2.hash "id-1" 7000
      Sample2.bodyWithKeys Sample2.fresh = (st', Success row)
    /\ AccountController.testConnection Sample2.stsRefuses (AccountController.ar_id row) st'
       = Success false.
Proof.
  eexists _, _. split; [vm_compute; reflexivity|].
  eapply (testConnection_after_createAccount Sample2.stsAccepts Sample2.stsRefuses
            Sample2.hash "id-1" 7000 Sample2.bodyWithKeys Sample2.fresh).
  - vm_compute. reflexivity.
  - reflexivity.
  - discriminate.
Defined.

(** X11.  Deleting the account that a successful [createAccount] has just
    created gives back the accounts table as it was before the creation, and
    leaves no credentials filed under the account id. *)
Theorem deleteAccount_undoes_createAccount (sts : AWSCredentials -> Outcome unit)
    (encrypted newId : string) (now : Z) (body : Body)
    (st st' : AccountController.State) (row : AccountController.AccountRow) :
  AccountController.createAccount sts encrypted newId now body st = (st', Success row) ->
  exists st'',
    AccountController.deleteAccount (AccountController.ar_id row) st' = (st'', Success tt)
    /\ AccountController.accounts st'' = AccountController.accounts st
    /\ AuthService.decryptCredentials (AccountController.credentialStore st'')
         (AccountController.ar_accountId row) = None.
Proof.
  intros H.
  apply createAccount_cases in H
    as [(_ & ? & ? & [=] & _)|[(_ & [=])|(row' & [= <-] & Hn & Ht & Hid & _)]].
  assert (Hrow : AccountController.accounts st' !! AccountController.ar_id row = Some row).
  { rewrite Ht, Hid. apply lookup_insert_eq. }
  unfold AccountController.deleteAccount. rewrite Hrow.
  eexists. split; [reflexivity|]. simpl. split.
  - rewrite Ht, Hid. apply delete_insert_id. exact Hn.
  - apply decrypt_remove_same.
Qed.

Lemma deleteAccount_undoes_createAccount_witness :
  exists st' row st'',
    AccountController.createAccount Sample2.stsAccepts Sample2.hash "id-1" 7000
      Sample2.bodyWithKeys Sample2.fresh = (st', Success row)
    /\ AccountController.deleteAccount (AccountController.ar_id row) st' = (st'', Success tt)
    /\ AccountController.accounts st'' = ∅.
Proof.
  eexists _, _.
  destruct (deleteAccount_undoes_createAccount Sample2.stsAccepts Sample2.hash "id-1" 7000
              Sample2.bodyWithKeys Sample2.fresh _ _ eq_refl) as (st'' & Hd & Ha & _).
  exists st''. split; [reflexivity|]. split; [exact Hd|exact Ha].
Defined.

(** X12.  No handler of the controller writes an access key or a secret
    into the accounts table: if no row holds one, none does after
    [createAccount], [updateAccount] or [deleteAccount], whatever the
    request carries. *)
Theorem accounts_table_never_holds_keys (st : AccountController.State) :
  noSecrets (AccountController.accounts st) ->
  (forall sts encrypted newId now body,
      noSecrets (AccountController.accounts
                   (AccountController.createAccount sts encrypted newId now body st).1))
  /\ (forall sts encrypted now id body,
         noSecrets (AccountController.accounts
                      (AccountController.updateAccount sts encrypted now id body st).1))
  /\ (forall id,
         noSecrets (AccountController.accounts (AccountController.deleteAccount id st).1)).
Proof.
  intros H. split; [|split].
  - intros sts encrypted newId now body.
    destruct (AccountController.createAccount sts encrypted newId now body st)
      as [st' response] eqn:E.
    cbn [fst].
    apply createAccount_cases in E
      as [(-> & _)|[(E1 & _)|(row & _ & _ & E1 & _ & _ & _ & Hk & Hs & _)]];
      rewrite ?E1; auto.
    apply noSecrets_insert; assumption.
  - intros sts encrypted now id body.
    destruct (AccountController.updateAccount sts encrypted now id body st)
      as [st' response] eqn:E.
    cbn [fst].
    apply updateAccount_cases in E
      as [(-> & _)|[(E1 & _)|(account & Ha & _ & E1 & _)]]; rewrite ?E1; auto.
    destruct (H id account Ha) as [Hk Hs]. apply noSecrets_insert; assumption.
  - intros id. unfold AccountController.deleteAccount.
    destruct (AccountController.accounts st !! id); simpl; [|exact H].
    apply noSecrets_delete. exact H.
Qed.

Lemma accounts_table_never_holds_keys_witness :
  noSecrets (AccountController.accounts
               (AccountController.createAccount Sample2.stsAccepts Sample2.hash "id-1" 7000
                  Sample2.bodyWithKeys Sample2.fresh).1).
Proof.
  apply (accounts_table_never_holds_keys Sample2.fresh).
  intros i row Hi. cbn in Hi. rewrite lookup_empty in Hi. discriminate.
Defined.

(** X13.  The handlers keep account ids unique: if no two rows of the
    accounts table share an account id, none do after [createAccount]
    (which answers 409 for a taken id), [updateAccount] (whose update the
    table refuses when it would duplicate an id) or [deleteAccount]. *)
Theorem account_ids_stay_unique (st : AccountController.State) :
  uniqueAccountIds (AccountController.accounts st) ->
  (forall sts encrypted newId now body,
      uniqueAccountIds (AccountController.accounts
                          (AccountController.createAccount sts encrypted newId now body st).1))
  /\ (forall sts encrypted now id body,
         uniqueAccountIds (AccountController.accounts
                             (AccountController.updateAccount sts encrypted now id body st).1))
  /\ (forall id,
         uniqueAccountIds (AccountController.accounts
                             (AccountController.deleteAccount id st).1)).
Proof.
  intros H. split; [|split].
  - intros sts encrypted newId now body.
    destruct (AccountController.createAccount sts encrypted newId now body st)
      as [st' response] eqn:E.
    cbn [fst].
    apply createAccount_cases in E
      as [(-> & _)|[(E1 & _)|(row & _ & Hn & E1 & _ & _ & _ & _ & _ & Hex & _)]];
      rewrite ?E1; auto.
    apply uniqueAccountIds_insert; [exact H|].
    rewrite delete_id by exact Hn. exact Hex.
  - intros sts encrypted now id body.
    destruct (AccountController.updateAccount sts encrypted now id body st)
      as [st' response] eqn:E.
    cbn [fst].
    apply updateAccount_cases in E
      as [(-> & _)|[(E1 & _)|(account & _ & _ & E1 & Hex & _)]]; rewrite ?E1; auto.
    apply uniqueAccountIds_insert; assumption.
  - intros id. unfold AccountController.deleteAccount.
    destruct (AccountController.accounts st !! id); simpl; [|exact H].
    apply uniqueAccountIds_delete. exact H.
Qed.

Lemma account_ids_stay_unique_witness :
  uniqueAccountIds (AccountController.accounts
                      (AccountController.createAccount Sample2.stsAccepts Sample2.hash "id-1"
                         7000 Sample2.bodyWithKeys Sample2.fresh).1).
Proof.
  apply (account_ids_stay_unique Sample2.fresh).
  intros i j ri rj Hi. cbn in Hi. rewrite lookup_empty in Hi. discriminate.
Defined.

(** X14.  [updateAccount] files new keys under the account id that the row
    had before the update.  When the same request also changes the account
    id, the credentials stay under the old id, and under the new id there is
    only what was filed there before. *)
Theorem updateAccount_files_keys_under_old_id (sts : AWSCredentials -> Outcome unit)
    (encrypted : string) (now : Z) (id : string) (body : Body)
    (st st' : AccountController.State) (account row : AccountController.AccountRow) :
  AccountController.updateAccount sts encrypted now id body st = (st', Success row) ->
  AccountController.accounts st !! id = Some account ->
  carriesKeys body -> encrypted <> "" ->
  AccountController.ar_accountId row <> AccountController.ar_accountId account ->
  AuthService.decryptCredentials (AccountController.credentialStore st')
    (AccountController.ar_accountId account) = Some AuthService.placeholder
  /\ AuthService.decryptCredentials (AccountController.credentialStore st')
       (AccountController.ar_accountId row)
     = AuthService.decryptCredentials (AccountController.credentialStore st)
         (AccountController.ar_accountId row).
Proof.
  intros H Ha Hk He Hne.
  apply updateAccount_cases in H
    as [(_ & ? & ? & [=])|[(_ & [=])|(account' & Ha' & [= ->] & _ & _ & Hc)]].
  rewrite Ha in Ha'. injection Ha' as <-.
  unfold carriesKeys in Hk. rewrite Hk in Hc. rewrite Hc. split.
  - apply decrypt_encrypt_same. exact He.
  - apply decrypt_encrypt_other. auto.
Qed.

Lemma updateAccount_files_keys_under_old_id_witness :
  AuthService.decryptCredentials (AccountController.credentialStore Sample2.renamed)
    (AccountController.ar_accountId Sample2.rowA) = Some AuthService.placeholder
  /\ AuthService.decryptCredentials (AccountController.credentialStore Sample2.renamed)
       (AccountController.ar_accountId
          (AccountController.updated 8000 Sample2.renameWithKeys Sample2.rowA))
     = AuthService.decryptCredentials (AccountController.credentialStore Sample2.withAccountA)
         (AccountController.ar_accountId
            (AccountController.updated 8000 Sample2.renameWithKeys Sample2.rowA)).
Proof.
  apply (updateAccount_files_keys_under_old_id Sample2.stsAccepts Sample2.hash 8000 "id-1"
           Sample2.renameWithKeys Sample2.withAccountA Sample2.renamed Sample2.rowA
           (AccountController.updated 8000 Sample2.renameWithKeys Sample2.rowA)).
  - vm_compute. reflexivity.
  - vm_compute. reflexivity.
  - reflexivity.
  - discriminate.
  - vm_compute. discriminate.
Defined.

(** ** simple-server: what a refresh does to the store *)

Lemma accountResources_accountId (now : Z) (account : SimpleServer.Account) (aws : Provider)
    (r : Resource) :
  r ∈ SimpleServer.accountResources now account aws ->
  res_accountId r = SimpleServer.acc_accountId account.
Proof.
  unfold SimpleServer.accountResources.
  destruct (SimpleServer.acc_credentials account); [|intros H; inversion H].
  rewrite elem_of_app. intros [H|H].
  - unfold SimpleServer.collectBuckets in H.
    destruct (listBuckets aws) as [response|]; [|inversion H].
    apply list_elem_of_bind in H as (bucket & H & _).
    destruct (Name bucket) as [bname|]; [|inversion H].
    destruct (Js.nonempty bname); [|inversion H].
    apply list_elem_of_singleton in H as ->. reflexivity.
  - unfold SimpleServer.collectInstances in H.
    destruct (describeInstances aws) as [response|]; [|inversion H].
    apply list_elem_of_bind in H as (reservation & H & _).
    apply list_elem_of_bind in H as (instance & H & _).
    destruct (InstanceId instance) as [iid|]; [|inversion H].
    destruct (Js.nonempty iid); [|inversion H].
    apply list_elem_of_singleton in H as ->. reflexivity.
Qed.

(** The results pushed so far do not steer the loop. *)
Lemma refresh_from (now : Z) (aps : list (SimpleServer.Account * Provider))
    (rs : list Resource) (out : list SimpleServer.RefreshResult) :
  foldl (fun st ap =>
           let step := SimpleServer.refreshAccount now st.1 ap.1 ap.2 in
           (step.1, st.2 ++ step.2))
        (rs, out) aps
  = ((SimpleServer.refresh now aps rs).1, out ++ (SimpleServer.refresh now aps rs).2).
Proof.
  unfold SimpleServer.refresh. revert rs out.
  induction aps as [|ap aps IH]; intros rs out; cbn [foldl fst snd].
  - rewrite app_nil_r. reflexivity.
  - rewrite IH, (IH _ ([] ++ _)). cbn [fst snd app]. rewrite app_assoc. reflexivity.
Qed.

(** One turn of the loop, then the rest. *)
Lemma refresh_cons (now : Z) (ap : SimpleServer.Account * Provider)
    (aps : list (SimpleServer.Account * Provider)) (rs : list Resource) :
  SimpleServer.refresh now (ap :: aps) rs
  = ((SimpleServer.refresh now aps (SimpleServer.refreshAccount now rs ap.1 ap.2).1).1,
     (SimpleServer.refreshAccount now rs ap.1 ap.2).2
       ++ (SimpleServer.refresh now aps (SimpleServer.refreshAccount now rs ap.1 ap.2).1).2).
Proof.
  unfold SimpleServer.refresh at 1. cbn [foldl fst snd app].
  apply refresh_from.
Qed.

Lemma filter_none {A : Type} (P : A -> Prop) `{!forall x, Decision (P x)} (l : list A) :
  (forall x, x ∈ l -> ~ P x) -> filter P l = [].
Proof.
  induction l as [|x l IH]; intros Hall; [reflexivity|].
  rewrite filter_cons_False by (apply Hall; left).
  apply IH. intros y Hy. apply Hall. right. exact Hy.
Qed.

Lemma filter_all {A : Type} (P : A -> Prop) `{!forall x, Decision (P x)} (l : list A) :
  (forall x, x ∈ l -> P x) -> filter P l = l.
Proof.
  induction l as [|x l IH]; intros Hall; [reflexivity|].
  rewrite filter_cons_True by (apply Hall; left).
  f_equal. apply IH. intros y Hy. apply Hall. right. exact Hy.
Qed.

(** Resources of account ids outside [ids] pass through a refresh of
    accounts whose ids are all in [ids]. *)
Lemma refresh_outside (now : Z) (ids : list string)
    (aps : list (SimpleServer.Account * Provider)) (rs : list Resource) :
  activeIds aps ⊆ ids ->
  filter (fun r => res_accountId r ∉ ids) (SimpleServer.refresh now aps rs).1
  = filter (fun r => res_accountId r ∉ ids) rs.
Proof.
  revert rs. induction aps as [|ap aps IH]; intros rs Hsub; [reflexivity|].
  rewrite refresh_cons. cbn [fst].
  unfold activeIds in Hsub. unfold SimpleServer.refreshAccount.
  destruct (SimpleServer.acc_isActive ap.1) eqn:Hact.
  - rewrite filter_cons_True in Hsub by exact Hact. rewrite fmap_cons in Hsub.
    assert (Ha : SimpleServer.acc_accountId ap.1 ∈ ids) by (apply Hsub; left).
    assert (Hrest : activeIds aps ⊆ ids).
    { intros x Hx. apply Hsub. right. exact Hx. }
    cbn [fst]. rewrite (IH _ Hrest), filter_app.
    rewrite (filter_none _ (SimpleServer.accountResources now ap.1 ap.2)).
    + rewrite app_nil_r, list_filter_filter. apply list_filter_iff.
      intros r. split; [tauto|]. intros Hr. split; [exact Hr|].
      intros E. apply Hr. rewrite E. exact Ha.
    + intros r Hr Hn. apply Hn.
      rewrite (accountResources_accountId _ _ _ _ Hr). exact Ha.
  - rewrite filter_cons_False in Hsub by (rewrite Hact; discriminate).
    cbn [fst]. apply IH. exact Hsub.
Qed.

(** With distinct active account ids, the store afterwards. *)
Lemma refresh_store (now : Z) (aps : list (SimpleServer.Account * Provider))
    (rs : list Resource) :
  NoDup (activeIds aps) ->
  (SimpleServer.refresh now aps rs).1
  = filter (fun r => res_accountId r ∉ activeIds aps) rs ++ collectedBy now aps.
Proof.
  revert rs. induction aps as [|ap aps IH]; intros rs Hnd.
  - cbn. rewrite app_nil_r. symmetry. apply filter_all.
    intros r _ H. inversion H.
  - rewrite refresh_cons. cbn [fst].
    unfold activeIds, collectedBy in *. unfold SimpleServer.refreshAccount.
    destruct (SimpleServer.acc_isActive ap.1) eqn:Hact.
    + rewrite filter_cons_True in Hnd |- * by exact Hact.
      rewrite fmap_cons in Hnd |- *. apply NoDup_cons in Hnd as [Hnotin Hnd].
      cbn [fst]. rewrite (IH _ Hnd), filter_app.
      rewrite bind_cons, list_filter_filter.
      rewrite (filter_all _ (SimpleServer.accountResources now ap.1 ap.2)).
      * rewrite <- app_assoc. f_equal. apply list_filter_iff.
        intros r. rewrite not_elem_of_cons. tauto.
      * intros r Hr. rewrite (accountResources_accountId _ _ _ _ Hr). exact Hnotin.
    + rewrite filter_cons_False in Hnd |- * by (rewrite Hact; discriminate).
      cbn [fst]. apply IH. exact Hnd.
Qed.

(** The report does not depend on the store. *)
Lemma refresh_report (now : Z) (aps : list (SimpleServer.Account * Provider))
    (rs : list Resource) :
  (SimpleServer.refresh now aps rs).2
  = (fun ap => {| SimpleServer.rr_accountId := SimpleServer.acc_accountId ap.1;
                  SimpleServer.rr_success := true;
                  SimpleServer.rr_resourceCount :=
                    length (SimpleServer.accountResources now ap.1 ap.2);
                  SimpleServer.rr_errors := [] |})
      <$> filter (fun ap => SimpleServer.acc_isActive ap.1 = true) aps.
Proof.
  revert rs. induction aps as [|ap aps IH]; intros rs; [reflexivity|].
  rewrite refresh_cons. cbn [snd]. rewrite IH.
  unfold SimpleServer.refreshAccount.
  destruct (SimpleServer.acc_isActive ap.1) eqn:Hact.
  - rewrite filter_cons_True by exact Hact. reflexivity.
  - rewrite filter_cons_False by (rewrite Hact; discriminate). reflexivity.
Qed.

(** With distinct active account ids, what is stored for an active account
    afterwards. *)
Lemma refresh_storedFor (now : Z) (aps : list (SimpleServer.Account * Provider))
    (rs : list Resource) (ap : SimpleServer.Account * Provider) :
  NoDup (activeIds aps) ->
  ap ∈ aps -> SimpleServer.acc_isActive ap.1 = true ->
  storedFor (SimpleServer.acc_accountId ap.1) (SimpleServer.refresh now aps rs).1
  = SimpleServer.accountResources now ap.1 ap.2.
Proof.
  intros Hnd Hin Hact. rewrite (refresh_store _ _ _ Hnd).
  unfold storedFor. rewrite filter_app.
  rewrite (filter_none _ (filter _ rs)).
  2:{ intros r Hr E. apply list_elem_of_filter in Hr as [Hr _]. apply Hr.
      rewrite E. unfold activeIds. apply list_elem_of_fmap. exists ap.
      split; [reflexivity|]. apply list_elem_of_filter. auto. }
  cbn [app]. clear rs. unfold activeIds, collectedBy in *.
  induction aps as [|ap' aps IH]; [inversion Hin|].
  destruct (SimpleServer.acc_isActive ap'.1) eqn:Hact'.
  - rewrite filter_cons_True in Hnd |- * by exact Hact'.
    rewrite fmap_cons in Hnd. apply NoDup_cons in Hnd as [Hnotin Hnd].
    rewrite bind_cons, filter_app.
    apply elem_of_cons in Hin as [<-|Hin].
    + rewrite filter_all by (intros r Hr; apply (accountResources_accountId _ _ _ _ Hr)).
      rewrite filter_none; [apply app_nil_r|].
      intros r Hr E. apply list_elem_of_bind in Hr as (ap'' & Hr & Hap'').
      apply Hnotin. apply list_elem_of_fmap. exists ap''. split; [|exact Hap''].
      rewrite <- E. apply (accountResources_accountId _ _ _ _ Hr).
    + rewrite filter_none; [apply (IH Hnd Hin)|].
      intros r Hr E. apply Hnotin. apply list_elem_of_fmap. exists ap.
      split; [|apply list_elem_of_filter; auto].
      rewrite <- E. symmetry. apply (accountResources_accountId _ _ _ _ Hr).
  - rewrite filter_cons_False in Hnd |- * by (rewrite Hact'; discriminate).
    apply elem_of_cons in Hin as [<-|Hin]; [congruence|]. apply (IH Hnd Hin).
Qed.

(** X15.  A refresh of simple-server touches only the resources of the
    accounts it refreshes: the stored resources whose account id is not that
    of an active account are the same afterwards, in the same order.  What
    is stored for an account that was switched off is neither renewed nor
    removed. *)
Theorem refresh_keeps_resources_of_other_accounts (now : Z)
    (accounts : list (SimpleServer.Account * Provider)) (rs : list Resource) :
  filter (fun r => res_accountId r ∉ activeIds accounts) (SimpleServer.refresh now accounts rs).1
  = filter (fun r => res_accountId r ∉ activeIds accounts) rs.
Proof. apply refresh_outside. reflexivity. Qed.

(** X16.  When the active accounts carry distinct account ids, the store
    after a refresh is what it held for other account ids, in the old order,
    followed by what was collected for the active accounts in the order of
    the accounts: everything stored before for an active account is
    replaced. *)
Theorem refresh_replaces_active_accounts (now : Z)
    (accounts : list (SimpleServer.Account * Provider)) (rs : list Resource) :
  NoDup (activeIds accounts) ->
  (SimpleServer.refresh now accounts rs).1
  = filter (fun r => res_accountId r ∉ activeIds accounts) rs ++ collectedBy now accounts.
Proof. apply refresh_store. Qed.

Lemma refresh_replaces_active_accounts_witness :
  (SimpleServer.refresh 6000 Sample2.fleet Sample2.stock).1
  = filter (fun r => res_accountId r ∉ activeIds Sample2.fleet) Sample2.stock
    ++ collectedBy 6000 Sample2.fleet.
Proof.
  apply (refresh_replaces_active_accounts 6000 Sample2.fleet Sample2.stock).
  vm_compute. apply NoDup_singleton.
Defined.

(** X17.  When the active accounts carry distinct account ids, the report
    of a refresh lists the active accounts in order, each as a success
    without errors, whatever the provider answered, and with the number of
    resources that the store holds for the account afterwards. *)
Theorem refresh_report_counts_the_store (now : Z)
    (accounts : list (SimpleServer.Account * Provider)) (rs : list Resource) :
  NoDup (activeIds accounts) ->
  (SimpleServer.refresh now accounts rs).2
  = (fun a => {| SimpleServer.rr_accountId := a;
                 SimpleServer.rr_success := true;
                 SimpleServer.rr_resourceCount :=
                   length (storedFor a (SimpleServer.refresh now accounts rs).1);
                 SimpleServer.rr_errors := [] |})
      <$> activeIds accounts.
Proof.
  intros Hnd. rewrite refresh_report.
  unfold activeIds at 1. rewrite <- list_fmap_compose.
  apply Forall_fmap_ext_1, Forall_forall.
  intros ap Hap. apply list_elem_of_filter in Hap as [Hact Hin].
  unfold compose. rewrite (refresh_storedFor _ _ _ _ Hnd Hin Hact). reflexivity.
Qed.

Lemma refresh_report_counts_the_store_witness :
  (SimpleServer.refresh 6000 Sample2.fleet Sample2.stock).2
  = [ {| SimpleServer.rr_accountId := Sample.accountA;
         SimpleServer.rr_success := true;
         SimpleServer.rr_resourceCount :=
           length (storedFor Sample.accountA
                     (SimpleServer.refresh 6000 Sample2.fleet Sample2.stock).1);
         SimpleServer.rr_errors := [] |} ].
Proof.
  apply (refresh_report_counts_the_store 6000 Sample2.fleet Sample2.stock).
  vm_compute. apply NoDup_singleton.
Defined.

(** ** simple-server: the account handlers *)

Section StoredAccounts.
Import SimpleServerAccounts.

(** What a successful POST /api/accounts has done. *)
Lemma ss_createAccount_success (now : Z) (body : Body) (accounts accounts' : list StoredAccount)
    (account : StoredAccount) :
  createAccount now body accounts = (accounts', Success account) ->
  accounts' = accounts ++ [account]
  /\ sa_id account = pretty now
  /\ sa_name account <> ""
  /\ sa_accountId account <> ""
  /\ Forall (fun acc => sa_accountId acc <> sa_accountId account) accounts
  /\ sa_region account = default "us-east-1" (b_region body)
  /\ sa_credentials account = givenCredentials body (default "us-east-1" (b_region body)).
Proof.
  unfold createAccount.
  destruct (Js.truthy (b_name body)) eqn:Hn; [|discriminate].
  destruct (Js.truthy (b_accountId body)) eqn:Ha; [|discriminate].
  cbn [andb negb]. case_bool_decide as Hex; [discriminate|].
  intros [= <- <-]. cbn.
  destruct (b_name body) as [name|]; [|discriminate].
  destruct (b_accountId body) as [accountId|]; [|discriminate].
  cbn in *. apply nonempty_true in Hn, Ha.
  repeat split; try assumption.
  apply Forall_forall. intros acc Hacc E. apply Hex.
  apply Exists_exists. exists acc. auto.
Qed.

(** The account just pushed is found under its id when no older account
    carries that id. *)
Lemma findById_new (id : string) (accounts : list StoredAccount) (account : StoredAccount) :
  findById id accounts = None -> sa_id account = id ->
  findById id (accounts ++ [account]) = Some (length accounts, account).
Proof.
  intros Hnone Hid. unfold findById in *.
  rewrite list_find_app_r by exact Hnone. cbn.
  rewrite decide_True by exact Hid. reflexivity.
Qed.

Lemma findById_Some (id : string) (accounts : list StoredAccount) (i : nat)
    (account : StoredAccount) :
  findById id accounts = Some (i, account) -> accounts !! i = Some account /\ sa_id account = id.
Proof. intros H. apply list_find_Some in H as (H1 & H2 & _). auto. Qed.

End StoredAccounts.

(** X18.  In simple-server, deleting the account that a successful POST has
    just created gives back the list of accounts as it was, provided no
    older account carries the id drawn from the clock; the resources stored
    under the account id are dropped. *)
Theorem simple_server_delete_undoes_create (now : Z) (body : Body)
    (accounts accounts' : list SimpleServerAccounts.StoredAccount)
    (account : SimpleServerAccounts.StoredAccount) (rs : list Resource) :
  SimpleServerAccounts.createAccount now body accounts = (accounts', Success account) ->
  SimpleServerAccounts.findById (pretty now) accounts = None ->
  SimpleServerAccounts.deleteAccount (SimpleServerAccounts.sa_id account) accounts' rs
  = (accounts,
     filter (fun r => res_accountId r <> SimpleServerAccounts.sa_accountId account) rs,
     Success tt).
Proof.
  intros Hc Hfresh.
  apply ss_createAccount_success in Hc as (-> & Hid & _).
  unfold SimpleServerAccounts.deleteAccount.
  rewrite Hid, (findById_new _ _ _ Hfresh Hid).
  rewrite (delete_middle accounts []), app_nil_r. reflexivity.
Qed.

Lemma simple_server_delete_undoes_create_witness :
  SimpleServerAccounts.deleteAccount (SimpleServerAccounts.sa_id Sample2.storedA)
    [Sample2.storedA] Sample2.stock
  = ([],
     filter (fun r => res_accountId r <> SimpleServerAccounts.sa_accountId Sample2.storedA)
       Sample2.stock,
     Success tt).
Proof.
  apply (simple_server_delete_undoes_create 7000 Sample2.bodyWithKeys [] [Sample2.storedA]
           Sample2.storedA Sample2.stock).
  - vm_compute. reflexivity.
  - reflexivity.
Defined.

(** X19.  Once simple-server has deleted an account, its store holds no
    resource of that account id, and a later refresh brings none back,
    provided no remaining account carries the same account id. *)
Theorem deleted_account_stays_gone (id : string)
    (accounts : list SimpleServerAccounts.StoredAccount) (rs : list Resource)
    (i : nat) (account : SimpleServerAccounts.StoredAccount)
    (now : Z) (aws : SimpleServerAccounts.StoredAccount -> Provider) :
  SimpleServerAccounts.findById id accounts = Some (i, account) ->
  SimpleServerAccounts.sa_accountId account
    ∉ SimpleServerAccounts.sa_accountId <$> delete i accounts ->
  storedFor (SimpleServerAccounts.sa_accountId account)
    (SimpleServerAccounts.deleteAccount id accounts rs).1.2 = []
  /\ storedFor (SimpleServerAccounts.sa_accountId account)
       (SimpleServerAccounts.refreshAll now aws
          (SimpleServerAccounts.deleteAccount id accounts rs).1.1
          (SimpleServerAccounts.deleteAccount id accounts rs).1.2).1 = [].
Proof.
  intros Hf Hother. unfold SimpleServerAccounts.deleteAccount. rewrite Hf. cbn [fst snd].
  set (a := SimpleServerAccounts.sa_accountId account) in *.
  assert (Hgone : forall r, r ∈ filter (fun r => res_accountId r <> a) rs ->
                            res_accountId r <> a).
  { intros r Hr. apply list_elem_of_filter in Hr as [Hr _]. exact Hr. }
  split; [apply filter_none; exact Hgone|].
  unfold SimpleServerAccounts.refreshAll.
  set (aps := (fun account0 => (SimpleServerAccounts.asAccount account0, aws account0))
                <$> delete i accounts).
  assert (Hids : a ∉ activeIds aps).
  { intros Hin. apply Hother. unfold activeIds in Hin.
    apply list_elem_of_fmap in Hin as (ap & -> & Hap).
    apply list_elem_of_filter in Hap as [_ Hap].
    apply list_elem_of_fmap in Hap as (acc & -> & Hacc).
    apply list_elem_of_fmap. exists acc. auto. }
  apply filter_none. intros r Hr E.
  assert (Hr' : r ∈ filter (fun r => res_accountId r ∉ activeIds aps)
                      (SimpleServer.refresh now aps (filter (fun r => res_accountId r <> a) rs)).1).
  { apply list_elem_of_filter. split; [rewrite E; exact Hids|exact Hr]. }
  rewrite refresh_outside in Hr' by reflexivity.
  apply list_elem_of_filter in Hr' as [_ Hr'].
  exact (Hgone r Hr' E).
Qed.

Lemma deleted_account_stays_gone_witness :
  storedFor (SimpleServerAccounts.sa_accountId Sample2.storedA)
    (SimpleServerAccounts.deleteAccount "7000" [Sample2.storedA] Sample2.stock).1.2 = []
  /\ storedFor (SimpleServerAccounts.sa_accountId Sample2.storedA)
       (SimpleServerAccounts.refreshAll 9000 (fun _ => Sample.withInstances ["i-a"])
          (SimpleServerAccounts.deleteAccount "7000" [Sample2.storedA] Sample2.stock).1.1
          (SimpleServerAccounts.deleteAccount "7000" [Sample2.storedA] Sample2.stock).1.2).1
     = [].
Proof.
  apply (deleted_account_stays_gone "7000" [Sample2.storedA] Sample2.stock 0 Sample2.storedA
           9000 (fun _ => Sample.withInstances ["i-a"])).
  - vm_compute. reflexivity.
  - vm_compute. intros H. inversion H.
Defined.

(** X20.  Every account that simple-server stores carries a non-empty name
    and a non-empty account id: POST refuses a request without them, PUT
    keeps the old value where the request gives none or an empty one, and
    DELETE only removes an account. *)
Theorem stored_accounts_stay_named (accounts : list SimpleServerAccounts.StoredAccount) :
  named accounts ->
  (forall now body, named (SimpleServerAccounts.createAccount now body accounts).1)
  /\ (forall now id body, named (SimpleServerAccounts.updateAccount now id body accounts).1)
  /\ (forall id rs, named (SimpleServerAccounts.deleteAccount id accounts rs).1.1).
Proof.
  unfold named. intros H. split; [|split].
  - intros now body.
    destruct (SimpleServerAccounts.createAccount now body accounts) as [accounts' response]
      eqn:E.
    destruct response as [account|status code|].
    + apply ss_createAccount_success in E as (-> & _ & Hn & Ha & _).
      cbn [fst]. apply Forall_app. split; [exact H|]. apply Forall_singleton. auto.
    + assert (accounts' = accounts) as ->; [|exact H].
      revert E. unfold SimpleServerAccounts.createAccount.
      repeat case_match; congruence.
    + revert E. unfold SimpleServerAccounts.createAccount.
      repeat case_match; congruence.
  - intros now id body. unfold SimpleServerAccounts.updateAccount.
    destruct (SimpleServerAccounts.findById id accounts) as [[i old]|] eqn:Hf; [|exact H].
    cbn [fst]. apply findById_Some in Hf as [Hi _].
    apply Forall_insert; [exact H|].
    apply (Forall_lookup_1 _ _ _ _ H) in Hi as [Hn Ha].
    split; apply orElse_nonempty; assumption.
  - intros id rs. unfold SimpleServerAccounts.deleteAccount.
    destruct (SimpleServerAccounts.findById id accounts) as [[i old]|]; [|exact H].
    cbn [fst]. apply Forall_delete. exact H.
Qed.

Lemma stored_accounts_stay_named_witness :
  named (SimpleServerAccounts.updateAccount 8000 "7000" (Sample2.patch (Some "") None)
           [Sample2.storedA]).1.
Proof.
  apply (stored_accounts_stay_named [Sample2.storedA]).
  apply Forall_singleton. split; discriminate.
Defined.



(** ** Listings, page after page *)

(** A window with non-negative bounds, in terms of [take] and [drop]. *)
Lemma slice_window {A : Type} (l : list A) (o n : Z) :
  0 <= o -> 0 <= n ->
  Js.slice l (Js.Fin o) (Js.add (Js.Fin o) (Js.Fin n)) = take (Z.to_nat n) (drop (Z.to_nat o) l).
Proof.
  intros Ho Hn. unfold Js.slice, Js.add.
  assert (Ek : Js.relIndex (Z.of_nat (length l)) (Js.Fin o) = Z.min o (Z.of_nat (length l))).
  { unfold Js.relIndex. rewrite bool_decide_eq_false_2 by lia. reflexivity. }
  assert (Ef : Js.relIndex (Z.of_nat (length l)) (Js.Fin (o + n))
               = Z.min (o + n) (Z.of_nat (length l))).
  { unfold Js.relIndex. rewrite bool_decide_eq_false_2 by lia. reflexivity. }
  rewrite Ek, Ef.
  destruct (decide (Z.of_nat (length l) <= o)) as [Hle|Hgt].
  - rewrite !drop_ge by lia. rewrite !take_nil. reflexivity.
  - replace (Z.to_nat (Z.min o (Z.of_nat (length l)))) with (Z.to_nat o) by lia.
    destruct (decide (o + n <= Z.of_nat (length l))) as [Hin|Hout].
    + f_equal. lia.
    + rewrite !take_ge; [reflexivity| |]; rewrite length_drop; lia.
Qed.

Section Pages.
Context {runtime : Js.Runtime}.

(** X22.  Two listings of simple-server for the same filter, the second
    starting where the window of the first ends, hold between them the
    matching resources of both windows in order: nothing is skipped and
    nothing is returned twice, for non-negative offsets and limits. *)
Theorem consecutive_pages_tile (q : Query) (rs filtered : list Resource)
    (lim1 off1 lim2 off2 : Js.QVal) (o l1 l2 : Z) :
  SimpleServer.filteredResources q rs = Some filtered ->
  Js.parseIntQ 0 off1 = Some (Js.Fin o) -> Js.parseIntQ 50 lim1 = Some (Js.Fin l1) ->
  Js.parseIntQ 0 off2 = Some (Js.Fin (o + l1)) -> Js.parseIntQ 50 lim2 = Some (Js.Fin l2) ->
  0 <= o -> 0 <= l1 -> 0 <= l2 ->
  exists page1 page2,
    SimpleServer.getResources (withWindow q lim1 off1) rs = Success page1
    /\ SimpleServer.getResources (withWindow q lim2 off2) rs = Success page2
    /\ resources page1 ++ resources page2
       = take (Z.to_nat (l1 + l2)) (drop (Z.to_nat o) filtered).
Proof.
  intros Hf Ho1 Hl1 Ho2 Hl2 Ho Hn1 Hn2.
  unfold SimpleServer.getResources.
  change (SimpleServer.filteredResources (withWindow q lim1 off1) rs)
    with (SimpleServer.filteredResources q rs).
  change (SimpleServer.filteredResources (withWindow q lim2 off2) rs)
    with (SimpleServer.filteredResources q rs).
  rewrite Hf. cbn [withWindow limit offset]. rewrite Ho1, Hl1, Ho2, Hl2.
  eexists _, _. split; [reflexivity|]. split; [reflexivity|].
  cbn [resources]. rewrite !slice_window by lia.
  replace (Z.to_nat (o + l1)) with (Z.to_nat o + Z.to_nat l1)%nat by lia.
  rewrite <- drop_drop, take_take_drop. f_equal. lia.
Qed.


End Pages.

Lemma consecutive_pages_tile_witness :
  exists page1 page2,
    SimpleServer.getResources (runtime := Js.asciiText)
      (withWindow Sample.noQuery (Js.QStr "2") (Js.QStr "0")) Sample.three = Success page1
    /\ SimpleServer.getResources (runtime := Js.asciiText)
         (withWindow Sample.noQuery (Js.QStr "2") (Js.QStr "2")) Sample.three = Success page2
    /\ resources page1 ++ resources page2
       = take (Z.to_nat (2 + 2)) (drop (Z.to_nat 0) Sample.three).
Proof.
  apply (consecutive_pages_tile (runtime := Js.asciiText)
           Sample.noQuery Sample.three Sample.three
           (Js.QStr "2") (Js.QStr "0") (Js.QStr "2") (Js.QStr "2") 0 2 2);
    try reflexivity; lia.
Defined.

(** ** Summaries add up *)

Lemma sumOfCounts_empty : sumOfCounts ∅ = 0%nat.
Proof. apply map_fold_empty. Qed.

Lemma sumOfCounts_insert (m : gmap string nat) (k : string) (n : nat) :
  m !! k = None -> sumOfCounts (<[k := n]> m) = (n + sumOfCounts m)%nat.
Proof.
  intros H. unfold sumOfCounts.
  apply (map_fold_insert_L (fun _ c acc => (c + acc)%nat) 0%nat k n m); [|exact H].
  intros. lia.
Qed.

Lemma sumOfCounts_delete (m : gmap string nat) (k : string) (n : nat) :
  m !! k = Some n -> sumOfCounts m = (n + sumOfCounts (delete k m))%nat.
Proof.
  intros H. unfold sumOfCounts.
  apply (map_fold_delete_L (fun _ c acc => (c + acc)%nat) 0%nat k n m); [|exact H].
  intros. lia.
Qed.

(** A map that holds, for each key, the number of its occurrences in a list
    adds up to the length of the list. *)
Lemma sumOfCounts_occurrences {A : Type} (col : A -> string) (l : list A)
    (m : gmap string nat) :
  (forall k, m !! k = positiveCount (occurrences col k l)) -> sumOfCounts m = length l.
Proof.
  revert m. induction l as [|x l IH]; intros m Hm.
  - assert (m = ∅) as ->; [|apply sumOfCounts_empty].
    apply map_empty. intros k. rewrite Hm. reflexivity.
  - pose proof (Hm (col x)) as Hx. rewrite occurrences_cons in Hx.
    rewrite decide_True in Hx by reflexivity. cbn [positiveCount] in Hx.
    rewrite (sumOfCounts_delete _ _ _ Hx).
    set (m' := match positiveCount (occurrences col (col x) l) with
               | Some n => <[col x := n]> (delete (col x) m)
               | None => delete (col x) m
               end).
    assert (Hm' : forall k, m' !! k = positiveCount (occurrences col k l)).
    { intros k. unfold m'. destruct (decide (col x = k)) as [<-|N].
      - destruct (positiveCount (occurrences col (col x) l)).
        + apply lookup_insert_eq.
        + apply lookup_delete_eq.
      - assert (E : delete (col x) m !! k = positiveCount (occurrences col k l)).
        { rewrite lookup_delete_ne by exact N. rewrite Hm, occurrences_cons.
          rewrite decide_False by exact N. reflexivity. }
        destruct (positiveCount (occurrences col (col x) l)); [|exact E].
        rewrite lookup_insert_ne by exact N. exact E. }
    specialize (IH m' Hm'). cbn [length]. rewrite <- IH. unfold m'.
    destruct (occurrences col (col x) l) as [|n]; cbn [positiveCount].
    + reflexivity.
    + rewrite sumOfCounts_insert by apply lookup_delete_eq. lia.
Qed.

(** Under names that the object does not inherit, the numbers of a counter
    are the occurrences. *)
Lemma numbers_tally (col : Resource -> string) (rs : list Resource) (k : string) :
  Forall (fun r => col r ∉ Js.prototypeNames) rs ->
  numbers (SimpleServer.tally col rs) !! k = positiveCount (occurrences col k rs).
Proof.
  intros Hplain. unfold numbers. rewrite lookup_omap.
  destruct (decide (k ∈ Js.prototypeNames)) as [Hin|Hout].
  - assert (E : occurrences col k rs = 0%nat).
    { apply occurrences_zero. intros r Hr <-.
      rewrite Forall_forall in Hplain. exact (Hplain r Hr Hin). }
    rewrite tally_absent by exact E. rewrite E. reflexivity.
  - rewrite tally_lookup by exact Hout.
    destruct (positiveCount (occurrences col k rs)); reflexivity.
Qed.

Lemma filterIn_Forall (P : Resource -> Prop) (v : Js.QVal) (col : Resource -> string)
    (rs : list Resource) :
  Forall P rs -> Forall P (SimpleServer.filterIn v col rs).
Proof.
  rewrite !Forall_forall. intros H r Hr. apply H.
  eapply elem_of_sublist; [exact Hr|apply filterIn_sublist].
Qed.

(** X24.  In simple-server's summary the counts by type, the counts by
    status and the counts by region each add up to [total], provided no
    stored resource has a type, a status or a region named like a property
    that every object literal inherits ([constructor], [__proto__], ...):
    under such a name the counters hold a text or nothing. *)
Theorem simple_server_summary_adds_up (q : Query) (rs : list Resource)
    (summary : SimpleServer.Tallies) :
  plainGroups rs ->
  SimpleServer.getSummary q rs = Success summary ->
  sumOfCounts (numbers (SimpleServer.t_byType summary)) = SimpleServer.t_total summary
  /\ sumOfCounts (numbers (SimpleServer.t_byStatus summary)) = SimpleServer.t_total summary
  /\ sumOfCounts (numbers (SimpleServer.t_byRegion summary)) = SimpleServer.t_total summary.
Proof.
  intros Hplain [= <-].
  cbn [SimpleServer.t_byType SimpleServer.t_byStatus SimpleServer.t_byRegion
       SimpleServer.t_total].
  apply (filterIn_Forall _ (accountIds q) res_accountId) in Hplain.
  split; [|split].
  - apply (sumOfCounts_occurrences res_resourceType). intros k. apply numbers_tally.
    eapply Forall_impl; [exact Hplain|]. cbn. tauto.
  - apply (sumOfCounts_occurrences res_status). intros k. apply numbers_tally.
    eapply Forall_impl; [exact Hplain|]. cbn. tauto.
  - apply (sumOfCounts_occurrences res_region). intros k. apply numbers_tally.
    eapply Forall_impl; [exact Hplain|]. cbn. tauto.
Qed.

Lemma simple_server_summary_adds_up_witness :
  sumOfCounts (numbers (SimpleServer.tally res_resourceType Sample.three)) = 3%nat
  /\ sumOfCounts (numbers (SimpleServer.tally res_status Sample.three)) = 3%nat
  /\ sumOfCounts (numbers (SimpleServer.tally res_region Sample.three)) = 3%nat.
Proof.
  apply (simple_server_summary_adds_up Sample.noQuery Sample.three
           {| SimpleServer.t_total := 3;
              SimpleServer.t_byType := SimpleServer.tally res_resourceType Sample.three;
              SimpleServer.t_byStatus := SimpleServer.tally res_status Sample.three;
              SimpleServer.t_byRegion := SimpleServer.tally res_region Sample.three |}).
  - apply (bool_decide_eq_true_1 _). vm_compute. reflexivity.
  - reflexivity.
Defined.

(** X25.  In the controller's summary the counts by type, by status and by
    region each add up to [total]. *)
Theorem controller_summary_adds_up (q : Query) (table : gmap string ResourceController.Row)
    (summary : Summary) :
  ResourceController.getResourceSummary q table = Success summary ->
  sumOfCounts (byType summary) = sm_total summary
  /\ sumOfCounts (byStatus summary) = sm_total summary
  /\ sumOfCounts (byRegion summary) = sm_total summary.
Proof.
  unfold ResourceController.getResourceSummary.
  destruct (ResourceController.summaryWhere q) as [w|]; [|discriminate].
  intros [= <-]. cbn [byType byStatus byRegion sm_total].
  repeat split; apply (sumOfCounts_occurrences _ _ _ (groupCount_lookup _ _)).
Qed.

Lemma controller_summary_adds_up_witness :
  exists summary,
    ResourceController.getResourceSummary Sample.noQuery Sample.threeRows = Success summary
    /\ sumOfCounts (byType summary) = sm_total summary
    /\ sumOfCounts (byStatus summary) = sm_total summary
    /\ sumOfCounts (byRegion summary) = sm_total summary.
Proof.
  eexists. split; [reflexivity|].
  apply (controller_summary_adds_up Sample.noQuery Sample.threeRows). reflexivity.
Defined.

(** ** The controller's listings *)

(** X26.  Both listing handlers of the controller answer every request with
    status 500: they order by [lastUpdated], which is not a column of the
    [resources] table, so the database rejects the statement whatever the
    query and the [catch] block answers. *)
Theorem controller_listings_always_fail (accountId : string) (q : Query)
    (table : ResourceController.Table) :
  ResourceController.getResources q table = Failure 500 "RESOURCES_FETCH_ERROR"
  /\ ResourceController.getAccountResources accountId q table
     = Failure 500 "ACCOUNT_RESOURCES_FETCH_ERROR".
Proof.
  unfold ResourceController.getResources, ResourceController.getAccountResources.
  rewrite !listing_rejected. split; reflexivity.
Qed.

Example listing_of_three_rows_fails :
  ResourceController.getResources Sample.noQuery Sample.threeRows
  = Failure 500 "RESOURCES_FETCH_ERROR".
Proof. reflexivity. Qed.

(** ** The controller's refresh routes *)

Section RegisteredRoutes.
Import ResourceRoutes.
Variable aws : string -> Provider.
Variable now : Z.

Lemma refreshOne_unbound (entry : string * AccountController.AccountRow) (st : Stores) :
  refreshOne Undefined aws now entry st = (st, notRefreshed (st_credentials st) entry).
Proof.
  unfold refreshOne, notRefreshed, collectFor.
  destruct (AuthService.decryptCredentials _ _); reflexivity.
Qed.

Lemma refresh_loop_unbound (entries : list (string * AccountController.AccountRow))
    (st : Stores) (results : list AccountResult) :
  foldl (fun acc entry =>
           let turn := refreshOne Undefined aws now entry acc.1 in
           (turn.1, acc.2 ++ [turn.2]))
        (st, results) entries
  = (st, results ++ (notRefreshed (st_credentials st) <$> entries)).
Proof.
  revert results. induction entries as [|entry entries IH]; intros results.
  - simpl. rewrite app_nil_r. reflexivity.
  - simpl. rewrite refreshOne_unbound. simpl. rewrite IH, <- app_assoc. reflexivity.
Qed.

(** X27.  The refresh routes of the controller, as they are registered,
    store nothing: the handler functions are handed to the router without
    their class, so [this.storeResourceCollection] throws after the
    collection.  The refresh of all accounts leaves the three stores as they
    were and answers with success and one failed result per active account;
    the refresh of one account leaves them as they were and never answers
    with success. *)
Theorem registered_refresh_stores_nothing (accountId : string) (st : Stores) :
  (postRefresh aws now st).1 = st
  /\ (postRefresh aws now st).2
     = Success (notRefreshed (st_credentials st)
                  <$> filter (fun entry => AccountController.ar_isActive entry.2 = true)
                             (map_to_list (st_accounts st)))
  /\ (postRefreshAccount (aws accountId) now accountId st).1 = st
  /\ (forall data, (postRefreshAccount (aws accountId) now accountId st).2 <> Success data).
Proof.
  unfold postRefresh, refreshAllResources. rewrite refresh_loop_unbound.
  split; [reflexivity|]. split; [reflexivity|].
  unfold postRefreshAccount, refreshAccountResources.
  destruct (findOne (st_accounts st) accountId) as [[id account]|];
    [|split; [reflexivity|discriminate]].
  destruct (collectFor _ _ _ _); split; try reflexivity; discriminate.
Qed.

End RegisteredRoutes.

(** ** Worked values of the JavaScript helpers *)

Example parseInt_examples :
  Js.parseInt "42" = Js.Fin 42 /\ Js.parseInt "  -7px" = Js.Fin (-7) /\
  Js.parseInt "0x1f" = Js.Fin 31 /\ Js.parseInt "abc" = Js.NaN /\
  Js.parseInt "" = Js.NaN /\ Js.parseInt "12,5" = Js.Fin 12.
Proof. repeat split; reflexivity. Qed.

(** Beyond 2^53 [parseInt] gives the nearest double. *)
Example parseInt_rounds :
  Js.parseInt "9007199254740993" = Js.Fin 9007199254740992
  /\ Js.parseInt "9007199254740995" = Js.Fin 9007199254740996.
Proof. split; vm_compute; reflexivity. Qed.

Example slice_examples :
  Js.slice [1;2;3] (Js.Fin 1) (Js.Fin 5) = [2;3] /\
  Js.slice [1;2;3] (Js.Fin (-1)) (Js.Fin 9) = [3] /\
  Js.slice [1;2;3] (Js.Fin 0) (Js.Fin (-1)) = [1;2] /\
  Js.slice [1;2;3] Js.NaN Js.NaN = [] /\
  Js.slice [1;2;3] Js.NegInfinity Js.PosInfinity = [1;2;3].
Proof. repeat split; reflexivity. Qed.

(** [?limit[a]=1] reads as NaN; [?limit[toString]=1] makes [parseInt]
    throw. *)
Example parseIntQ_of_objects :
  Js.parseIntQ 50 (Js.QObj [("a", Js.QStr "1")]) = Some Js.NaN
  /\ Js.parseIntQ 50 (Js.QObj [("toString", Js.QStr "1")]) = None
  /\ Js.parseIntQ 50 (Js.QArr [Js.QStr "7"; Js.QStr "8"]) = Some (Js.Fin 7).
Proof. repeat split; vm_compute; reflexivity. Qed.
